(** * Order creation of the shop back end: [app.post('/api/orders')]

    A shallow embedding of the order-creation handler of [src/index.js]
    (lines 165-256) and of the part of the relational store it talks to.

    Modelling choices, all visible in the definitions below.
    - Request fields arrive JSON-decoded at the types of the interface; a
      field that is absent, [null] or [undefined] is [None].  JavaScript
      truthiness is written out: [0] and the empty string are falsy.
    - Numbers (ids, quantities, prices, totals) are the whole numbers among
      the doubles, held in [Z]; money is counted in the smallest currency
      unit.  The products and sums of the handler are those of doubles:
      [js_mul] and [js_add] round to 53 significant bits.  Fractions, [NaN]
      and the exponent range (from 2^1024 on the code has [Infinity]) are
      outside the model.
    - Strings are sequences of code units below 256.
    - The handler is written in a state-and-exception monad over [State]:
      the two versions of the tables (durable, and the private view of the
      open transaction), the pool, the handler's local [connection], the
      response written so far, and an event log.
    - Every awaited store call may fail.  Which one does is fixed by a
      fault plan [faults]: the call issued when [clock] calls have been
      issued before it throws [faults clock] when that is [Some msg].  A
      call that throws leaves the tables as they are; in particular a
      commit that throws has committed nothing.  [connection.release()] is
      synchronous and does not fail.
    - One request runs at a time: other requests and their transactions
      are not part of the model. *)

From Stdlib Require Import ZArith List String Ascii Bool Lia DecimalString
  Permutation.
Import ListNotations.
Local Open Scope Z_scope.

(** ** JavaScript values at the types of the interface *)

(** [!v] for a number: absent and [0] are falsy. *)
Definition truthy_num (v : option Z) : bool :=
  match v with
  | Some n => negb (n =? 0)
  | None => false
  end.

(** [!v] for a string: absent and the empty string are falsy. *)
Definition truthy_str (v : option string) : bool :=
  match v with
  | Some EmptyString => false
  | Some _ => true
  | None => false
  end.

(** Reading a field where a number (a string) is used.  The handler only
    does so behind a truthiness guard. *)
Definition num (v : option Z) : Z :=
  match v with Some n => n | None => 0 end.

Definition str (v : option string) : string :=
  match v with Some s => s | None => EmptyString end.

(** [v || null] *)
Definition or_null (v : option string) : option string :=
  if truthy_str v then v else None.

(** White space of [String.prototype.trim] among the code units below 256:
    TAB, LF, VT, FF, CR, SP and NBSP. *)
Definition is_white_space (c : ascii) : bool :=
  match nat_of_ascii c with
  | 9%nat | 10%nat | 11%nat | 12%nat | 13%nat | 32%nat | 160%nat => true
  | _ => false
  end.

Fixpoint trimStart (s : string) : string :=
  match s with
  | EmptyString => EmptyString
  | String c r => if is_white_space c then trimStart r else s
  end.

Fixpoint trimEnd (s : string) : string :=
  match s with
  | EmptyString => EmptyString
  | String c r =>
      match trimEnd r with
      | EmptyString => if is_white_space c then EmptyString else String c EmptyString
      | r' => String c r'
      end
  end.

Definition trim (s : string) : string := trimEnd (trimStart s).

(** *** Numbers *)

(** The double nearest to a whole number: 53 significant bits, a tie goes
    to the even significand.  Below 2^53 every whole number is a double. *)
Definition double (z : Z) : Z :=
  if Z.abs z <? 2 ^ 53 then z
  else
    let ulp := 2 ^ (Z.log2 (Z.abs z) - 52) in
    let q := Z.abs z / ulp in
    let r := Z.abs z mod ulp in
    Z.sgn z * (ulp * (if (2 * r <? ulp) || ((2 * r =? ulp) && Z.even q)
                      then q else q + 1)).

(** [a * b] and [a + b]: the exact result, rounded. *)
Definition js_mul (a b : Z) : Z := double (a * b).

Definition js_add (a b : Z) : Z := double (a + b).

(** Every decimal digit of a whole number. *)
Definition digits (n : Z) : string := NilZero.string_of_int (Z.to_int n).

(** The multiple of the largest power of ten whose double is [v]: the
    fewest significant digits that read back as [v]; of two such multiples
    the one nearer to [v], and at equal distance the even one.  [p] runs
    down the powers of ten. *)
Fixpoint shortest (fuel : nat) (v p : Z) : Z :=
  match fuel with
  | O => v
  | S fuel' =>
      let lo := v / p * p in
      let hi := lo + p in
      match double lo =? v, double hi =? v with
      | true, true =>
          if v - lo <? hi - v then lo
          else if hi - v <? v - lo then hi
          else if Z.even (lo / p) then lo else hi
      | true, false => lo
      | false, true => hi
      | false, false => shortest fuel' v (p / 10)
      end
  end.

Fixpoint strip_zeros (s : string) : string :=
  match s with
  | EmptyString => EmptyString
  | String c r =>
      match strip_zeros r with
      | EmptyString =>
          if Ascii.eqb c "0" then EmptyString else String c EmptyString
      | r' => String c r'
      end
  end.

(** [d.ddde+x] *)
Definition exponent_form (c : Z) : string :=
  String.append
    (match strip_zeros (digits c) with
     | String d EmptyString => String d EmptyString
     | String d rest => String d (String "." rest)
     | EmptyString => EmptyString
     end)
    (String.append "e+" (digits (Z.of_nat (String.length (digits c)) - 1))).

(** Template literal [`${n}`] of a whole number: below 2^53 all its
    digits; from there on the shortest digits that read back as the same
    double, filled up with zeros below 10^21 and in exponent form from
    10^21 on. *)
Definition decimal (n : Z) : string :=
  if Z.abs n <? 2 ^ 53 then digits n
  else
    let v := double (Z.abs n) in
    let k := String.length (digits v) in
    let c := shortest k v (10 ^ (Z.of_nat k - 1)) in
    String.append (if n <? 0 then "-"%string else EmptyString)
      (if c <? 10 ^ 21 then digits c else exponent_form c).

(** ** Data model *)

(** One element of [req.body.items]. *)
Module Item.
Record t := mk {
  product_id : option Z;
  quantity : option Z;
  name : option string;
  price_at_order : option Z;
  image_url : option string }.
End Item.

(** [req.body] *)
Module Request.
Record t := mk {
  items : option (list Item.t);
  customerIdentifier : option string;
  customerName : option string }.
End Request.

(** A row of [products]; the handler reads [id] and [price] only. *)
Module Product.
Record t := mk { id : Z; price : Z }.
End Product.

Inductive OrderStatus := pending | completed.

(** A row of [orders] ([created_at] is filled in by the store and is not
    read here). *)
Module Order.
Record t := mk {
  id : Z;
  customer_identifier : string;
  customer_name : string;
  total_price : Z;
  status : OrderStatus }.
End Order.

(** The object pushed on [orderItemsToInsert] (lines 209-215). *)
Module Reconciled.
Record t := mk {
  product_id : Z;
  quantity : Z;
  price_at_order : Z;
  product_name : string;
  image_url : option string }.
End Reconciled.

(** A row of [order_items]. *)
Module OrderItem.
Record t := mk {
  order_id : Z;
  product_id : Z;
  quantity : Z;
  price_at_order : Z;
  product_name : string;
  image_url : option string }.
End OrderItem.

Record Tables := mkTables {
  products : list Product.t;
  orders : list Order.t;
  order_items : list OrderItem.t }.

(** ** Responses, exceptions and events *)

Inductive Body :=
| Message (message : string)
| Created (order_id : Z) (customerIdentifier customerName : string)
          (total_price : Z) (status : OrderStatus) (message : string).

Record Response := mkResponse { status : Z; body : Body }.

Definition body_message (b : Body) : string :=
  match b with
  | Message m => m
  | Created _ _ _ _ _ m => m
  end.

(** What the handler's [try] block can throw.  The [catch] clause reads
    nothing but [error.message]. *)
Inductive Exn :=
| InvalidItemDetail
| ProductNotFound (product_id : Z)
| StoreError (msg : string).

Module Msg.
Local Open Scope string_scope.
Definition no_items := "Pesanan harus memiliki item.".
Definition no_identifier := "Identitas konsumen (customerIdentifier) wajib diisi.".
Definition no_name := "Nama pembeli (customerName) wajib diisi.".
Definition invalid_item :=
  "Detail item pesanan tidak valid: product_id, quantity, name, atau price_at_order kurang.".
Definition not_found (product_id : Z) :=
  "Produk dengan ID " ++ decimal product_id ++ " tidak ditemukan.".
Definition created := "Pesanan berhasil dibuat.".
Definition failed (reason : string) := "Gagal membuat pesanan: " ++ reason.
End Msg.

Definition message (e : Exn) : string :=
  match e with
  | InvalidItemDetail => Msg.invalid_item
  | ProductNotFound product_id => Msg.not_found product_id
  | StoreError msg => msg
  end.

(** The store calls of the handler, with their parameters. *)
Inductive StoreOp :=
| GetConnection
| BeginTransaction
| SelectPrice (id : Z)
| InsertOrder (customer_identifier customer_name : string) (total_price : Z)
              (status : OrderStatus)
| InsertOrderItem (row : OrderItem.t)
| Commit
| Rollback
| Release.

(** [Called op ok]: [op] was issued and returned ([ok = true]) or threw. *)
Inductive Event :=
| Called (op : StoreOp) (ok : bool)
| Responded (r : Response).

Inductive Connection := PoolConnection.

(** ** The state the handler runs in *)

Record State := mkState {
  durable : Tables;               (* what is committed *)
  tx : option Tables;             (* the view of the open transaction, if any *)
  auto_increment : Z;             (* next [orders.id] *)
  leased : nat;                   (* connections out of the pool *)
  connection : option Connection; (* the handler's [let connection] *)
  response : option Response;     (* what [res] has sent *)
  clock : nat;                    (* store calls issued so far *)
  trace : list Event }.

(** The tables as the connection sees them. *)
Definition view (s : State) : Tables :=
  match tx s with
  | Some t => t
  | None => durable s
  end.

(** Log awaited store calls. *)
Definition advance (evs : list Event) (s : State) : State :=
  mkState (durable s) (tx s) (auto_increment s) (leased s) (connection s)
          (response s) (clock s + List.length evs)%nat (trace s ++ evs).

(** Log something that cannot fail. *)
Definition note (e : Event) (s : State) : State :=
  mkState (durable s) (tx s) (auto_increment s) (leased s) (connection s)
          (response s) (clock s) (trace s ++ [e]).

(** A statement on the connection: inside a transaction it changes the
    transaction's view, outside (autocommit) the durable tables. *)
Definition write (f : Tables -> Tables) (s : State) : State :=
  match tx s with
  | Some t =>
      mkState (durable s) (Some (f t)) (auto_increment s) (leased s)
              (connection s) (response s) (clock s) (trace s)
  | None =>
      mkState (f (durable s)) None (auto_increment s) (leased s)
              (connection s) (response s) (clock s) (trace s)
  end.

(** [START TRANSACTION] commits what an earlier transaction on the
    connection left open, then opens a new one. *)
Definition start_tx (s : State) : State :=
  mkState (view s) (Some (view s)) (auto_increment s) (leased s)
          (connection s) (response s) (clock s) (trace s).

Definition commit_tx (s : State) : State :=
  mkState (view s) None (auto_increment s) (leased s)
          (connection s) (response s) (clock s) (trace s).

(** The counter of [orders.id] is not given back by a rollback. *)
Definition rollback_tx (s : State) : State :=
  mkState (durable s) None (auto_increment s) (leased s)
          (connection s) (response s) (clock s) (trace s).

Definition lease (s : State) : State :=
  mkState (durable s) (tx s) (auto_increment s) (S (leased s))
          (connection s) (response s) (clock s) (trace s).

Definition give_back (s : State) : State :=
  mkState (durable s) (tx s) (auto_increment s) (pred (leased s))
          (connection s) (response s) (clock s) (trace s).

Definition bump (s : State) : State :=
  mkState (durable s) (tx s) (auto_increment s + 1) (leased s)
          (connection s) (response s) (clock s) (trace s).

Definition set_connection (c : option Connection) (s : State) : State :=
  mkState (durable s) (tx s) (auto_increment s) (leased s)
          c (response s) (clock s) (trace s).

Definition set_response (r : option Response) (s : State) : State :=
  mkState (durable s) (tx s) (auto_increment s) (leased s)
          (connection s) r (clock s) (trace s).

Definition add_order (o : Order.t) (t : Tables) : Tables :=
  mkTables (products t) (orders t ++ [o]) (order_items t).

Definition add_order_item (r : OrderItem.t) (t : Tables) : Tables :=
  mkTables (products t) (orders t) (order_items t ++ [r]).

(** Rows of [SELECT price FROM products WHERE id = ?]. *)
Definition select_price (t : Tables) (id : Z) : list Z :=
  map Product.price (filter (fun p => Product.id p =? id) (products t)).

(** ** The monad *)

Inductive Result (A : Type) :=
| Ok (a : A)
| Throw (e : Exn).
Arguments Ok {A} a.
Arguments Throw {A} e.

Definition M (A : Type) : Type := State -> Result A * State.

Definition ret {A} (a : A) : M A := fun s => (Ok a, s).

Definition throw {A} (e : Exn) : M A := fun s => (Throw e, s).

Definition bind {A B} (m : M A) (k : A -> M B) : M B :=
  fun s =>
    match m s with
    | (Ok a, s1) => k a s1
    | (Throw e, s1) => (Throw e, s1)
    end.

Definition gets {A} (f : State -> A) : M A := fun s => (Ok (f s), s).

Definition modify (f : State -> State) : M unit := fun s => (Ok tt, f s).

Notation "x <- m ;; k" := (bind m (fun x => k))
  (at level 61, m at next level, right associativity).
Notation "m ;; k" := (bind m (fun _ => k))
  (at level 61, right associativity).

(** [try { body } catch (error) { handler } finally { final }] *)
Definition try_catch_finally (body : M unit) (handler : Exn -> M unit)
    (final : M unit) : M unit :=
  fun s =>
    match body s with
    | (Ok _, s1) => final s1
    | (Throw error, s1) =>
        match handler error s1 with
        | (Ok _, s2) => final s2
        | (Throw e, s2) =>
            match final s2 with
            | (Ok _, s3) => (Throw e, s3)
            | (Throw e', s3) => (Throw e', s3)
            end
        end
    end.

(** [res.status(code).json(body)] *)
Definition res_json (code : Z) (b : Body) : M unit :=
  modify (fun s =>
    note (Responded (mkResponse code b))
         (set_response (Some (mkResponse code b)) s)).

(** ** The store, as the handler calls it *)

Section Handler.

Variable faults : nat -> option string.

(** Issue one awaited store call. *)
Definition issue (op : StoreOp) : M unit :=
  fun s =>
    match faults (clock s) with
    | Some msg => (Throw (StoreError msg), advance [Called op false] s)
    | None => (Ok tt, advance [Called op true] s)
    end.

(** [pool.getConnection()] *)
Definition getConnection : M Connection :=
  issue GetConnection ;; modify lease ;; ret PoolConnection.

(** [connection.beginTransaction()] *)
Definition beginTransaction : M unit :=
  issue BeginTransaction ;; modify start_tx.

(** [connection.query('SELECT price FROM products WHERE id = ?', [id])] *)
Definition query_select_price (id : Z) : M (list Z) :=
  issue (SelectPrice id) ;; gets (fun s => select_price (view s) id).

(** [connection.query('INSERT INTO orders (...) VALUES (?, ?, ?, ?)', ...)];
    the result is [insertId]. *)
Definition query_insert_order (customer_identifier customer_name : string)
    (total_price : Z) (st : OrderStatus) : M Z :=
  issue (InsertOrder customer_identifier customer_name total_price st) ;;
  insertId <- gets auto_increment ;;
  modify (write (add_order
    (Order.mk insertId customer_identifier customer_name total_price st))) ;;
  modify bump ;;
  ret insertId.

(** [connection.query('INSERT INTO order_items (...) VALUES (?, ?, ?, ?, ?, ?)', ...)] *)
Definition query_insert_order_item (row : OrderItem.t) : M unit :=
  issue (InsertOrderItem row) ;; modify (write (add_order_item row)).

(** [connection.commit()] *)
Definition commit : M unit := issue Commit ;; modify commit_tx.

(** [connection.rollback()] *)
Definition rollback : M unit := issue Rollback ;; modify rollback_tx.

(** [connection.release()]: synchronous, not awaited. *)
Definition release : M unit :=
  modify (fun s => note (Called Release true) (give_back s)).

(** ** The handler *)

(** Line 190: the guard of the first loop. *)
Definition item_invalid (item : Item.t) : bool :=
  negb (truthy_num (Item.product_id item))
  || negb (truthy_num (Item.quantity item))
  || (num (Item.quantity item) <=? 0)
  || negb (truthy_str (Item.name item))
  || negb (truthy_num (Item.price_at_order item)).

(** Lines 209-215. *)
Definition reconciled (actualProductPrice : Z) (item : Item.t) : Reconciled.t :=
  Reconciled.mk (num (Item.product_id item))
                (num (Item.quantity item))
                actualProductPrice
                (str (Item.name item))
                (or_null (Item.image_url item)).

(** Lines 188-216: the first loop, with its two accumulators. *)
Fixpoint reconcile (items : list Item.t) (total_price : Z)
    (orderItemsToInsert : list Reconciled.t) : M (Z * list Reconciled.t) :=
  match items with
  | [] => ret (total_price, orderItemsToInsert)
  | item :: rest =>
      if item_invalid item then throw InvalidItemDetail
      else
        productRows <- query_select_price (num (Item.product_id item)) ;;
        if (List.length productRows =? 0)%nat
        then throw (ProductNotFound (num (Item.product_id item)))
        else
          let actualProductPrice := nth 0 productRows 0 in
          let itemPriceCalculated :=
            js_mul actualProductPrice (num (Item.quantity item)) in
          reconcile rest (js_add total_price itemPriceCalculated)
                    (orderItemsToInsert ++ [reconciled actualProductPrice item])
  end.

(** Line 231: the parameters of one insert. *)
Definition order_item_row (order_id : Z) (item : Reconciled.t) : OrderItem.t :=
  OrderItem.mk order_id
               (Reconciled.product_id item)
               (Reconciled.quantity item)
               (Reconciled.price_at_order item)
               (Reconciled.product_name item)
               (Reconciled.image_url item).

(** Lines 228-233: the second loop. *)
Fixpoint insert_items (order_id : Z) (orderItemsToInsert : list Reconciled.t)
    : M unit :=
  match orderItemsToInsert with
  | [] => ret tt
  | item :: rest =>
      query_insert_order_item (order_item_row order_id item) ;;
      insert_items order_id rest
  end.

(** Lines 182-243: the [try] block. *)
Definition try_block (req : Request.t) : M unit :=
  c <- getConnection ;;
  modify (set_connection (Some c)) ;;
  beginTransaction ;;
  r <- reconcile (match Request.items req with Some l => l | None => [] end) 0 [] ;;
  let total_price := fst r in
  let orderItemsToInsert := snd r in
  order_id <- query_insert_order (str (Request.customerIdentifier req))
                (str (Request.customerName req)) total_price completed ;;
  insert_items order_id orderItemsToInsert ;;
  commit ;;
  res_json 201
    (Created order_id (str (Request.customerIdentifier req))
       (str (Request.customerName req)) total_price completed Msg.created).

(** Lines 245-250: the [catch] clause. *)
Definition catch_block (error : Exn) : M unit :=
  c <- gets connection ;;
  match c with
  | Some _ => rollback
  | None => ret tt
  end ;;
  res_json 500 (Message (Msg.failed (message error))).

(** Lines 251-255: the [finally] clause. *)
Definition finally_block : M unit :=
  c <- gets connection ;;
  match c with
  | Some _ => release
  | None => ret tt
  end.

(** Lines 169, 173, 176: the three guards before the [try]. *)
Definition no_items (req : Request.t) : bool :=
  match Request.items req with
  | None => true
  | Some l => (List.length l =? 0)%nat
  end.

Definition blank (v : option string) : bool :=
  negb (truthy_str v) || String.eqb (trim (str v)) EmptyString.

(** A new invocation: [res] has sent nothing, [let connection;] is
    [undefined]. *)
Definition enter (s : State) : State :=
  set_response None (set_connection None s).

(** Lines 165-256. *)
Definition create_order (req : Request.t) : M unit :=
  modify enter ;;
  if no_items req then res_json 400 (Message Msg.no_items)
  else if blank (Request.customerIdentifier req)
  then res_json 400 (Message Msg.no_identifier)
  else if blank (Request.customerName req)
  then res_json 400 (Message Msg.no_name)
  else try_catch_finally (try_block req) catch_block finally_block.

End Handler.

(** ** Vocabulary of the statements *)

(** [productRows[0].price] for the product an item names. *)
Definition actual_price (t : Tables) (item : Item.t) : Z :=
  nth 0 (select_price t (num (Item.product_id item))) 0.

(** The product's price as the store has it, when the product exists. *)
Definition authoritative_price (t : Tables) (id : Z) : option Z :=
  option_map Product.price
    (find (fun p => Product.id p =? id) (products t)).

Definition reconciled_in (t : Tables) (item : Item.t) : Reconciled.t :=
  reconciled (actual_price t item) item.


Definition item_total (t : Tables) (item : Item.t) : Z :=
  js_mul (actual_price t item) (num (Item.quantity item)).

(** The running total, item after item, from [total]. *)
Definition total_from (t : Tables) (total : Z) (items : list Item.t) : Z :=
  fold_left (fun acc item => js_add acc (item_total t item)) items total.

Definition total_in (t : Tables) (items : list Item.t) : Z :=
  total_from t 0 items.

(** An item that gets through the body of the first loop. *)
Definition reconcilable (t : Tables) (item : Item.t) : Prop :=
  item_invalid item = false /\
  select_price t (num (Item.product_id item)) <> [].

Definition add_order_items (rows : list OrderItem.t) (t : Tables) : Tables :=
  mkTables (products t) (orders t) (order_items t ++ rows).

Definition ok (op : StoreOp) : Event := Called op true.
Definition ko (op : StoreOp) : Event := Called op false.

Definition select_ops (items : list Item.t) : list StoreOp :=
  map (fun item => SelectPrice (num (Item.product_id item))) items.

Definition insert_ops (order_id : Z) (l : list Reconciled.t) : list StoreOp :=
  map (fun item => InsertOrderItem (order_item_row order_id item)) l.

Definition items_of (req : Request.t) : list Item.t :=
  match Request.items req with Some l => l | None => [] end.

(** The store calls of a complete run, in the order of the program text. *)
Definition script (t : Tables) (order_id : Z) (req : Request.t) : list StoreOp :=
  [GetConnection; BeginTransaction]
  ++ select_ops (items_of req)
  ++ [InsertOrder (str (Request.customerIdentifier req))
        (str (Request.customerName req)) (total_in t (items_of req)) completed]
  ++ insert_ops order_id (map (reconciled_in t) (items_of req))
  ++ [Commit].

(** Events of the [catch] and [finally] clauses and of [res]. *)
Definition is_closing (e : Event) : bool :=
  match e with
  | Called Rollback _ | Called Release _ | Responded _ => true
  | _ => false
  end.

Definition is_release (e : Event) : bool :=
  match e with
  | Called Release _ => true
  | _ => false
  end.

Definition is_settle (e : Event) : bool :=
  match e with
  | Called Commit true | Called Rollback _ => true
  | _ => false
  end.

(** Nothing is in flight on the connection the pool will hand out. *)
Definition idle (s : State) : Prop := tx s = None.

(** ** States along a run *)

(** [then_sent code b s]: [s] after [res.status(code).json(b)]. *)
Definition then_sent (code : Z) (b : Body) (s : State) : State :=
  note (Responded (mkResponse code b))
       (set_response (Some (mkResponse code b)) s).

Definition then_released (s : State) : State :=
  note (Called Release true) (give_back s).

Definition acquired (s : State) : State :=
  set_connection (Some PoolConnection) (lease (advance [ok GetConnection] s)).

Definition begun (s : State) : State :=
  start_tx (advance [ok BeginTransaction] (acquired s)).

Definition looked_up (req : Request.t) (s : State) : State :=
  advance (map ok (select_ops (items_of req))) (begun s).

Definition header_op (t : Tables) (req : Request.t) : StoreOp :=
  InsertOrder (str (Request.customerIdentifier req))
    (str (Request.customerName req)) (total_in t (items_of req)) completed.

Definition header_row (t : Tables) (order_id : Z) (req : Request.t) : Order.t :=
  Order.mk order_id (str (Request.customerIdentifier req))
    (str (Request.customerName req)) (total_in t (items_of req)) completed.

Definition header_in (req : Request.t) (s : State) : State :=
  bump (write (add_order (header_row (view s) (auto_increment s) req))
         (advance [ok (header_op (view s) req)] (looked_up req s))).

Definition rows_in (l : list Reconciled.t) (s : State) (from : State) : State :=
  advance (map ok (insert_ops (auto_increment s) l))
    (write (add_order_items (map (order_item_row (auto_increment s)) l)) from).

Definition created_body (req : Request.t) (s : State) : Body :=
  Created (auto_increment s) (str (Request.customerIdentifier req))
    (str (Request.customerName req)) (total_in (view s) (items_of req))
    completed Msg.created.

Definition committed (req : Request.t) (s : State) : State :=
  then_sent 201 (created_body req s)
    (commit_tx (advance [ok Commit]
       (rows_in (map (reconciled_in (view s)) (items_of req)) s (header_in req s)))).

(** ** Runs, classified *)

(** The fault plan throws [m] somewhere. *)
Definition faulty (faults : nat -> option string) (m : string) : Prop :=
  exists k, faults k = Some m.

(** How the first loop stops at an item. *)
Inductive reconcile_stop (faults : nat -> option string) (t : Tables)
    (bad : Item.t) : Exn -> list Event -> Prop :=
| stop_invalid :
    item_invalid bad = true ->
    reconcile_stop faults t bad InvalidItemDetail []
| stop_fault m :
    faulty faults m ->
    item_invalid bad = false ->
    reconcile_stop faults t bad (StoreError m)
      [ko (SelectPrice (num (Item.product_id bad)))]
| stop_missing :
    item_invalid bad = false ->
    select_price t (num (Item.product_id bad)) = [] ->
    reconcile_stop faults t bad (ProductNotFound (num (Item.product_id bad)))
      [ok (SelectPrice (num (Item.product_id bad)))].

(** The [try] block threw with the connection in hand: the exception and
    the state in which the [catch] clause starts. *)
Inductive Aborted (faults : nat -> option string) (req : Request.t) (s : State)
    : Exn -> State -> Prop :=
| abort_begin m :
    faulty faults m ->
    Aborted faults req s (StoreError m) (advance [ko BeginTransaction] (acquired s))
| abort_item done bad rest e tail :
    items_of req = done ++ bad :: rest ->
    Forall (reconcilable (view s)) done ->
    reconcile_stop faults (view s) bad e tail ->
    Aborted faults req s e (advance (map ok (select_ops done) ++ tail) (begun s))
| abort_header m :
    faulty faults m ->
    Forall (reconcilable (view s)) (items_of req) ->
    Aborted faults req s (StoreError m)
      (advance [ko (header_op (view s) req)] (looked_up req s))
| abort_row done bad rest m :
    faulty faults m ->
    Forall (reconcilable (view s)) (items_of req) ->
    map (reconciled_in (view s)) (items_of req) = done ++ bad :: rest ->
    Aborted faults req s (StoreError m)
      (advance [ko (InsertOrderItem (order_item_row (auto_increment s) bad))]
         (rows_in done s (header_in req s)))
| abort_commit m :
    faulty faults m ->
    Forall (reconcilable (view s)) (items_of req) ->
    Aborted faults req s (StoreError m)
      (advance [ko Commit]
         (rows_in (map (reconciled_in (view s)) (items_of req)) s
            (header_in req s))).

(** What the guards before the [try] answer, if they answer. *)
Definition header_error (req : Request.t) : option string :=
  if no_items req then Some Msg.no_items
  else if blank (Request.customerIdentifier req) then Some Msg.no_identifier
  else if blank (Request.customerName req) then Some Msg.no_name
  else None.

Definition failure_body (e : Exn) : Body := Message (Msg.failed (message e)).

(** Every run of the handler is one of these five. *)
Inductive Handled (faults : nat -> option string) (req : Request.t) (s : State)
    : Result unit -> State -> Prop :=
| handled_rejected m :
    header_error req = Some m ->
    Handled faults req s (Ok tt) (then_sent 400 (Message m) (enter s))
| handled_no_connection m :
    header_error req = None ->
    faulty faults m ->
    Handled faults req s (Ok tt)
      (then_sent 500 (failure_body (StoreError m))
         (advance [ko GetConnection] (enter s)))
| handled_rolled_back e s1 :
    header_error req = None ->
    Aborted faults req (enter s) e s1 ->
    Handled faults req s (Ok tt)
      (then_released
         (then_sent 500 (failure_body e)
            (rollback_tx (advance [ok Rollback] s1))))
| handled_rollback_failed e s1 m :
    header_error req = None ->
    faulty faults m ->
    Aborted faults req (enter s) e s1 ->
    Handled faults req s (Throw (StoreError m))
      (then_released (advance [ko Rollback] s1))
| handled_created :
    header_error req = None ->
    Forall (reconcilable (view s)) (items_of req) ->
    Handled faults req s (Ok tt) (then_released (committed req (enter s))).

(** Store calls that only occur between [beginTransaction] and [commit]. *)
Definition in_transaction (op : StoreOp) : bool :=
  match op with
  | BeginTransaction | SelectPrice _ | InsertOrder _ _ _ _ | InsertOrderItem _ => true
  | _ => false
  end.

Definition is_response (e : Event) : bool :=
  match e with
  | Responded _ => true
  | _ => false
  end.

(** ** The guards and the rows, in the words of the interface *)

Fixpoint all_white_space (s : string) : bool :=
  match s with
  | EmptyString => true
  | String c r => is_white_space c && all_white_space r
  end.

(** A customer field that is absent, empty or made of white space. *)
Definition empty_or_white (v : option string) : bool :=
  match v with
  | None => true
  | Some s => all_white_space s
  end.

(** [items] absent or of length 0. *)
Definition items_empty (req : Request.t) : bool :=
  match Request.items req with
  | None | Some [] => true
  | Some (_ :: _) => false
  end.

(** The product table has a row with this id. *)
Definition product_exists (t : Tables) (id : Z) : Prop :=
  In id (map Product.id (products t)).

(** The product's price, for a product that exists. *)
Definition price_of (t : Tables) (id : Z) : Z :=
  match authoritative_price t id with
  | Some p => p
  | None => 0
  end.

Definition persisted_rows (t : Tables) (order_id : Z) (items : list Item.t)
    : list OrderItem.t :=
  map (order_item_row order_id) (map (reconciled_in t) items).

(** Two line items that differ at most in the price the client sent. *)
Definition same_but_price (a b : Item.t) : Prop :=
  Item.product_id a = Item.product_id b
  /\ Item.quantity a = Item.quantity b
  /\ Item.name a = Item.name b
  /\ Item.image_url a = Item.image_url b.

(** A store error that a computation throws is the one the fault plan
    holds for the last call issued. *)
Definition reports_last_fault (faults : nat -> option string) {A} (m : M A)
    : Prop :=
  forall s msg s1,
    m s = (Throw (StoreError msg), s1) ->
    exists k, clock s1 = S k /\ faults k = Some msg.

(** ** A small shop, for the examples *)

Module Sample.
Local Open Scope string_scope.

Definition tables : Tables :=
  mkTables [Product.mk 7 1000; Product.mk 1 500] [] [].

Definition start : State := mkState tables None 1 0 None None 0 [].

Definition no_faults : nat -> option string := fun _ => None.

(** The store call number [n] throws, the others return. *)
Definition fault_at (n : nat) : nat -> option string :=
  fun k => if Nat.eqb k n then Some "ECONNRESET" else None.

(** The store calls whose numbers are listed throw, the others return. *)
Definition faults_at (l : list nat) : nat -> option string :=
  fun k => if existsb (Nat.eqb k) l then Some "ECONNRESET" else None.

(** Product 7 costs 1000; the client says 100. *)
Definition widget : Item.t :=
  Item.mk (Some 7) (Some 3) (Some "Widget") (Some 100) None.

Definition gadget : Item.t :=
  Item.mk (Some 1) (Some 2) (Some "Gadget") (Some 500) (Some "gadget.png").

(** No product has id 99. *)
Definition ghost : Item.t :=
  Item.mk (Some 99) (Some 2) (Some "Ghost") (Some 5) (Some "").

Definition zero_quantity : Item.t :=
  Item.mk (Some 1) (Some 0) (Some "Gadget") (Some 500) None.

Definition nameless : Item.t :=
  Item.mk (Some 1) (Some 2) None (Some 500) None.

(** An item whose [image_url] is the empty string. *)
Definition plain : Item.t :=
  Item.mk (Some 1) (Some 1) (Some "Plain") (Some 500) (Some "").

Definition order (l : list Item.t) : Request.t :=
  Request.mk (Some l) (Some "c1") (Some "Alice").

Definition anonymous : Request.t :=
  Request.mk (Some [widget]) (Some "   ") (Some "Alice").
End Sample.

(** ** The other endpoints

    [GET /api/orders], [GET /api/orders/history/:customerIdentifier],
    [PUT /api/orders/:id/complete] and the product endpoints call
    [pool.query]: one statement in autocommit, on whichever connection the
    pool picks.  It reads and writes the durable tables.  The log [trace]
    belongs to the order-creation handler and is left alone; the clock
    ticks, so that the fault plan covers these calls too.

    Three things are the store's and not in the source; each is a
    parameter of the model:
    - [newest_first], the effect of [ORDER BY created_at DESC] ([created_at]
      is not a column of the model);
    - [same_text], the collation under which [customer_identifier = ?] is
      decided;
    - [as_number], the conversion of a text parameter (an id taken from
      the URL) that is compared with a numeric column. *)

(** What a handler answers: [res.status(status).json(body)] with the body
    of the success shape, or with [{ message }]. *)
Inductive Reply (A : Type) :=
| Sent (status : Z) (body : A)
| Refused (status : Z) (message : string).
Arguments Sent {A} status body.
Arguments Refused {A} status message.

Definition reply_status {A} (r : Reply A) : Z :=
  match r with
  | Sent status _ => status
  | Refused status _ => status
  end.

Module Txt.
Local Open Scope string_scope.
Definition list_failed := "Gagal mengambil pesanan.".
Definition history_needs_identifier :=
  "Identitas konsumen (customerIdentifier) harus diberikan.".
Definition history_failed := "Gagal mengambil riwayat transaksi.".
Definition not_pending := "Pesanan tidak ditemukan atau sudah diproses.".
Definition order_completed (id : string) :=
  "Status pesanan " ++ id ++ " berhasil diupdate menjadi 'completed'.".
Definition complete_failed := "Gagal mengubah status pesanan.".
Definition name_and_price_required := "Nama dan harga produk wajib diisi.".
Definition price_must_be_positive := "Harga harus angka positif.".
Definition product_not_found := "Produk tidak ditemukan.".
Definition fetch_product_failed := "Gagal mengambil produk.".
Definition create_product_failed := "Gagal membuat produk.".
Definition product_updated := "Produk berhasil diupdate.".
Definition update_product_failed := "Gagal mengupdate produk.".
Definition product_deleted := "Produk berhasil dihapus.".
Definition delete_product_failed := "Gagal menghapus produk.".
End Txt.

Definition tick (s : State) : State :=
  mkState (durable s) (tx s) (auto_increment s) (leased s) (connection s)
          (response s) (S (clock s)) (trace s).

Definition set_durable (t : Tables) (s : State) : State :=
  mkState t (tx s) (auto_increment s) (leased s) (connection s)
          (response s) (clock s) (trace s).

(** The columns [product_id, quantity, price_at_order, product_name,
    image_url] of a row of [order_items]: the shape of the object the
    order-creation handler built for it. *)
Definition item_columns (r : OrderItem.t) : Reconciled.t :=
  Reconciled.mk (OrderItem.product_id r) (OrderItem.quantity r)
                (OrderItem.price_at_order r) (OrderItem.product_name r)
                (OrderItem.image_url r).

(** Rows of [SELECT ... FROM order_items oi WHERE oi.order_id = ?], in
    table order. *)
Definition select_items (t : Tables) (order_id : Z) : list Reconciled.t :=
  map item_columns
      (filter (fun r => OrderItem.order_id r =? order_id) (order_items t)).

(** A row of the history query: the columns [id, customer_name,
    total_price, status]. *)
Module Past.
Record t := mk {
  id : Z;
  customer_name : string;
  total_price : Z;
  status : OrderStatus }.
End Past.

Definition past_columns (o : Order.t) : Past.t :=
  Past.mk (Order.id o) (Order.customer_name o) (Order.total_price o)
          (Order.status o).

Definition is_completed (o : Order.t) : bool :=
  match Order.status o with
  | completed => true
  | pending => false
  end.

Definition is_pending (o : Order.t) : bool :=
  match Order.status o with
  | pending => true
  | completed => false
  end.

Definition set_completed (o : Order.t) : Order.t :=
  Order.mk (Order.id o) (Order.customer_identifier o) (Order.customer_name o)
           (Order.total_price o) completed.

(** [UPDATE orders SET status = 'completed' WHERE id = ? AND status =
    'pending']: the number of rows matched, and the tables after it. *)
Definition update_status (id : Z) (t : Tables) : nat * Tables :=
  (List.length
     (filter (fun o => (Order.id o =? id) && is_pending o) (orders t)),
   mkTables (products t)
     (map (fun o => if (Order.id o =? id) && is_pending o
                    then set_completed o else o)
          (orders t))
     (order_items t)).

Section Endpoints.

Variable faults : nat -> option string.
Variable newest_first : list Order.t -> list Order.t.
Variable same_text : string -> string -> bool.
Variable as_number : string -> Z.

(** [pool.query(sql, params)] *)
Definition pool_query {A} (statement : Tables -> A * Tables) : M A :=
  fun s =>
    match faults (clock s) with
    | Some msg => (Throw (StoreError msg), tick s)
    | None =>
        (Ok (fst (statement (durable s))),
         tick (set_durable (snd (statement (durable s))) s))
    end.

(** A statement that only reads. *)
Definition reading {A} (rows : Tables -> A) : Tables -> A * Tables :=
  fun t => (rows t, t).

(** [try { body } catch (error) { res.status(500).json({ message }) }] *)
Definition answer {A} (body : M (Reply A)) (message : string)
    : State -> Reply A * State :=
  fun s =>
    match body s with
    | (Ok r, s1) => (r, s1)
    | (Throw _, s1) => (Refused 500 message, s1)
    end.

(** Lines 266-273 and 324-338: [for (let order of orders)], one query per
    order; [order.items = items] is the pair. *)
Fixpoint attach_items {R} (id : R -> Z) (orders : list R)
    : M (list (R * list Reconciled.t)) :=
  match orders with
  | [] => ret []
  | order :: rest =>
      items <- pool_query (reading (fun t => select_items t (id order))) ;;
      others <- attach_items id rest ;;
      ret ((order, items) :: others)
  end.

(** Lines 260-279: [GET /api/orders]. *)
Definition list_orders : State -> Reply (list (Order.t * list Reconciled.t)) * State :=
  answer
    (orders <- pool_query (reading (fun t => newest_first (orders t))) ;;
     rows <- attach_items Order.id orders ;;
     ret (Sent 200 rows))
    Txt.list_failed.

(** The rows of the history query. *)
Definition select_history (customerIdentifier : string) (t : Tables)
    : list Past.t :=
  map past_columns
      (newest_first
         (filter (fun o => same_text (Order.customer_identifier o)
                             customerIdentifier
                           && is_completed o)
                 (orders t))).

(** Lines 308-346: [GET /api/orders/history/:customerIdentifier]. *)
Definition order_history (customerIdentifier : option string)
    : State -> Reply (list (Past.t * list Reconciled.t)) * State :=
  fun s =>
    if blank customerIdentifier
    then (Refused 400 Txt.history_needs_identifier, s)
    else
      answer
        (orders <- pool_query (reading (select_history (str customerIdentifier))) ;;
         rows <- attach_items Past.id orders ;;
         ret (Sent 200 rows))
        Txt.history_failed s.

(** Lines 284-304: [PUT /api/orders/:id/complete]. *)
Definition complete_order (id : string) : State -> Reply string * State :=
  answer
    (affectedRows <- pool_query (update_status (as_number id)) ;;
     if (affectedRows =? 0)%nat
     then ret (Refused 404 Txt.not_pending)
     else ret (Sent 200 (Txt.order_completed id)))
    Txt.complete_failed.

End Endpoints.

(** *** Products

    The product endpoints work on whole rows of [products]; the
    order-creation handler reads the columns [id] and [price] of the same
    table ([price_columns]).  Each endpoint issues one statement, so its
    fault plan is one optional error. *)

Module Catalog.
Record row := mk {
  id : Z;
  name : string;
  description : option string;
  price : Z;
  image_url : option string;
  category : option string }.
End Catalog.

(** [req.body] of [POST] and [PUT /api/products]. *)
Module ProductInput.
Record t := mk {
  name : option string;
  description : option string;
  price : option Z;
  image_url : option string;
  category : option string }.
End ProductInput.

(** The body of a successful [PUT]: the id as it stood in the URL, the
    fields sent, and a message. *)
Module Updated.
Record t := mk {
  id : string;
  name : string;
  description : option string;
  price : Z;
  image_url : option string;
  category : option string;
  message : string }.
End Updated.

(** The table of products and the counter of its ids. *)
Module Shelf.
Record t := mk { rows : list Catalog.row; next_id : Z }.
End Shelf.

Definition price_columns (r : Catalog.row) : Product.t :=
  Product.mk (Catalog.id r) (Catalog.price r).

(** The tables of the order handler hold the shelf's products. *)
Definition stocked (c : Shelf.t) (s : State) : Prop :=
  products (durable s) = map price_columns (Shelf.rows c).

(** [isNaN(price)], [parseFloat(price)] for a price that arrived as a JSON
    number. *)
Definition isNaN (v : option Z) : bool :=
  match v with
  | Some _ => false
  | None => true
  end.

Definition parseFloat (v : option Z) : Z := num v.

(** [pool.query] on the products table. *)
Definition shelf_query {A} (fault : option string)
    (statement : Shelf.t -> A * Shelf.t) (c : Shelf.t) : Result A * Shelf.t :=
  match fault with
  | Some msg => (Throw (StoreError msg), c)
  | None => (Ok (fst (statement c)), snd (statement c))
  end.

(** [SELECT * FROM products WHERE id = ?] *)
Definition select_product (id : Z) (c : Shelf.t) : list Catalog.row :=
  filter (fun r => Catalog.id r =? id) (Shelf.rows c).

(** [INSERT INTO products (name, description, price, image_url, category)
    VALUES (?, ?, ?, ?, ?)]: the result is [insertId]. *)
Definition insert_product (name : string) (description : option string)
    (price : Z) (image_url category : option string) (c : Shelf.t)
    : Z * Shelf.t :=
  (Shelf.next_id c,
   Shelf.mk (Shelf.rows c
             ++ [Catalog.mk (Shelf.next_id c) name description price
                   image_url category])
            (Shelf.next_id c + 1)).

(** [UPDATE products SET name = ?, ... WHERE id = ?]: the result is
    [affectedRows], the number of rows matched. *)
Definition update_product_row (id : Z) (name : string)
    (description : option string) (price : Z)
    (image_url category : option string) (c : Shelf.t) : nat * Shelf.t :=
  (List.length (select_product id c),
   Shelf.mk (map (fun r => if Catalog.id r =? id
                           then Catalog.mk (Catalog.id r) name description
                                  price image_url category
                           else r)
                 (Shelf.rows c))
            (Shelf.next_id c)).

(** [DELETE FROM products WHERE id = ?] *)
Definition delete_product_row (id : Z) (c : Shelf.t) : nat * Shelf.t :=
  (List.length (select_product id c),
   Shelf.mk (filter (fun r => negb (Catalog.id r =? id)) (Shelf.rows c))
            (Shelf.next_id c)).

Section Products.

Variable as_number : string -> Z.

(** Lines 58-71: [GET /api/products/:id]. *)
Definition get_product (fault : option string) (id : string) (c : Shelf.t)
    : Reply Catalog.row * Shelf.t :=
  match shelf_query fault (fun c => (select_product (as_number id) c, c)) c with
  | (Ok rows, c') =>
      match rows with
      | [] => (Refused 404 Txt.product_not_found, c')
      | row :: _ => (Sent 200 row, c')
      end
  | (Throw _, c') => (Refused 500 Txt.fetch_product_failed, c')
  end.

(** Lines 75-104: [POST /api/products]. *)
Definition create_product (fault : option string) (body : ProductInput.t)
    (c : Shelf.t) : Reply Catalog.row * Shelf.t :=
  if negb (truthy_str (ProductInput.name body))
     || negb (truthy_num (ProductInput.price body))
  then (Refused 400 Txt.name_and_price_required, c)
  else if isNaN (ProductInput.price body)
          || (parseFloat (ProductInput.price body) <=? 0)
  then (Refused 400 Txt.price_must_be_positive, c)
  else
    match shelf_query fault
            (insert_product (str (ProductInput.name body))
               (ProductInput.description body)
               (parseFloat (ProductInput.price body))
               (ProductInput.image_url body) (ProductInput.category body)) c
    with
    | (Ok insertId, c') =>
        (Sent 201
           (Catalog.mk insertId (str (ProductInput.name body))
              (ProductInput.description body)
              (parseFloat (ProductInput.price body))
              (ProductInput.image_url body) (ProductInput.category body)),
         c')
    | (Throw _, c') => (Refused 500 Txt.create_product_failed, c')
    end.

(** Lines 108-142: [PUT /api/products/:id]. *)
Definition update_product (fault : option string) (id : string)
    (body : ProductInput.t) (c : Shelf.t) : Reply Updated.t * Shelf.t :=
  if negb (truthy_str (ProductInput.name body))
     || negb (truthy_num (ProductInput.price body))
  then (Refused 400 Txt.name_and_price_required, c)
  else if isNaN (ProductInput.price body)
          || (parseFloat (ProductInput.price body) <=? 0)
  then (Refused 400 Txt.price_must_be_positive, c)
  else
    match shelf_query fault
            (update_product_row (as_number id) (str (ProductInput.name body))
               (ProductInput.description body)
               (parseFloat (ProductInput.price body))
               (ProductInput.image_url body) (ProductInput.category body)) c
    with
    | (Ok affectedRows, c') =>
        if (affectedRows =? 0)%nat
        then (Refused 404 Txt.product_not_found, c')
        else
          (Sent 200
             (Updated.mk id (str (ProductInput.name body))
                (ProductInput.description body)
                (parseFloat (ProductInput.price body))
                (ProductInput.image_url body) (ProductInput.category body)
                Txt.product_updated),
           c')
    | (Throw _, c') => (Refused 500 Txt.update_product_failed, c')
    end.

(** Lines 146-159: [DELETE /api/products/:id]. *)
Definition delete_product (fault : option string) (id : string) (c : Shelf.t)
    : Reply string * Shelf.t :=
  match shelf_query fault (delete_product_row (as_number id)) c with
  | (Ok affectedRows, c') =>
      if (affectedRows =? 0)%nat
      then (Refused 404 Txt.product_not_found, c')
      else (Sent 200 Txt.product_deleted, c')
  | (Throw _, c') => (Refused 500 Txt.delete_product_failed, c')
  end.

End Products.

(** The ids in use are below the counter: what the store's
    auto-increment guarantees. *)
Definition fresh_ids (c : Shelf.t) : Prop :=
  Forall (fun r => Catalog.id r < Shelf.next_id c) (Shelf.rows c).

Definition fresh_order_id (s : State) : Prop :=
  Forall (fun o => Order.id o < auto_increment s) (orders (durable s))
  /\ Forall (fun r => OrderItem.order_id r < auto_increment s)
            (order_items (durable s)).

Definition prices_positive (l : list Catalog.row) : Prop :=
  Forall (fun r => 0 < Catalog.price r) l.

(** A product body with a name and a positive price. *)
Definition well_formed_product (body : ProductInput.t) : Prop :=
  truthy_str (ProductInput.name body) = true
  /\ 0 < num (ProductInput.price body).

(** The row a body describes, under a given id. *)
Definition product_row (id : Z) (body : ProductInput.t) : Catalog.row :=
  Catalog.mk id (str (ProductInput.name body)) (ProductInput.description body)
             (num (ProductInput.price body)) (ProductInput.image_url body)
             (ProductInput.category body).

(** More of the small shop. *)
Module Demo.
Local Open Scope string_scope.

(** Ids arrive as decimal text. *)
Definition as_number (s : string) : Z :=
  match NilZero.int_of_string s with
  | Some d => Z.of_int d
  | None => 0
  end.

(** Rows are kept in the order they were inserted. *)
Definition newest_first (l : list Order.t) : list Order.t := rev l.

Definition same_text : string -> string -> bool := String.eqb.

Definition shelf : Shelf.t :=
  Shelf.mk [Catalog.mk 1 "Gadget" None 500 None None;
            Catalog.mk 7 "Widget" (Some "A widget") 1000 None (Some "tools")]
           8.

Definition lamp : ProductInput.t :=
  ProductInput.mk (Some "Lamp") None (Some 250) (Some "lamp.png") None.

Definition free_lamp : ProductInput.t :=
  ProductInput.mk (Some "Lamp") None (Some 0) None None.

(** A store with no orders yet that holds the products of a shelf. *)
Definition restocked (c : Shelf.t) : State :=
  mkState (mkTables (map price_columns (Shelf.rows c)) [] [])
          None 1 0 None None 0 [].

(** An order of customer c1 that is still pending, with one row. *)
Definition waiting : State :=
  mkState
    (mkTables [Product.mk 7 1000; Product.mk 1 500]
       [Order.mk 1 "c1" "Alice" 2000 pending;
        Order.mk 2 "c2" "Bob" 500 completed]
       [OrderItem.mk 1 7 2 1000 "Widget" None;
        OrderItem.mk 2 1 1 500 "Gadget" None])
    None 3 0 None None 0 [].
End Demo.

(** ** Tactics *)

(** Flatten appends and maps of event lists. *)
Ltac list_normal :=
  unfold select_ops, insert_ops;
  repeat (progress cbn [map app] || rewrite map_app || rewrite <- app_assoc).

(** Evaluate the state transformers, and nothing else. *)
Ltac run_state :=
  cbn
    [durable tx auto_increment leased connection response clock trace view
     advance note write start_tx commit_tx rollback_tx lease give_back bump
     set_connection set_response enter then_sent then_released acquired
     begun looked_up header_in rows_in committed].

Ltac run_state_in H :=
  cbn
    [durable tx auto_increment leased connection response clock trace view
     advance note write start_tx commit_tx rollback_tx lease give_back bump
     set_connection set_response enter then_sent then_released acquired
     begun looked_up header_in rows_in committed] in H.

(** ** Algebra of the state transformers *)

Lemma advance_nil s : advance [] s = s.
Proof.
  destruct s; unfold advance; cbn.
  now rewrite Nat.add_0_r, app_nil_r.
Qed.

Lemma advance_app a b s : advance (a ++ b) s = advance b (advance a s).
Proof.
  unfold advance; cbn.
  now rewrite length_app, Nat.add_assoc, app_assoc.
Qed.

Lemma advance_cons e l s : advance (e :: l) s = advance l (advance [e] s).
Proof. exact (advance_app [e] l s). Qed.

Lemma write_advance f evs s : write f (advance evs s) = advance evs (write f s).
Proof. unfold write, advance; cbn. now destruct (tx s). Qed.

Lemma write_write f g s : write f (write g s) = write (fun t => f (g t)) s.
Proof. unfold write. now destruct (tx s). Qed.

Lemma add_order_items_nil t : add_order_items [] t = t.
Proof. destruct t; unfold add_order_items; cbn. now rewrite app_nil_r. Qed.

Lemma add_order_items_cons r rows t :
  add_order_items rows (add_order_item r t) = add_order_items (r :: rows) t.
Proof.
  unfold add_order_item, add_order_items; cbn. now rewrite <- app_assoc.
Qed.

Lemma write_id s : write (add_order_items []) s = s.
Proof.
  unfold write. destruct s as [d [t|] a l c r k tr]; cbn;
    now rewrite add_order_items_nil.
Qed.

Lemma write_ext f g s : (forall t, f t = g t) -> write f s = write g s.
Proof. intros E. unfold write. destruct (tx s); now rewrite E. Qed.

(** ** Arithmetic of doubles *)


Lemma double_positive z : 0 < z -> 0 < double z.
Proof.
  intros Hz. unfold double.
  destruct (Z.ltb_spec (Z.abs z) (2 ^ 53)) as [_ | Hbig]; [exact Hz|].
  rewrite (Z.abs_eq z) in * by lia.
  rewrite (Z.sgn_pos z Hz), Z.mul_1_l.
  assert (H53 : 0 < 2 ^ 53) by reflexivity.
  assert (Hl : 53 <= Z.log2 z) by (apply Z.log2_le_pow2; lia).
  assert (Hu : 0 < 2 ^ (Z.log2 z - 52)) by (apply Z.pow_pos_nonneg; lia).
  assert (Hle : 2 ^ (Z.log2 z - 52) <= z).
  { transitivity (2 ^ Z.log2 z).
    - apply Z.pow_le_mono_r; lia.
    - apply Z.log2_spec. exact Hz. }
  assert (Hq : 0 < z / 2 ^ (Z.log2 z - 52)) by (apply Z.div_str_pos; lia).
  apply Z.mul_pos_pos; [exact Hu|].
  destruct ((2 * (z mod 2 ^ (Z.log2 z - 52)) <? 2 ^ (Z.log2 z - 52))
            || ((2 * (z mod 2 ^ (Z.log2 z - 52)) =? 2 ^ (Z.log2 z - 52))
                && Z.even (z / 2 ^ (Z.log2 z - 52)))); lia.
Qed.




Lemma fold_left_ext_in {A B} (f g : A -> B -> A) l : forall a,
  (forall x, In x l -> forall acc, f acc x = g acc x) ->
  fold_left f l a = fold_left g l a.
Proof.
  induction l as [|x l IH]; intros a H; cbn; [reflexivity|].
  rewrite (H x (or_introl eq_refl)). apply IH.
  intros y Hy. apply H. now right.
Qed.

Lemma fold_positive {A} (f : A -> Z) l : forall total,
  0 < total ->
  Forall (fun a => 0 < f a) l ->
  0 < fold_left (fun acc a => js_add acc (f a)) l total.
Proof.
  induction l as [|a l IH]; intros total Ht H; cbn; [exact Ht|].
  inversion H as [|? ? Ha Hl]; subst.
  apply IH; [|exact Hl]. apply double_positive. lia.
Qed.

(** The first row of the price query is the price of the first product
    with that id. *)
Lemma select_price_find t id :
  select_price t id <> [] ->
  authoritative_price t id = Some (nth 0 (select_price t id) 0).
Proof.
  unfold select_price, authoritative_price.
  induction (products t) as [|p l IH]; cbn; [congruence|].
  destruct (Product.id p =? id); cbn; auto.
Qed.

(** ** The two loops *)

Section Runs.

Variable faults : nat -> option string.

Lemma issue_cases op s :
  issue faults op s = (Ok tt, advance [ok op] s) \/
  exists m, faults (clock s) = Some m /\
            issue faults op s = (Throw (StoreError m), advance [ko op] s).
Proof.
  unfold issue. destruct (faults (clock s)) as [m|]; eauto.
Qed.

Lemma issue_sound op s :
  faults (clock s) = None -> issue faults op s = (Ok tt, advance [ok op] s).
Proof. unfold issue. now intros ->. Qed.

Lemma reconcile_cases items : forall total acc s,
  (Forall (reconcilable (view s)) items /\
   reconcile faults items total acc s =
     (Ok (total_from (view s) total items,
          acc ++ map (reconciled_in (view s)) items),
      advance (map ok (select_ops items)) s))
  \/
  (exists done bad rest e tail,
     items = done ++ bad :: rest /\
     Forall (reconcilable (view s)) done /\
     reconcile_stop faults (view s) bad e tail /\
     reconcile faults items total acc s =
       (Throw e, advance (map ok (select_ops done) ++ tail) s)).
Proof.
  induction items as [|item items IH]; intros total acc s.
  - left. split; [constructor|]. cbn.
    unfold ret. now rewrite app_nil_r, advance_nil.
  - cbn [reconcile].
    destruct (item_invalid item) eqn:Ev.
    { right. exists [], item, items, InvalidItemDetail, [].
      split; [reflexivity|]. split; [constructor|].
      split; [now apply stop_invalid|].
      unfold throw; cbn. now rewrite advance_nil. }
    unfold query_select_price, bind.
    destruct (issue_cases (SelectPrice (num (Item.product_id item))) s)
      as [E | [m [Hm E]]]; rewrite E.
    2:{ right. exists [], item, items, (StoreError m),
          [ko (SelectPrice (num (Item.product_id item)))].
        split; [reflexivity|]. split; [constructor|].
        split; [|reflexivity].
        apply stop_fault; [now exists (clock s) | assumption]. }
    unfold gets.
    change (view (advance [ok (SelectPrice (num (Item.product_id item)))] s))
      with (view s).
    destruct (select_price (view s) (num (Item.product_id item))) as [|p rows] eqn:Er.
    { right. exists [], item, items,
        (ProductNotFound (num (Item.product_id item))),
        [ok (SelectPrice (num (Item.product_id item)))].
      split; [reflexivity|]. split; [constructor|].
      split; [now apply stop_missing | reflexivity]. }
    cbn [List.length Nat.eqb nth].
    assert (Hit : reconcilable (view s) item).
    { split; [assumption | rewrite Er; discriminate]. }
    assert (Hp : actual_price (view s) item = p).
    { unfold actual_price. now rewrite Er. }
    destruct (IH (js_add total (js_mul p (num (Item.quantity item))))
                (acc ++ [reconciled p item])
                (advance [ok (SelectPrice (num (Item.product_id item)))] s))
      as [[Hall E'] | (done & bad & rest & e & tail & Hsplit & Hdone & Hstop & E')];
      change (view (advance [ok (SelectPrice (num (Item.product_id item)))] s))
        with (view s) in *.
    + left. split; [now constructor|].
      rewrite E'. f_equal.
      * f_equal. f_equal.
        { cbn [total_from fold_left]. unfold item_total. now rewrite Hp. }
        { cbn [map].
          replace (reconciled_in (view s) item) with (reconciled p item)
            by (unfold reconciled_in; now rewrite Hp).
          now rewrite <- app_assoc. }
      * cbn [select_ops map]. now rewrite <- advance_cons.
    + right. exists (item :: done), bad, rest, e, tail.
      split; [now rewrite Hsplit|]. split; [now constructor|].
      split; [assumption|].
      rewrite E'. f_equal.
      cbn [select_ops map app]. now rewrite <- advance_cons.
Qed.

Lemma insert_items_cases order_id l : forall s,
  insert_items faults order_id l s =
    (Ok tt,
     advance (map ok (insert_ops order_id l))
       (write (add_order_items (map (order_item_row order_id) l)) s))
  \/
  (exists done bad rest m,
     faulty faults m /\
     l = done ++ bad :: rest /\
     insert_items faults order_id l s =
       (Throw (StoreError m),
        advance (map ok (insert_ops order_id done)
                 ++ [ko (InsertOrderItem (order_item_row order_id bad))])
          (write (add_order_items (map (order_item_row order_id) done)) s))).
Proof.
  induction l as [|item l IH]; intros s.
  - left. cbn. unfold ret. now rewrite write_id, advance_nil.
  - cbn [insert_items].
    unfold query_insert_order_item, bind.
    destruct (issue_cases (InsertOrderItem (order_item_row order_id item)) s)
      as [E | [m [Hm E]]]; rewrite E.
    2:{ right. exists [], item, l, m.
        split; [now exists (clock s)|]. split; [reflexivity|].
        cbn. now rewrite write_id. }
    unfold modify.
    destruct (IH (write (add_order_item (order_item_row order_id item))
                   (advance [ok (InsertOrderItem (order_item_row order_id item))] s)))
      as [E' | (done & bad & rest & m & Hm & Hsplit & E')]; rewrite E'.
    + left. f_equal.
      rewrite write_write, write_advance, <- advance_cons.
      f_equal. apply write_ext. intros t. apply add_order_items_cons.
    + right. exists (item :: done), bad, rest, m.
      split; [assumption|]. split; [now rewrite Hsplit|]. f_equal.
      rewrite write_write, write_advance.
      cbn [insert_ops map app]. rewrite <- advance_cons.
      f_equal. apply write_ext. intros t. apply add_order_items_cons.
Qed.

(** ** Runs of the [try] block and of the handler *)

Lemma try_block_cases req s :
  (exists m,
     faulty faults m /\
     try_block faults req s =
       (Throw (StoreError m), advance [ko GetConnection] s))
  \/ (exists e s1,
        Aborted faults req s e s1 /\ try_block faults req s = (Throw e, s1))
  \/ (Forall (reconcilable (view s)) (items_of req) /\
      try_block faults req s = (Ok tt, committed req s)).
Proof.
  unfold try_block, getConnection, beginTransaction, query_insert_order,
    commit, res_json, bind, modify, gets, ret.
  fold (items_of req).
  destruct (issue_cases GetConnection s) as [E | [m [Hm E]]]; rewrite E.
  2:{ left. exists m. split; [now exists (clock s) | reflexivity]. }
  right. fold (acquired s).
  destruct (issue_cases BeginTransaction (acquired s))
    as [E1 | [m [Hm E1]]]; rewrite E1.
  2:{ left. exists (StoreError m), (advance [ko BeginTransaction] (acquired s)).
      split; [|reflexivity].
      constructor. now exists (clock (acquired s)). }
  fold (begun s).
  destruct (reconcile_cases (items_of req) 0 [] (begun s))
    as [[Hall E2] | (done & bad & rest & e & tail & Hsplit & Hdone & Hstop & E2)];
    change (view (begun s)) with (view s) in *; rewrite E2.
  2:{ left. eexists _, _. split; [|reflexivity].
      now apply abort_item with (bad := bad) (rest := rest). }
  cbn [fst snd app]. fold (total_in (view s) (items_of req)).
  fold (looked_up req s). fold (header_op (view s) req).
  destruct (issue_cases (header_op (view s) req) (looked_up req s))
    as [E3 | [m [Hm E3]]]; rewrite E3.
  2:{ left. eexists _, _. split; [|reflexivity].
      apply abort_header; [now exists (clock (looked_up req s)) | assumption]. }
  change (auto_increment (advance [ok (header_op (view s) req)] (looked_up req s)))
    with (auto_increment s).
  fold (header_row (view s) (auto_increment s) req).
  fold (header_in req s).
  destruct (insert_items_cases (auto_increment s)
              (map (reconciled_in (view s)) (items_of req)) (header_in req s))
    as [E4 | (done & bad & rest & m & Hm & Hsplit & E4)]; rewrite E4.
  2:{ left. exists (StoreError m),
        (advance [ko (InsertOrderItem (order_item_row (auto_increment s) bad))]
           (rows_in done s (header_in req s))).
      split; [now apply abort_row with (rest := rest)|].
      unfold rows_in. now rewrite advance_app. }
  fold (rows_in (map (reconciled_in (view s)) (items_of req)) s (header_in req s)).
  destruct (issue_cases Commit
              (rows_in (map (reconciled_in (view s)) (items_of req)) s
                 (header_in req s)))
    as [E5 | [m [Hm E5]]]; rewrite E5.
  2:{ left. eexists _, _. split; [|reflexivity].
      apply abort_commit; [|assumption].
      now exists (clock (rows_in (map (reconciled_in (view s)) (items_of req)) s
                          (header_in req s))). }
  right. split; [assumption | reflexivity].
Qed.

Lemma aborted_connection {req s e s1} :
  Aborted faults req s e s1 -> connection s1 = Some PoolConnection.
Proof. intros A. destruct A; reflexivity. Qed.

Lemma try_catch_finally_ok body handler final s s1 :
  body s = (Ok tt, s1) ->
  try_catch_finally body handler final s = final s1.
Proof. unfold try_catch_finally. now intros ->. Qed.

Lemma try_catch_finally_caught body handler final s e s1 s2 :
  body s = (Throw e, s1) ->
  handler e s1 = (Ok tt, s2) ->
  try_catch_finally body handler final s = final s2.
Proof. unfold try_catch_finally. now intros -> ->. Qed.

Lemma try_catch_finally_escaped body handler final s e s1 e' s2 s3 :
  body s = (Throw e, s1) ->
  handler e s1 = (Throw e', s2) ->
  final s2 = (Ok tt, s3) ->
  try_catch_finally body handler final s = (Throw e', s3).
Proof. unfold try_catch_finally. now intros -> -> ->. Qed.

Lemma finally_block_connected s c :
  connection s = Some c -> finally_block s = (Ok tt, then_released s).
Proof. unfold finally_block, release, bind, gets, modify. now intros ->. Qed.

Lemma finally_block_unconnected s :
  connection s = None -> finally_block s = (Ok tt, s).
Proof. unfold finally_block, bind, gets, ret. now intros ->. Qed.

Lemma catch_block_unconnected e s :
  connection s = None ->
  catch_block faults e s = (Ok tt, then_sent 500 (failure_body e) s).
Proof.
  unfold catch_block, res_json, bind, gets, modify, ret. now intros ->.
Qed.

Lemma catch_block_connected e s c :
  connection s = Some c ->
  (catch_block faults e s =
     (Ok tt, then_sent 500 (failure_body e)
               (rollback_tx (advance [ok Rollback] s))))
  \/ (exists m, faulty faults m /\
        catch_block faults e s =
          (Throw (StoreError m), advance [ko Rollback] s)).
Proof.
  intros Hc.
  unfold catch_block, rollback, res_json, bind, gets, modify.
  rewrite Hc.
  destruct (issue_cases Rollback s) as [E | [m [Hm E]]]; rewrite E.
  - now left.
  - right. exists m. split; [now exists (clock s) | reflexivity].
Qed.

Lemma create_order_rejected req s m :
  header_error req = Some m ->
  create_order faults req s = (Ok tt, then_sent 400 (Message m) (enter s)).
Proof.
  unfold header_error, create_order, bind, modify, res_json.
  destruct (no_items req); [now intros [= <-]|].
  destruct (blank (Request.customerIdentifier req)); [now intros [= <-]|].
  destruct (blank (Request.customerName req)); [now intros [= <-]|].
  discriminate.
Qed.

Lemma create_order_tried req s :
  header_error req = None ->
  create_order faults req s =
    try_catch_finally (try_block faults req) (catch_block faults)
      finally_block (enter s).
Proof.
  unfold header_error, create_order, bind, modify.
  destruct (no_items req); [discriminate|].
  destruct (blank (Request.customerIdentifier req)); [discriminate|].
  destruct (blank (Request.customerName req)); [discriminate|].
  reflexivity.
Qed.

Lemma committed_connection req s :
  connection (committed req s) = Some PoolConnection.
Proof. reflexivity. Qed.

Lemma create_order_handled req s :
  Handled faults req s (fst (create_order faults req s))
                (snd (create_order faults req s)).
Proof.
  destruct (header_error req) as [m|] eqn:Hh.
  { rewrite (create_order_rejected _ s _ Hh). cbn [fst snd].
    apply handled_rejected; assumption. }
  rewrite (create_order_tried _ s Hh).
  destruct (try_block_cases req (enter s))
    as [(m & Hm & E) | [(e & s1 & A & E) | (Hall & E)]].
  - rewrite (try_catch_finally_caught _ _ _ _ _ _ _ E
               (catch_block_unconnected (StoreError m)
                  (advance [ko GetConnection] (enter s)) eq_refl)).
    rewrite finally_block_unconnected by reflexivity.
    cbn [fst snd]. apply handled_no_connection; assumption.
  - destruct (catch_block_connected e s1 _ (aborted_connection A))
      as [Ec | (m & Hm & Ec)].
    + rewrite (try_catch_finally_caught _ _ _ _ _ _ _ E Ec).
      rewrite (finally_block_connected _ PoolConnection)
        by exact (aborted_connection A).
      cbn [fst snd]. apply handled_rolled_back; assumption.
    + rewrite (try_catch_finally_escaped _ _ finally_block _ _ _ _ _ _ E Ec
                 (finally_block_connected (advance [ko Rollback] s1)
                    PoolConnection (aborted_connection A))).
      cbn [fst snd].
      apply handled_rollback_failed with (e := e); assumption.
  - rewrite (try_catch_finally_ok _ _ _ _ _ E).
    rewrite (finally_block_connected _ PoolConnection)
      by apply committed_connection.
    cbn [fst snd]. apply handled_created; assumption.
Qed.

(** ** What a run leaves behind *)

Lemma trace_begun s :
  trace (begun s) = trace s ++ map ok [GetConnection; BeginTransaction].
Proof.
  run_state. now rewrite <- app_assoc.
Qed.

Lemma trace_looked_up req s :
  trace (looked_up req s) =
    trace s ++ map ok ([GetConnection; BeginTransaction] ++ select_ops (items_of req)).
Proof.
  run_state. list_normal. reflexivity.
Qed.

Lemma trace_rows_in l req s :
  trace (rows_in l s (header_in req s)) =
    trace s ++ map ok ([GetConnection; BeginTransaction]
                       ++ select_ops (items_of req)
                       ++ [header_op (view s) req]
                       ++ insert_ops (auto_increment s) l).
Proof.
  run_state. list_normal. reflexivity.
Qed.

Lemma aborted_durable req s e s1 :
  Aborted faults req s e s1 -> idle s -> durable s1 = durable s.
Proof.
  unfold idle. intros A Hidle.
  assert (Hv : view s = durable s) by (unfold view; now rewrite Hidle).
  destruct A; [reflexivity | exact Hv ..].
Qed.

Lemma aborted_leased req s e s1 :
  Aborted faults req s e s1 -> leased s1 = S (leased s).
Proof. intros A. destruct A; reflexivity. Qed.

Lemma aborted_response req s e s1 :
  Aborted faults req s e s1 -> response s1 = response s.
Proof. intros A. destruct A; reflexivity. Qed.

Lemma select_ops_in_transaction items :
  Forall (fun op => in_transaction op = true) (select_ops items).
Proof. unfold select_ops. induction items; cbn; constructor; auto. Qed.

Lemma insert_ops_in_transaction order_id l :
  Forall (fun op => in_transaction op = true) (insert_ops order_id l).
Proof. unfold insert_ops. induction l; cbn; constructor; auto. Qed.

(** The events of an aborted [try] block follow the script: the calls
    that returned, then at most one that threw. *)
Lemma aborted_shape req s e s1 :
  Aborted faults req s e s1 ->
  exists ops failed rest,
    trace s1 = trace s ++ map ok (GetConnection :: ops) ++ map ko failed /\
    script (view s) (auto_increment s) req
      = GetConnection :: ops ++ failed ++ rest /\
    (List.length failed <= 1)%nat /\
    Forall (fun op => in_transaction op = true) ops.
Proof.
  intros A. destruct A as [m Hm | done bad rest e tail Hsplit Hdone Hstop
                          | m Hm Hall | done bad rest m Hm Hall Hsplit | m Hm Hall].
  - exists [], [BeginTransaction], (tl (tl (script (view s) (auto_increment s) req))).
    split; [|split; [reflexivity | split; [cbn; lia | constructor]]].
    run_state. now rewrite <- app_assoc.
  - replace (trace (advance (map ok (select_ops done) ++ tail) (begun s)))
      with (trace (begun s) ++ map ok (select_ops done) ++ tail)
      by reflexivity.
    rewrite trace_begun. unfold script. rewrite Hsplit.
    destruct Hstop as [Hbad | m Hm Hbad | Hbad Hnone].
    + exists (BeginTransaction :: select_ops done), [].
      eexists. split; [|split; [|split]].
      * list_normal. rewrite ?app_nil_r. reflexivity.
      * list_normal. reflexivity.
      * cbn; lia.
      * constructor; [reflexivity | apply select_ops_in_transaction].
    + exists (BeginTransaction :: select_ops done),
             [SelectPrice (num (Item.product_id bad))].
      eexists. split; [|split; [|split]].
      * list_normal. reflexivity.
      * unfold select_ops. list_normal. reflexivity.
      * cbn; lia.
      * constructor; [reflexivity | apply select_ops_in_transaction].
    + exists (BeginTransaction :: select_ops (done ++ [bad])), [].
      eexists. split; [|split; [|split]].
      * list_normal. rewrite ?app_nil_r. reflexivity.
      * unfold select_ops. list_normal. reflexivity.
      * cbn; lia.
      * constructor; [reflexivity | apply select_ops_in_transaction].
  - exists (BeginTransaction :: select_ops (items_of req)),
           [header_op (view s) req].
    eexists. split; [|split; [|split]].
    + replace (trace (advance [ko (header_op (view s) req)] (looked_up req s)))
        with (trace (looked_up req s) ++ [ko (header_op (view s) req)])
        by reflexivity.
      rewrite trace_looked_up. list_normal. reflexivity.
    + unfold script, header_op. list_normal. reflexivity.
    + cbn; lia.
    + constructor; [reflexivity | apply select_ops_in_transaction].
  - exists (BeginTransaction :: select_ops (items_of req)
            ++ [header_op (view s) req] ++ insert_ops (auto_increment s) done),
           [InsertOrderItem (order_item_row (auto_increment s) bad)].
    eexists. split; [|split; [|split]].
    + replace (trace (advance [ko (InsertOrderItem (order_item_row (auto_increment s) bad))]
                       (rows_in done s (header_in req s))))
        with (trace (rows_in done s (header_in req s))
              ++ [ko (InsertOrderItem (order_item_row (auto_increment s) bad))])
        by reflexivity.
      rewrite trace_rows_in. list_normal. reflexivity.
    + unfold script, header_op. rewrite Hsplit.
      unfold insert_ops. list_normal. reflexivity.
    + cbn; lia.
    + constructor; [reflexivity|].
      apply Forall_app. split; [apply select_ops_in_transaction|].
      constructor; [reflexivity | apply insert_ops_in_transaction].
  - exists (BeginTransaction :: select_ops (items_of req)
            ++ [header_op (view s) req]
            ++ insert_ops (auto_increment s)
                 (map (reconciled_in (view s)) (items_of req))),
           [Commit], [].
    split; [|split; [|split]].
    + replace (trace (advance [ko Commit]
                (rows_in (map (reconciled_in (view s)) (items_of req)) s
                   (header_in req s))))
        with (trace (rows_in (map (reconciled_in (view s)) (items_of req)) s
                       (header_in req s)) ++ [ko Commit])
        by reflexivity.
      rewrite trace_rows_in. list_normal. reflexivity.
    + unfold script, header_op. list_normal. reflexivity.
    + cbn; lia.
    + constructor; [reflexivity|].
      apply Forall_app. split; [apply select_ops_in_transaction|].
      constructor; [reflexivity | apply insert_ops_in_transaction].
Qed.

End Runs.

(** ** Which fault a run reports *)

Section Faults.

Variable faults : nat -> option string.

Lemma issue_reports op : reports_last_fault faults (issue faults op).
Proof.
  intros s msg s1. unfold issue.
  destruct (faults (clock s)) as [m|] eqn:E; [|discriminate].
  intros [= <- <-]. exists (clock s). split; [|exact E].
  cbn. apply Nat.add_1_r.
Qed.

Lemma bind_reports {A B} (m : M A) (k : A -> M B) :
  reports_last_fault faults m ->
  (forall a, reports_last_fault faults (k a)) ->
  reports_last_fault faults (bind m k).
Proof.
  intros Hm Hk s msg s1. unfold bind.
  destruct (m s) as [[a|e] s0] eqn:E.
  - apply Hk.
  - intros [= -> <-]. exact (Hm _ _ _ E).
Qed.

Lemma ret_reports {A} (a : A) : reports_last_fault faults (ret a).
Proof. intros s msg s1. unfold ret. discriminate. Qed.

Lemma gets_reports {A} (f : State -> A) : reports_last_fault faults (gets f).
Proof. intros s msg s1. unfold gets. discriminate. Qed.

Lemma modify_reports f : reports_last_fault faults (modify f).
Proof. intros s msg s1. unfold modify. discriminate. Qed.

Lemma reconcile_reports items : forall total acc,
  reports_last_fault faults (reconcile faults items total acc).
Proof.
  induction items as [|item items IH]; intros total acc; cbn [reconcile].
  - apply ret_reports.
  - destruct (item_invalid item).
    { intros s msg s1. unfold throw. discriminate. }
    apply bind_reports.
    + unfold query_select_price.
      apply bind_reports; [apply issue_reports | intros _; apply gets_reports].
    + intros productRows.
      destruct (List.length productRows =? 0)%nat.
      * intros s msg s1. unfold throw. discriminate.
      * apply IH.
Qed.

Lemma insert_items_reports order_id l :
  reports_last_fault faults (insert_items faults order_id l).
Proof.
  induction l as [|item l IH]; cbn [insert_items].
  - apply ret_reports.
  - apply bind_reports; [|intros _; exact IH].
    unfold query_insert_order_item.
    apply bind_reports; [apply issue_reports | intros _; apply modify_reports].
Qed.

Lemma try_block_reports req : reports_last_fault faults (try_block faults req).
Proof.
  unfold try_block, getConnection, beginTransaction, query_insert_order,
    commit, res_json.
  repeat (first [ apply issue_reports | apply ret_reports | apply gets_reports
                | apply modify_reports | apply reconcile_reports
                | apply insert_items_reports
                | apply bind_reports; [|intros ?] ]).
Qed.

(** The log of an aborted [try] block: the calls that returned, then the
    one that threw, if the exception is the store's; the clock counts
    them. *)
Lemma aborted_log req s e s1 :
  Aborted faults req s e s1 ->
  exists ops failed,
    trace s1 = trace s ++ map ok ops ++ map ko failed
    /\ clock s1 = (clock s + List.length ops + List.length failed)%nat
    /\ ((failed = [] /\ forall m, e <> StoreError m)
        \/ exists op m, failed = [op] /\ op <> Rollback /\ e = StoreError m).
Proof.
  intros A.
  destruct A as [m Hm | done bad rest e tail Hsplit Hdone Hstop
                | m Hm Hall | done bad rest m Hm Hall Hsplit | m Hm Hall].
  - exists [GetConnection], [BeginTransaction].
    split; [run_state; now rewrite <- app_assoc|].
    split; [run_state; cbn; lia|].
    right. exists BeginTransaction, m. repeat split; discriminate.
  - destruct Hstop as [Hbad | m Hm Hbad | Hbad Hnone].
    + exists ([GetConnection; BeginTransaction] ++ select_ops done), [].
      split; [run_state; list_normal; rewrite ?app_nil_r; reflexivity|].
      split.
      { run_state. rewrite !length_app, !length_map. cbn. lia. }
      left. split; [reflexivity | discriminate].
    + exists ([GetConnection; BeginTransaction] ++ select_ops done),
             [SelectPrice (num (Item.product_id bad))].
      split; [run_state; list_normal; reflexivity|].
      split.
      { run_state. rewrite !length_app, !length_map. cbn. lia. }
      right. exists (SelectPrice (num (Item.product_id bad))), m.
      repeat split; discriminate.
    + exists ([GetConnection; BeginTransaction] ++ select_ops (done ++ [bad])), [].
      split; [run_state; list_normal; rewrite ?app_nil_r; reflexivity|].
      split.
      { run_state. unfold select_ops.
        rewrite !length_app, !length_map, ?length_app. cbn. lia. }
      left. split; [reflexivity | discriminate].
  - exists ([GetConnection; BeginTransaction] ++ select_ops (items_of req)),
           [header_op (view s) req].
    split; [run_state; list_normal; reflexivity|].
    split.
    { run_state. rewrite !length_app, !length_map. cbn. lia. }
    right. exists (header_op (view s) req), m. repeat split; discriminate.
  - exists ([GetConnection; BeginTransaction] ++ select_ops (items_of req)
            ++ [header_op (view s) req] ++ insert_ops (auto_increment s) done),
           [InsertOrderItem (order_item_row (auto_increment s) bad)].
    split; [run_state; list_normal; reflexivity|].
    split.
    { run_state. unfold select_ops, insert_ops.
      rewrite !length_app, !length_map, ?length_app, ?length_map. cbn. lia. }
    right. exists (InsertOrderItem (order_item_row (auto_increment s) bad)), m.
    repeat split; discriminate.
  - exists ([GetConnection; BeginTransaction] ++ select_ops (items_of req)
            ++ [header_op (view s) req]
            ++ insert_ops (auto_increment s)
                 (map (reconciled_in (view s)) (items_of req))),
           [Commit].
    split; [run_state; list_normal; reflexivity|].
    split.
    { run_state. unfold select_ops, insert_ops.
      rewrite !length_app, !length_map, ?length_app, ?length_map. cbn. lia. }
    right. exists Commit, m. repeat split; discriminate.
Qed.

End Faults.

(** Where a log that starts with calls that returned has its first call
    that threw. *)
Lemma first_thrown a : forall rest b op d,
  map ok a ++ rest = map ok b ++ ko op :: d ->
  exists a2, b = a ++ a2 /\ rest = map ok a2 ++ ko op :: d.
Proof.
  induction a as [|x a IH]; intros rest b op d H.
  - now exists b.
  - destruct b as [|y b]; cbn in H; [discriminate H|].
    injection H as <- H.
    destruct (IH _ _ _ _ H) as (a2 & -> & E). now exists a2.
Qed.

Lemma trimStart_empty s :
  trimStart s = EmptyString <-> all_white_space s = true.
Proof.
  induction s as [|c r IH]; cbn; [tauto|].
  destruct (is_white_space c); cbn; [exact IH|].
  split; discriminate.
Qed.

Lemma trimEnd_head c r :
  is_white_space c = false -> trimEnd (String c r) <> EmptyString.
Proof.
  intros Hc. cbn. destruct (trimEnd r); [rewrite Hc|]; discriminate.
Qed.

Lemma trimStart_head s c r :
  trimStart s = String c r -> is_white_space c = false.
Proof.
  induction s as [|a s IH]; cbn; [discriminate|].
  destruct (is_white_space a) eqn:Ea; [exact IH|].
  intros [= -> _]. exact Ea.
Qed.

Lemma trim_empty s : trim s = EmptyString <-> all_white_space s = true.
Proof.
  rewrite <- trimStart_empty. unfold trim.
  destruct (trimStart s) as [|c r] eqn:E; [cbn; tauto|].
  split; [|discriminate].
  intros H. exfalso. revert H. apply trimEnd_head.
  exact (trimStart_head _ _ _ E).
Qed.

Lemma blank_spec v : blank v = empty_or_white v.
Proof.
  unfold blank, empty_or_white.
  destruct v as [s|]; [|reflexivity].
  destruct s as [|c r]; [reflexivity|].
  cbn [truthy_str negb orb str].
  destruct (String.eqb (trim (String c r)) EmptyString) eqn:E.
  - apply String.eqb_eq in E. symmetry. now apply trim_empty.
  - apply String.eqb_neq in E.
    destruct (all_white_space (String c r)) eqn:Ew; [|reflexivity].
    exfalso. apply E. now apply trim_empty.
Qed.

Lemma no_items_spec req : no_items req = items_empty req.
Proof.
  unfold no_items, items_empty.
  destruct (Request.items req) as [[|i l]|]; reflexivity.
Qed.

(** The guards let through exactly the requests with an item and two
    customer fields that are not blank. *)
Lemma header_error_none req :
  header_error req = None <->
  items_empty req = false /\
  empty_or_white (Request.customerIdentifier req) = false /\
  empty_or_white (Request.customerName req) = false.
Proof.
  unfold header_error. rewrite no_items_spec, !blank_spec.
  destruct (items_empty req); [split; [discriminate | intros [? _]; discriminate]|].
  destruct (empty_or_white (Request.customerIdentifier req));
    [split; [discriminate | intros (_ & ? & _); discriminate]|].
  destruct (empty_or_white (Request.customerName req));
    [split; [discriminate | intros (_ & _ & ?); discriminate]|].
  tauto.
Qed.

Lemma product_exists_select t id :
  product_exists t id <-> select_price t id <> [].
Proof.
  unfold product_exists, select_price.
  induction (products t) as [|p l IH]; cbn; [tauto|].
  destruct (Z.eqb_spec (Product.id p) id) as [E|E]; cbn.
  - split; [discriminate | auto].
  - rewrite <- IH. tauto.
Qed.

Lemma actual_price_of t item :
  product_exists t (num (Item.product_id item)) ->
  authoritative_price t (num (Item.product_id item)) = Some (actual_price t item)
  /\ price_of t (num (Item.product_id item)) = actual_price t item.
Proof.
  intros H. apply product_exists_select in H.
  unfold price_of, actual_price.
  now rewrite (select_price_find _ _ H).
Qed.

Lemma reconcilable_spec t item :
  reconcilable t item <->
  item_invalid item = false /\ product_exists t (num (Item.product_id item)).
Proof. unfold reconcilable. now rewrite product_exists_select. Qed.

Lemma Forall2_map_right {A B} (P : A -> Prop) (R : A -> B -> Prop) (f : A -> B) l :
  (forall a, P a -> R a (f a)) -> Forall P l -> Forall2 R l (map f l).
Proof.
  intros HR H. induction H; cbn; constructor; auto.
Qed.

(** The first element of a list that fails [P] is unique. *)
Lemma first_failure_unique {A} (P : A -> Prop) d1 : forall d2 b1 b2 r1 r2,
  d1 ++ b1 :: r1 = d2 ++ b2 :: r2 ->
  Forall P d1 -> Forall P d2 -> ~ P b1 -> ~ P b2 ->
  d1 = d2 /\ b1 = b2 /\ r1 = r2.
Proof.
  induction d1 as [|x d1 IH]; intros [|y d2] b1 b2 r1 r2 E H1 H2 N1 N2;
    cbn in E; injection E as -> E.
  - now subst.
  - exfalso. apply N1. now inversion H2.
  - exfalso. apply N2. now inversion H1.
  - inversion H1; inversion H2; subst.
    destruct (IH d2 b1 b2 r1 r2) as (-> & -> & ->); auto.
Qed.

(** ** Facts about whole runs *)

Lemma handled_run faults req s r s' :
  create_order faults req s = (r, s') -> Handled faults req s r s'.
Proof.
  intros E. pose proof (create_order_handled faults req s) as H.
  rewrite E in H. exact H.
Qed.

Lemma trace_rejected code b s :
  trace (then_sent code b (enter s)) = trace s ++ [Responded (mkResponse code b)].
Proof. reflexivity. Qed.

Lemma trace_no_connection b s :
  trace (then_sent 500 b (advance [ko GetConnection] (enter s))) =
    trace s ++ [ko GetConnection; Responded (mkResponse 500 b)].
Proof.
  run_state. now rewrite <- app_assoc.
Qed.

Lemma trace_rolled_back b s1 :
  trace (then_released (then_sent 500 b (rollback_tx (advance [ok Rollback] s1)))) =
    trace s1 ++ [ok Rollback; Responded (mkResponse 500 b); ok Release].
Proof.
  run_state. now rewrite <- !app_assoc.
Qed.

Lemma trace_rollback_failed s1 :
  trace (then_released (advance [ko Rollback] s1)) =
    trace s1 ++ [ko Rollback; ok Release].
Proof.
  run_state. now rewrite <- app_assoc.
Qed.

Lemma trace_created req s :
  trace (then_released (committed req (enter s))) =
    trace s ++ map ok (script (view s) (auto_increment s) req)
    ++ [Responded (mkResponse 201 (created_body req s)); ok Release].
Proof.
  unfold script, header_op, created_body. run_state. list_normal. reflexivity.
Qed.

Lemma calls_are_not_responses b ops :
  Forall (fun e => is_response e = false) (map (fun op => Called op b) ops).
Proof. induction ops; cbn; constructor; auto. Qed.

Lemma script_never_closes t order_id req :
  Forall (fun op => forall b, is_closing (Called op b) = false)
         (script t order_id req).
Proof.
  unfold script, select_ops, insert_ops.
  repeat (apply Forall_app; split);
    try (apply Forall_forall; intros op Hin;
         apply in_map_iff in Hin; destruct Hin as (x & <- & _); reflexivity);
    repeat constructor.
Qed.

Lemma commit_in_script t order_id req : In Commit (script t order_id req).
Proof.
  unfold script. rewrite !in_app_iff. right. right. right. right. now left.
Qed.

Lemma never_closing_never_release b ops :
  Forall (fun op => forall b, is_closing (Called op b) = false) ops ->
  Forall (fun e => is_release e = false) (map (fun op => Called op b) ops).
Proof.
  intros H. induction H as [|op ops Hop _ IH]; cbn; constructor; auto.
  specialize (Hop b). destruct op; cbn in *; congruence.
Qed.

(** Why the [try] block threw. *)
Lemma aborted_cause faults req s e s1 :
  Aborted faults req s e s1 ->
  match e with
  | StoreError m => faulty faults m
  | InvalidItemDetail =>
      exists done bad rest,
        items_of req = done ++ bad :: rest /\
        Forall (reconcilable (view s)) done /\
        item_invalid bad = true /\
        trace s1 = trace s
          ++ map ok ([GetConnection; BeginTransaction] ++ select_ops done)
  | ProductNotFound id =>
      exists done bad rest,
        items_of req = done ++ bad :: rest /\
        Forall (reconcilable (view s)) done /\
        item_invalid bad = false /\
        id = num (Item.product_id bad) /\
        select_price (view s) id = [] /\
        trace s1 = trace s
          ++ map ok ([GetConnection; BeginTransaction]
                     ++ select_ops (done ++ [bad]))
  end.
Proof.
  intros A. destruct A as [m Hm | done bad rest e tail Hsplit Hdone Hstop
                          | m Hm Hall | done bad rest m Hm Hall Hsplit | m Hm Hall];
    try assumption.
  destruct Hstop as [Hbad | m Hm Hbad | Hbad Hnone]; [|assumption|].
  - exists done, bad, rest. repeat (split; [assumption|]).
    run_state. rewrite app_nil_r. list_normal. reflexivity.
  - exists done, bad, rest. repeat (split; [assumption || reflexivity|]).
    run_state. list_normal. reflexivity.
Qed.

(** ** The claims *)

(** C6.  A request with no items, or with a customerIdentifier or a
    customerName that is absent, empty or white space only, is answered
    400 with a message; no store call is issued (the clock and the log show
    none), no connection is taken, no transaction is opened and the tables
    are untouched. *)
Theorem header_failure_touches_no_store faults req s :
  items_empty req = true
  \/ empty_or_white (Request.customerIdentifier req) = true
  \/ empty_or_white (Request.customerName req) = true ->
  exists m,
    create_order faults req s = (Ok tt, then_sent 400 (Message m) (enter s))
    /\ response (snd (create_order faults req s))
         = Some (mkResponse 400 (Message m))
    /\ trace (snd (create_order faults req s))
         = trace s ++ [Responded (mkResponse 400 (Message m))]
    /\ clock (snd (create_order faults req s)) = clock s
    /\ connection (snd (create_order faults req s)) = None
    /\ leased (snd (create_order faults req s)) = leased s
    /\ tx (snd (create_order faults req s)) = tx s
    /\ durable (snd (create_order faults req s)) = durable s.
Proof.
  intros H.
  destruct (header_error req) as [m|] eqn:E.
  - exists m. rewrite (create_order_rejected faults req s m E).
    repeat split.
  - exfalso. apply header_error_none in E. destruct E as (E1 & E2 & E3).
    destruct H as [H | [H | H]]; congruence.
Qed.

Lemma header_failure_touches_no_store_witness :
  empty_or_white (Request.customerIdentifier Sample.anonymous) = true /\
  exists m,
    create_order Sample.no_faults Sample.anonymous Sample.start
      = (Ok tt, then_sent 400 (Message m) (enter Sample.start))
    /\ response (snd (create_order Sample.no_faults Sample.anonymous Sample.start))
         = Some (mkResponse 400 (Message m))
    /\ trace (snd (create_order Sample.no_faults Sample.anonymous Sample.start))
         = trace Sample.start ++ [Responded (mkResponse 400 (Message m))]
    /\ clock (snd (create_order Sample.no_faults Sample.anonymous Sample.start))
         = clock Sample.start
    /\ connection (snd (create_order Sample.no_faults Sample.anonymous Sample.start))
         = None
    /\ leased (snd (create_order Sample.no_faults Sample.anonymous Sample.start))
         = leased Sample.start
    /\ tx (snd (create_order Sample.no_faults Sample.anonymous Sample.start))
         = tx Sample.start
    /\ durable (snd (create_order Sample.no_faults Sample.anonymous Sample.start))
         = durable Sample.start.
Proof.
  split; [reflexivity|].
  apply (header_failure_touches_no_store Sample.no_faults Sample.anonymous
           Sample.start).
  right; left; reflexivity.
Defined.

Lemma calls_ok_not_ko ops op : ~ In (ko op) (map ok ops).
Proof.
  intros H. apply in_map_iff in H. destruct H as (x & E & _). discriminate E.
Qed.

Lemma calls_ko_not_ok ops op : ~ In (ok op) (map ko ops).
Proof.
  intros H. apply in_map_iff in H. destruct H as (x & E & _). discriminate E.
Qed.

Lemma rollback_not_in_transaction ops :
  Forall (fun op => in_transaction op = true) ops -> ~ In Rollback ops.
Proof.
  intros H Hin. rewrite Forall_forall in H. apply H in Hin. discriminate Hin.
Qed.

(** C2, as stated, fails when the rollback call itself throws.  The insert
    of the item row of a first request throws (call 4), then the rollback
    (call 5): no response is sent, nothing is rolled back, and the
    connection goes back to the pool with the transaction open, the order
    row in it.  The next request on that connection, itself rolled back
    for an unknown product, begins a transaction, which commits what was
    left open: the order row of the first request is persisted, without its
    item row. *)
Lemma failed_rollback_leaves_the_order_behind :
  let plan := Sample.faults_at [4%nat; 5%nat] in
  let s1 := snd (create_order plan (Sample.order [Sample.widget]) Sample.start) in
  let s2 := snd (create_order plan (Sample.order [Sample.ghost]) s1) in
  In (ok BeginTransaction) (trace s1)
  /\ ~ In (ok Commit) (trace s1)
  /\ trace s1
     = [ok GetConnection; ok BeginTransaction; ok (SelectPrice 7);
        ok (InsertOrder "c1" "Alice" 3000 completed);
        ko (InsertOrderItem (OrderItem.mk 1 7 3 1000 "Widget" None));
        ko Rollback; ok Release]
  /\ response s1 = None
  /\ durable s1 = durable Sample.start
  /\ tx s1
     = Some (mkTables (products Sample.tables)
               [Order.mk 1 "c1" "Alice" 3000 completed] [])
  /\ ~ In (ok Commit) (trace s2)
  /\ response s2
     = Some (mkResponse 500
               (Message
                  "Gagal membuat pesanan: Produk dengan ID 99 tidak ditemukan."))
  /\ orders (durable s2) = [Order.mk 1 "c1" "Alice" 3000 completed]
  /\ order_items (durable s2) = [].
Proof.
  cbv zeta.
  split; [right; left; reflexivity|].
  split.
  { vm_compute. intros H.
    repeat (destruct H as [H | H]; [discriminate H|]). exact H. }
  split; [reflexivity|]. split; [reflexivity|]. split; [reflexivity|].
  split; [reflexivity|].
  split.
  { vm_compute. intros H.
    repeat (destruct H as [H | H]; [discriminate H|]). exact H. }
  split; [reflexivity|]. split; reflexivity.
Qed.

(** C2, amended.  Take any run, whatever the fault plan, in which
    [beginTransaction] returned and [commit] did not return.  Then
    [rollback] was called, with no response sent before it.  When that
    call returned, the transaction is closed and the durable tables are
    what they were: no order row and no order item row of the request is
    persisted, and none is left to be persisted later; the answer is 500,
    sent right after the rollback and before the release, and it is the
    only response of the run.  When the call threw, no response is
    sent. *)
Theorem rollback_before_error_response faults req s r s' delta :
  idle s ->
  create_order faults req s = (r, s') ->
  trace s' = trace s ++ delta ->
  In (ok BeginTransaction) delta ->
  ~ In (ok Commit) delta ->
  (exists pre b post,
     delta = pre ++ Called Rollback b :: post /\
     Forall (fun e => is_response e = false) pre)
  /\ (In (ok Rollback) delta ->
      durable s' = durable s
      /\ tx s' = None
      /\ exists pre e,
           delta = pre ++ [ok Rollback;
                           Responded
                             (mkResponse 500 (Message (Msg.failed (message e))));
                           ok Release]
           /\ Forall (fun ev => is_response ev = false) pre
           /\ response s'
              = Some (mkResponse 500 (Message (Msg.failed (message e)))))
  /\ (~ In (ok Rollback) delta ->
      response s' = None /\ exists m, r = Throw (StoreError m)).
Proof.
  intros Hidle Erun Hdelta Hbegin Hcommit.
  apply handled_run in Erun.
  destruct Erun as [m Hh | m Hh Hm | e s1 Hh A | e s1 m Hh Hm A | Hh Hall].
  - rewrite trace_rejected in Hdelta. apply app_inv_head in Hdelta. subst delta.
    exfalso. destruct Hbegin as [H | []]. discriminate H.
  - rewrite trace_no_connection in Hdelta. apply app_inv_head in Hdelta.
    subst delta.
    exfalso. destruct Hbegin as [H | [H | []]]; discriminate H.
  - destruct (aborted_shape _ _ _ _ _ A) as (ops & failed & rest & Htr & _).
    rewrite trace_rolled_back, Htr in Hdelta.
    change (trace (enter s)) with (trace s) in Hdelta.
    rewrite <- !app_assoc in Hdelta. apply app_inv_head in Hdelta.
    subst delta.
    assert (Hpre : Forall (fun ev => is_response ev = false)
                          (map ok (GetConnection :: ops) ++ map ko failed)).
    { apply Forall_app. split; apply calls_are_not_responses. }
    split; [|split].
    + exists (map ok (GetConnection :: ops) ++ map ko failed), true,
        [Responded (mkResponse 500 (failure_body e)); ok Release].
      split; [now rewrite <- app_assoc | exact Hpre].
    + intros _. split; [|split].
      * run_state. exact (aborted_durable _ _ _ _ _ A Hidle).
      * reflexivity.
      * exists (map ok (GetConnection :: ops) ++ map ko failed), e.
        split; [now rewrite <- app_assoc|]. split; [exact Hpre | reflexivity].
    + intros Hno. exfalso. apply Hno.
      apply in_or_app. right. apply in_or_app. right. now left.
  - destruct (aborted_shape _ _ _ _ _ A)
      as (ops & failed & rest & Htr & _ & _ & Hops).
    rewrite trace_rollback_failed, Htr in Hdelta.
    change (trace (enter s)) with (trace s) in Hdelta.
    rewrite <- !app_assoc in Hdelta. apply app_inv_head in Hdelta.
    subst delta. split; [|split].
    + exists (map ok (GetConnection :: ops) ++ map ko failed), false,
        [ok Release].
      split; [now rewrite <- app_assoc|].
      apply Forall_app. split; apply calls_are_not_responses.
    + intros Hin. exfalso.
      apply in_app_or in Hin. destruct Hin as [Hin | Hin].
      * apply in_map_iff in Hin. destruct Hin as (op & E & Hin).
        injection E as ->. destruct Hin as [H | Hin]; [discriminate H|].
        exact (rollback_not_in_transaction ops Hops Hin).
      * apply in_app_or in Hin. destruct Hin as [Hin | Hin].
        { exact (calls_ko_not_ok _ _ Hin). }
        { destruct Hin as [H | [H | []]]; discriminate H. }
    + intros _. split.
      * run_state. exact (aborted_response _ _ _ _ _ A).
      * now exists m.
  - rewrite trace_created in Hdelta. apply app_inv_head in Hdelta. subst delta.
    exfalso. apply Hcommit. apply in_or_app. left.
    apply in_map. apply commit_in_script.
Qed.

Lemma rollback_before_error_response_witness :
  let s' := snd (create_order Sample.no_faults
                   (Sample.order [Sample.widget; Sample.ghost]) Sample.start) in
  (exists pre b post,
     trace s' = pre ++ Called Rollback b :: post /\
     Forall (fun e => is_response e = false) pre)
  /\ (durable s' = durable Sample.start
      /\ tx s' = None
      /\ exists pre e,
           trace s'
             = pre ++ [ok Rollback;
                       Responded
                         (mkResponse 500 (Message (Msg.failed (message e))));
                       ok Release]
           /\ Forall (fun ev => is_response ev = false) pre
           /\ response s'
              = Some (mkResponse 500 (Message (Msg.failed (message e))))).
Proof.
  destruct (rollback_before_error_response Sample.no_faults
              (Sample.order [Sample.widget; Sample.ghost]) Sample.start
              (fst (create_order Sample.no_faults
                      (Sample.order [Sample.widget; Sample.ghost]) Sample.start))
              (snd (create_order Sample.no_faults
                      (Sample.order [Sample.widget; Sample.ghost]) Sample.start))
              (trace (snd (create_order Sample.no_faults
                             (Sample.order [Sample.widget; Sample.ghost])
                             Sample.start))))
    as (H1 & H2 & _).
  - reflexivity.
  - apply surjective_pairing.
  - reflexivity.
  - vm_compute. right. left. reflexivity.
  - vm_compute. intros H.
    repeat (destruct H as [H | H]; [discriminate H|]). exact H.
  - split; [exact H1|]. apply H2.
    vm_compute. do 4 right. left. reflexivity.
Defined.

(** C7.  In every run in which [getConnection] returned, whatever happens
    afterwards, the log of the run ends with the release of the connection,
    that is the only release in it, a commit that returned or a rollback
    comes before it, and the pool has as many connections out as before
    the run. *)
Theorem connection_released_exactly_once faults req s r s' delta :
  create_order faults req s = (r, s') ->
  trace s' = trace s ++ delta ->
  In (ok GetConnection) delta ->
  leased s' = leased s
  /\ exists pre,
       delta = pre ++ [ok Release] /\
       Forall (fun e => is_release e = false) pre /\
       Exists (fun e => is_settle e = true) pre.
Proof.
  intros Erun Hdelta Hgot.
  apply handled_run in Erun.
  destruct Erun as [m Hh | m Hh Hm | e s1 Hh A | e s1 m Hh Hm A | Hh Hall].
  - rewrite trace_rejected in Hdelta. apply app_inv_head in Hdelta. subst delta.
    exfalso. destruct Hgot as [H | []]. discriminate H.
  - rewrite trace_no_connection in Hdelta. apply app_inv_head in Hdelta.
    subst delta.
    exfalso. destruct Hgot as [H | [H | []]]; discriminate H.
  - destruct (aborted_shape _ _ _ _ _ A)
      as (ops & failed & rest & Htr & Hscript & _ & Hops).
    rewrite trace_rolled_back, Htr in Hdelta.
    change (trace (enter s)) with (trace s) in Hdelta.
    rewrite <- !app_assoc in Hdelta. apply app_inv_head in Hdelta.
    subst delta. split.
    + run_state. now rewrite (aborted_leased _ _ _ _ _ A).
    + exists (map ok (GetConnection :: ops) ++ map ko failed
              ++ [ok Rollback; Responded (mkResponse 500 (failure_body e))]).
      split; [now rewrite <- !app_assoc|]. split.
      * pose proof (script_never_closes (view (enter s))
                      (auto_increment (enter s)) req) as Hs.
        rewrite Hscript, app_comm_cons in Hs.
        apply Forall_app in Hs. destruct Hs as [Hs1 Hs2].
        apply Forall_app in Hs2. destruct Hs2 as [Hs2 _].
        repeat (apply Forall_app; split).
        { now apply never_closing_never_release. }
        { now apply never_closing_never_release. }
        { repeat constructor. }
      * apply Exists_app. right. apply Exists_app. right.
        constructor. reflexivity.
  - destruct (aborted_shape _ _ _ _ _ A)
      as (ops & failed & rest & Htr & Hscript & _ & Hops).
    rewrite trace_rollback_failed, Htr in Hdelta.
    change (trace (enter s)) with (trace s) in Hdelta.
    rewrite <- !app_assoc in Hdelta. apply app_inv_head in Hdelta.
    subst delta. split.
    + run_state. now rewrite (aborted_leased _ _ _ _ _ A).
    + exists (map ok (GetConnection :: ops) ++ map ko failed ++ [ko Rollback]).
      split; [now rewrite <- !app_assoc|]. split.
      * pose proof (script_never_closes (view (enter s))
                      (auto_increment (enter s)) req) as Hs.
        rewrite Hscript, app_comm_cons in Hs.
        apply Forall_app in Hs. destruct Hs as [Hs1 Hs2].
        apply Forall_app in Hs2. destruct Hs2 as [Hs2 _].
        repeat (apply Forall_app; split).
        { now apply never_closing_never_release. }
        { now apply never_closing_never_release. }
        { repeat constructor. }
      * apply Exists_app. right. apply Exists_app. right.
        constructor. reflexivity.
  - rewrite trace_created in Hdelta. apply app_inv_head in Hdelta. subst delta.
    split; [reflexivity|].
    exists (map ok (script (view s) (auto_increment s) req)
            ++ [Responded (mkResponse 201 (created_body req s))]).
    split; [now rewrite <- !app_assoc|]. split.
    + apply Forall_app. split; [|repeat constructor].
      apply never_closing_never_release. apply script_never_closes.
    + apply Exists_app. left. apply Exists_exists.
      exists (ok Commit). split; [|reflexivity].
      apply in_map. apply commit_in_script.
Qed.

Lemma connection_released_exactly_once_witness :
  let s' := snd (create_order (Sample.fault_at 3)
                   (Sample.order [Sample.widget; Sample.gadget]) Sample.start) in
  leased s' = leased Sample.start
  /\ exists pre,
       trace s' = pre ++ [ok Release] /\
       Forall (fun e => is_release e = false) pre /\
       Exists (fun e => is_settle e = true) pre.
Proof.
  apply (connection_released_exactly_once (Sample.fault_at 3)
           (Sample.order [Sample.widget; Sample.gadget]) Sample.start
           (fst (create_order (Sample.fault_at 3)
                   (Sample.order [Sample.widget; Sample.gadget]) Sample.start))).
  - apply surjective_pairing.
  - reflexivity.
  - vm_compute. left. reflexivity.
Defined.

(** The id an order gets is the counter of the table at that moment; the
    script is written with it. *)
Lemma insert_id_is_auto_increment faults ci cn total st s :
  faults (clock s) = None ->
  fst (query_insert_order faults ci cn total st s) = Ok (auto_increment s).
Proof.
  intros H. unfold query_insert_order, bind.
  now rewrite (issue_sound faults _ s H).
Qed.

(** ** Successful runs *)

Lemma durable_created req s :
  idle s ->
  durable (then_released (committed req (enter s))) =
    add_order_items (persisted_rows (durable s) (auto_increment s) (items_of req))
      (add_order (header_row (durable s) (auto_increment s) req) (durable s)).
Proof.
  unfold idle. intros Hidle.
  assert (Hv : view s = durable s) by (unfold view; now rewrite Hidle).
  rewrite <- Hv. reflexivity.
Qed.

Lemma response_created req s :
  response (then_released (committed req (enter s))) =
    Some (mkResponse 201 (created_body req s)).
Proof. reflexivity. Qed.

(** A response 201 is only sent by a run that went through. *)
Lemma success_is_created faults req s r s' :
  Handled faults req s r s' ->
  (exists b, response s' = Some (mkResponse 201 b)) ->
  s' = then_released (committed req (enter s))
  /\ Forall (reconcilable (view s)) (items_of req).
Proof.
  intros H [b Hb].
  destruct H as [m Hh | m Hh Hm | e s1 Hh A | e s1 m Hh Hm A | Hh Hall].
  - run_state_in Hb. discriminate Hb.
  - run_state_in Hb. discriminate Hb.
  - run_state_in Hb. discriminate Hb.
  - run_state_in Hb. rewrite (aborted_response _ _ _ _ _ A) in Hb.
    discriminate Hb.
  - now split.
Qed.

(** Without faults, a request that passes the guards and whose items are
    all reconcilable goes through. *)
Lemma created_when_sound faults req s :
  (forall k, faults k = None) ->
  header_error req = None ->
  Forall (reconcilable (view s)) (items_of req) ->
  create_order faults req s = (Ok tt, then_released (committed req (enter s))).
Proof.
  intros Hnf Hh Hall.
  assert (Hno : forall m, ~ faulty faults m).
  { intros m [k Hk]. rewrite Hnf in Hk. discriminate Hk. }
  assert (Hbad : forall done bad rest,
             items_of req = done ++ bad :: rest -> reconcilable (view s) bad).
  { intros done bad rest E. rewrite E in Hall.
    apply Forall_app in Hall. destruct Hall as [_ Hall]. now inversion Hall. }
  destruct (create_order faults req s) as [r s'] eqn:Erun.
  apply handled_run in Erun.
  destruct Erun as [m Hh' | m Hh' Hm | e s1 Hh' A | e s1 m Hh' Hm A | Hh' Hall'].
  - congruence.
  - now apply Hno in Hm.
  - exfalso. pose proof (aborted_cause _ _ _ _ _ A) as C.
    destruct e as [|id|m].
    + destruct C as (done & bad & rest & E & _ & Hinv & _).
      destruct (Hbad _ _ _ E) as [Hv _].
      change (item_invalid bad = false) in Hv. congruence.
    + destruct C as (done & bad & rest & E & _ & _ & -> & Hnone & _).
      destruct (Hbad _ _ _ E) as [_ Hex]. now apply Hex.
    + now apply Hno in C.
  - now apply Hno in Hm.
  - reflexivity.
Qed.

(** The calls of an aborted [try] block are an initial segment of any
    list of calls that agrees with the handler's where the handler gets as
    far as the inserts. *)
Lemma aborted_calls faults req s e s1 total rows :
  Aborted faults req s e s1 ->
  (Forall (reconcilable (view s)) (items_of req) ->
   total = total_in (view s) (items_of req)
   /\ rows = map (order_item_row (auto_increment s))
                (map (reconciled_in (view s)) (items_of req))) ->
  exists ops failed rest,
    trace s1 = trace s ++ map ok ops ++ map ko failed
    /\ [GetConnection; BeginTransaction]
       ++ map (fun item => SelectPrice (num (Item.product_id item)))
              (items_of req)
       ++ [InsertOrder (str (Request.customerIdentifier req))
             (str (Request.customerName req)) total completed]
       ++ map InsertOrderItem rows
       ++ [Commit]
       = ops ++ failed ++ rest
    /\ (List.length failed <= 1)%nat.
Proof.
  intros A Hsame.
  destruct A as [m Hm | done bad rest e tail Hsplit Hdone Hstop
                | m Hm Hall | done bad rest m Hm Hall Hsplit | m Hm Hall].
  - exists [GetConnection], [BeginTransaction]. eexists.
    split; [run_state; now rewrite <- app_assoc|].
    split; [reflexivity | cbn; lia].
  - rewrite Hsplit.
    destruct Hstop as [Hbad | m Hm Hbad | Hbad Hnone].
    + exists ([GetConnection; BeginTransaction] ++ select_ops done), [].
      eexists.
      split; [run_state; list_normal; rewrite ?app_nil_r; reflexivity|].
      split; [list_normal; reflexivity | cbn; lia].
    + exists ([GetConnection; BeginTransaction] ++ select_ops done),
             [SelectPrice (num (Item.product_id bad))].
      eexists.
      split; [run_state; list_normal; reflexivity|].
      split; [list_normal; reflexivity | cbn; lia].
    + exists ([GetConnection; BeginTransaction] ++ select_ops (done ++ [bad])), [].
      eexists.
      split; [run_state; list_normal; rewrite ?app_nil_r; reflexivity|].
      split; [list_normal; reflexivity | cbn; lia].
  - destruct (Hsame Hall) as [-> ->].
    exists ([GetConnection; BeginTransaction] ++ select_ops (items_of req)),
           [header_op (view s) req].
    eexists.
    split; [run_state; list_normal; reflexivity|].
    split; [unfold header_op; list_normal; reflexivity | cbn; lia].
  - destruct (Hsame Hall) as [-> ->].
    rewrite (map_map (order_item_row (auto_increment s)) InsertOrderItem), Hsplit.
    exists ([GetConnection; BeginTransaction] ++ select_ops (items_of req)
            ++ [header_op (view s) req] ++ insert_ops (auto_increment s) done),
           [InsertOrderItem (order_item_row (auto_increment s) bad)].
    eexists.
    split; [run_state; list_normal; reflexivity|].
    split; [unfold header_op; list_normal; reflexivity | cbn; lia].
  - destruct (Hsame Hall) as [-> ->].
    rewrite (map_map (order_item_row (auto_increment s)) InsertOrderItem).
    exists ([GetConnection; BeginTransaction] ++ select_ops (items_of req)
            ++ [header_op (view s) req]
            ++ insert_ops (auto_increment s)
                 (map (reconciled_in (view s)) (items_of req))),
           [Commit], [].
    split; [run_state; list_normal; reflexivity|].
    split; [unfold header_op; list_normal; reflexivity | cbn; lia].
Qed.

(** Where every line item names a product of the table, the handler's
    rows and total are those made of the request and the table. *)
Lemma rows_of_the_request t order_id items :
  Forall (reconcilable t) items ->
  fold_left (fun total item =>
               js_add total
                 (js_mul (price_of t (num (Item.product_id item)))
                         (num (Item.quantity item))))
            items 0
    = total_in t items
  /\ map (fun item =>
            OrderItem.mk order_id (num (Item.product_id item))
              (num (Item.quantity item))
              (price_of t (num (Item.product_id item)))
              (str (Item.name item))
              (match Item.image_url item with
               | Some (String c u) => Some (String c u)
               | Some EmptyString | None => None
               end))
         items
     = map (order_item_row order_id) (map (reconciled_in t) items).
Proof.
  intros Hall. rewrite Forall_forall in Hall. split.
  - unfold total_in, total_from. apply fold_left_ext_in.
    intros item Hin total. apply Hall in Hin.
    apply reconcilable_spec in Hin. destruct Hin as [_ Hex].
    destruct (actual_price_of t item Hex) as [_ ->]. reflexivity.
  - rewrite map_map. apply map_ext_in. intros item Hin. apply Hall in Hin.
    apply reconcilable_spec in Hin. destruct Hin as [_ Hex].
    destruct (actual_price_of t item Hex) as [_ ->].
    unfold order_item_row, reconciled_in, reconciled, or_null. cbn.
    now destruct (Item.image_url item) as [[|c u]|].
Qed.

(** C8.  In every run, whatever the fault plan, the store calls issued
    before the [catch] and [finally] clauses are an initial segment of one
    list, in its order, and each is issued only after all the earlier ones
    returned: the two opening calls, then the price lookup of every line
    item in submission order, then the insert of the header, then the
    insert of one row per line item in submission order, each row with the
    id the header insert generated and the product id, quantity and name of
    its line item, then the commit.  What follows them in the log is only
    rollback, response and release.  A run that answers 201 has issued the
    whole list, every call returning; the id in the answer and in the order
    row persisted is the id the rows carry. *)
Theorem store_calls_follow_the_script faults req s :
  idle s ->
  exists total rows ops failed rest closing,
    trace (snd (create_order faults req s))
      = trace s ++ map ok ops ++ map ko failed ++ closing
    /\ [GetConnection; BeginTransaction]
       ++ map (fun item => SelectPrice (num (Item.product_id item)))
              (items_of req)
       ++ [InsertOrder (str (Request.customerIdentifier req))
             (str (Request.customerName req)) total completed]
       ++ map InsertOrderItem rows
       ++ [Commit]
       = ops ++ failed ++ rest
    /\ (List.length failed <= 1)%nat
    /\ Forall (fun e => is_closing e = true) closing
    /\ Forall2 (fun item row =>
                  OrderItem.order_id row = auto_increment s
                  /\ OrderItem.product_id row = num (Item.product_id item)
                  /\ OrderItem.quantity row = num (Item.quantity item)
                  /\ OrderItem.product_name row = str (Item.name item))
               (items_of req) rows
    /\ (forall b,
          response (snd (create_order faults req s))
            = Some (mkResponse 201 b) ->
          failed = [] /\ rest = []
          /\ closing = [Responded (mkResponse 201 b); ok Release]
          /\ b = Created (auto_increment s)
                   (str (Request.customerIdentifier req))
                   (str (Request.customerName req)) total completed
                   Msg.created
          /\ orders (durable (snd (create_order faults req s)))
             = orders (durable s)
               ++ [Order.mk (auto_increment s)
                     (str (Request.customerIdentifier req))
                     (str (Request.customerName req)) total completed]
          /\ order_items (durable (snd (create_order faults req s)))
             = order_items (durable s) ++ rows).
Proof.
  intros Hidle.
  assert (Hv : view s = durable s) by (unfold view; now rewrite Hidle).
  set (total := fold_left
                  (fun total item =>
                     js_add total
                       (js_mul (price_of (durable s) (num (Item.product_id item)))
                               (num (Item.quantity item))))
                  (items_of req) 0).
  set (rows := map (fun item =>
                      OrderItem.mk (auto_increment s)
                        (num (Item.product_id item)) (num (Item.quantity item))
                        (price_of (durable s) (num (Item.product_id item)))
                        (str (Item.name item))
                        (match Item.image_url item with
                         | Some (String c u) => Some (String c u)
                         | Some EmptyString | None => None
                         end))
                   (items_of req)).
  assert (Hsame : Forall (reconcilable (view s)) (items_of req) ->
                  total = total_in (view s) (items_of req)
                  /\ rows = map (order_item_row (auto_increment s))
                               (map (reconciled_in (view s)) (items_of req))).
  { rewrite Hv. exact (rows_of_the_request (durable s) (auto_increment s)
                         (items_of req)). }
  assert (Hrows : Forall2 (fun item row =>
                     OrderItem.order_id row = auto_increment s
                     /\ OrderItem.product_id row = num (Item.product_id item)
                     /\ OrderItem.quantity row = num (Item.quantity item)
                     /\ OrderItem.product_name row = str (Item.name item))
                    (items_of req) rows).
  { unfold rows. apply Forall2_map_right with (P := fun _ => True).
    - intros item _. repeat split.
    - apply Forall_forall. trivial. }
  exists total, rows.
  destruct (create_order faults req s) as [r s'] eqn:Erun.
  apply handled_run in Erun. cbn [snd].
  destruct Erun as [m Hh | m Hh Hm | e s1 Hh A | e s1 m Hh Hm A | Hh Hall].
  - exists [], []. eexists. exists [Responded (mkResponse 400 (Message m))].
    rewrite trace_rejected.
    split; [reflexivity|]. split; [reflexivity|]. split; [cbn; lia|].
    split; [repeat constructor|]. split; [exact Hrows|].
    intros b Hb. run_state_in Hb. discriminate Hb.
  - exists [], [GetConnection]. eexists.
    exists [Responded (mkResponse 500 (failure_body (StoreError m)))].
    rewrite trace_no_connection.
    split; [reflexivity|]. split; [reflexivity|]. split; [cbn; lia|].
    split; [repeat constructor|]. split; [exact Hrows|].
    intros b Hb. run_state_in Hb. discriminate Hb.
  - destruct (aborted_calls _ _ _ _ _ total rows A Hsame)
      as (ops & failed & rest & Htr & Hscript & Hlen).
    exists ops, failed, rest,
      [ok Rollback; Responded (mkResponse 500 (failure_body e)); ok Release].
    rewrite trace_rolled_back, Htr.
    split; [now rewrite <- !app_assoc|].
    split; [exact Hscript|]. split; [exact Hlen|].
    split; [repeat constructor|]. split; [exact Hrows|].
    intros b Hb. run_state_in Hb. discriminate Hb.
  - destruct (aborted_calls _ _ _ _ _ total rows A Hsame)
      as (ops & failed & rest & Htr & Hscript & Hlen).
    exists ops, failed, rest, [ko Rollback; ok Release].
    rewrite trace_rollback_failed, Htr.
    split; [now rewrite <- !app_assoc|].
    split; [exact Hscript|]. split; [exact Hlen|].
    split; [repeat constructor|]. split; [exact Hrows|].
    intros b Hb. run_state_in Hb.
    rewrite (aborted_response _ _ _ _ _ A) in Hb. discriminate Hb.
  - destruct (Hsame Hall) as [Etotal Erows].
    exists (script (view s) (auto_increment s) req), [], [],
      [Responded (mkResponse 201 (created_body req s)); ok Release].
    rewrite trace_created.
    split; [reflexivity|].
    split.
    { rewrite !app_nil_r, Etotal, Erows. unfold script, select_ops, insert_ops.
      now rewrite map_map. }
    split; [cbn; lia|].
    split; [repeat constructor|]. split; [exact Hrows|].
    intros b Hb. rewrite response_created in Hb. injection Hb as <-.
    split; [reflexivity|]. split; [reflexivity|]. split; [reflexivity|].
    split; [unfold created_body; now rewrite Etotal|].
    rewrite (durable_created req s Hidle).
    split.
    + cbn [orders add_order_items add_order]. unfold header_row.
      now rewrite Etotal, Hv.
    + cbn [order_items add_order_items add_order]. unfold persisted_rows.
      now rewrite Erows, Hv.
Qed.

Lemma store_calls_follow_the_script_witness :
  exists total rows,
    trace (snd (create_order Sample.no_faults
                  (Sample.order [Sample.widget; Sample.gadget]) Sample.start))
      = map ok
          ([GetConnection; BeginTransaction]
           ++ [SelectPrice 7; SelectPrice 1]
           ++ [InsertOrder "c1" "Alice" total completed]
           ++ map InsertOrderItem rows
           ++ [Commit])
        ++ [Responded
              (mkResponse 201
                 (Created 1 "c1" "Alice" total completed Msg.created));
            ok Release]
    /\ Forall2 (fun item row =>
                  OrderItem.order_id row = 1
                  /\ OrderItem.product_id row = num (Item.product_id item)
                  /\ OrderItem.quantity row = num (Item.quantity item)
                  /\ OrderItem.product_name row = str (Item.name item))
               [Sample.widget; Sample.gadget] rows
    /\ orders (durable (snd (create_order Sample.no_faults
                               (Sample.order [Sample.widget; Sample.gadget])
                               Sample.start)))
       = [Order.mk 1 "c1" "Alice" total completed]
    /\ order_items (durable (snd (create_order Sample.no_faults
                                    (Sample.order [Sample.widget; Sample.gadget])
                                    Sample.start)))
       = rows.
Proof.
  destruct (store_calls_follow_the_script Sample.no_faults
              (Sample.order [Sample.widget; Sample.gadget]) Sample.start)
    as (total & rows & ops & failed & rest & closing
        & Htr & Hscript & _ & _ & Hrows & Hdone).
  - reflexivity.
  - destruct (Hdone (Created 1 "c1" "Alice" 4000 completed Msg.created))
      as (-> & -> & -> & Hb & Ho & Hi).
    + reflexivity.
    + injection Hb as <-. exists 4000, rows.
      rewrite !app_nil_r in Hscript. cbn [map app] in Htr.
      split; [|split; [exact Hrows | split; [exact Ho | exact Hi]]].
      rewrite Htr, <- Hscript. reflexivity.
Defined.




(** The example of the price-integrity property: product 7 costs 1000, the
    client sends 100 for 3 pieces; the row holds 1000 and the total is 3000. *)
Example price_integrity_example :
  let s' := snd (create_order Sample.no_faults (Sample.order [Sample.widget])
                   Sample.start) in
  map OrderItem.price_at_order (order_items (durable s')) = [1000]
  /\ map Order.total_price (orders (durable s')) = [3000].
Proof. split; reflexivity. Qed.

Lemma same_but_price_reconciled t a b :
  same_but_price a b ->
  reconciled_in t a = reconciled_in t b /\ item_total t a = item_total t b.
Proof.
  intros (Hp & Hq & Hn & Hi).
  unfold reconciled_in, item_total, reconciled, actual_price.
  now rewrite Hp, Hq, Hn, Hi.
Qed.

(** The price the client sends has no part in the outcome: two requests
    that differ only in the (truthy) [price_at_order] of their line items
    leave the same tables and get the same answer. *)
Lemma client_price_is_ignored faults req req' s :
  (forall k, faults k = None) ->
  header_error req = None ->
  header_error req' = None ->
  Request.customerIdentifier req' = Request.customerIdentifier req ->
  Request.customerName req' = Request.customerName req ->
  Forall2 same_but_price (items_of req) (items_of req') ->
  Forall (reconcilable (view s)) (items_of req) ->
  Forall (fun item => truthy_num (Item.price_at_order item) = true)
         (items_of req') ->
  durable (snd (create_order faults req' s))
    = durable (snd (create_order faults req s))
  /\ response (snd (create_order faults req' s))
     = response (snd (create_order faults req s)).
Proof.
  intros Hnf Hh Hh' Hci Hcn Hsame Hall Hprice.
  assert (Hall' : Forall (reconcilable (view s)) (items_of req')).
  { revert Hall Hprice.
    induction Hsame as [|a b l l' (Hp & Hq & Hn & Hi) _ IH];
      intros Hall Hprice; constructor;
      inversion Hall as [|? ? [Hv Hex] Hrest]; subst;
      inversion Hprice as [|? ? Hpb Hprest]; subst; auto.
    split; [|now rewrite <- Hp].
    unfold item_invalid in *. rewrite <- Hp, <- Hq, <- Hn, Hpb.
    apply orb_false_iff in Hv. destruct Hv as [Hv _]. rewrite Hv.
    reflexivity. }
  assert (Hrows : map (reconciled_in (view s)) (items_of req')
                  = map (reconciled_in (view s)) (items_of req)
                  /\ total_in (view s) (items_of req')
                     = total_in (view s) (items_of req)).
  { unfold total_in. generalize 0. clear Hall Hall' Hprice.
    induction Hsame as [|a b l l' Hab _ IH]; intros total; [now split|].
    destruct (same_but_price_reconciled (view s) a b Hab) as [E1 E2].
    cbn [map total_from fold_left]. rewrite E1, E2.
    destruct (IH (js_add total (item_total (view s) b))) as [IH1 IH2].
    split; [now rewrite IH1 | exact IH2]. }
  destruct Hrows as [Hrows Htotal].
  rewrite (created_when_sound faults req s Hnf Hh Hall).
  rewrite (created_when_sound faults req' s Hnf Hh' Hall').
  cbn [snd]. rewrite !response_created. unfold created_body.
  rewrite Hci, Hcn, Htotal. split; [|reflexivity].
  replace (durable (then_released (committed req' (enter s))))
    with (add_order_items
            (map (order_item_row (auto_increment s))
                 (map (reconciled_in (view s)) (items_of req')))
            (add_order (header_row (view s) (auto_increment s) req') (view s)))
    by reflexivity.
  replace (durable (then_released (committed req (enter s))))
    with (add_order_items
            (map (order_item_row (auto_increment s))
                 (map (reconciled_in (view s)) (items_of req)))
            (add_order (header_row (view s) (auto_increment s) req) (view s)))
    by reflexivity.
  unfold header_row. now rewrite Hrows, Hci, Hcn, Htotal.
Qed.



(** Beyond that range the total is the handler's sum of doubles: 2^53
    pieces of product 7 and one piece of product 1 make 1000 * 2^53 + 500,
    and the order row holds 1000 * 2^53. *)
Example total_is_rounded_beyond_safe_integers :
  let s' := snd (create_order Sample.no_faults
                   (Sample.order
                      [Item.mk (Some 7) (Some (2 ^ 53)) (Some "Widget"%string)
                         (Some 100) None;
                       Item.mk (Some 1) (Some 1) (Some "Gadget"%string)
                         (Some 500) None])
                   Sample.start) in
  map Order.total_price (orders (durable s')) = [1000 * 2 ^ 53]
  /\ map (fun row => OrderItem.price_at_order row * OrderItem.quantity row)
         (order_items (durable s'))
     = [1000 * 2 ^ 53; 500].
Proof. split; vm_compute; reflexivity. Qed.

(** C10.  Whatever the fault plan, in a run that answers 201 the rows
    persisted for the line items carry, item by item, the [image_url] of
    the client when that is a non-empty string, and [null] when it is
    absent, [null] or empty. *)
Theorem image_url_or_null faults req s r s' :
  idle s ->
  create_order faults req s = (r, s') ->
  (exists b, response s' = Some (mkResponse 201 b)) ->
  exists rows,
    order_items (durable s') = order_items (durable s) ++ rows
    /\ Forall2 (fun item row =>
                  match Item.image_url item with
                  | Some (String c u) =>
                      OrderItem.image_url row = Some (String c u)
                  | Some EmptyString | None => OrderItem.image_url row = None
                  end)
               (items_of req) rows.
Proof.
  intros Hidle Erun Hok.
  apply handled_run in Erun.
  destruct (success_is_created _ _ _ _ _ Erun Hok) as [-> Hall].
  exists (persisted_rows (durable s) (auto_increment s) (items_of req)).
  rewrite durable_created by exact Hidle.
  split; [reflexivity|].
  unfold persisted_rows. rewrite map_map.
  apply Forall2_map_right with (P := fun _ => True).
  - intros item _. cbn. unfold or_null.
    destruct (Item.image_url item) as [[|c u]|]; reflexivity.
  - apply Forall_forall. trivial.
Qed.

Lemma image_url_or_null_witness :
  exists rows,
    order_items (durable (snd (create_order Sample.no_faults
        (Sample.order [Sample.widget; Sample.gadget; Sample.plain]) Sample.start)))
      = order_items (durable Sample.start) ++ rows
    /\ Forall2 (fun item row =>
                  match Item.image_url item with
                  | Some (String c u) =>
                      OrderItem.image_url row = Some (String c u)
                  | Some EmptyString | None => OrderItem.image_url row = None
                  end)
               [Sample.widget; Sample.gadget; Sample.plain] rows.
Proof.
  apply (image_url_or_null Sample.no_faults
           (Sample.order [Sample.widget; Sample.gadget; Sample.plain]) Sample.start
           (fst (create_order Sample.no_faults
                   (Sample.order [Sample.widget; Sample.gadget; Sample.plain]) Sample.start))).
  - reflexivity.
  - apply surjective_pairing.
  - eexists. vm_compute. reflexivity.
Defined.

(** ** Failing runs *)

(** Either the run went through, or the durable tables are what they
    were. *)
Lemma handled_durable faults req s r s' :
  Handled faults req s r s' ->
  idle s ->
  durable s' = durable s
  \/ (s' = then_released (committed req (enter s))
      /\ Forall (reconcilable (view s)) (items_of req)).
Proof.
  intros H Hidle.
  destruct H as [m Hh | m Hh Hm | e s1 Hh A | e s1 m Hh Hm A | Hh Hall].
  - left. reflexivity.
  - left. reflexivity.
  - left. run_state. exact (aborted_durable _ _ _ _ _ A Hidle).
  - left. run_state. exact (aborted_durable _ _ _ _ _ A Hidle).
  - right. now split.
Qed.

(** The run of a request whose first failing line item fails the check
    of the loop, when no store call fails. *)
Lemma first_invalid_item_run faults req s done bad rest :
  (forall k, faults k = None) ->
  header_error req = None ->
  items_of req = done ++ bad :: rest ->
  Forall (reconcilable (view s)) done ->
  item_invalid bad = true ->
  exists s1,
    create_order faults req s =
      (Ok tt,
       then_released
         (then_sent 500 (Message (Msg.failed Msg.invalid_item))
            (rollback_tx (advance [ok Rollback] s1))))
    /\ trace s1 = trace s
         ++ map ok ([GetConnection; BeginTransaction] ++ select_ops done).
Proof.
  intros Hnf Hh Hsplit Hdone Hbad.
  assert (Hno : forall m, ~ faulty faults m).
  { intros m [k Hk]. rewrite Hnf in Hk. discriminate Hk. }
  assert (Hnr : ~ reconcilable (view s) bad).
  { intros [H _]. congruence. }
  destruct (create_order faults req s) as [r s'] eqn:Erun.
  apply handled_run in Erun.
  destruct Erun as [m Hh' | m Hh' Hm | e s1 Hh' A | e s1 m Hh' Hm A | Hh' Hall'].
  - congruence.
  - now apply Hno in Hm.
  - pose proof (aborted_cause _ _ _ _ _ A) as C.
    destruct e as [|id|m].
    + destruct C as (done' & bad' & rest' & E & Hdone' & Hinv & Htr).
      rewrite Hsplit in E.
      destruct (first_failure_unique (reconcilable (view s))
                  done done' bad bad' rest rest' E Hdone Hdone' Hnr)
        as (<- & <- & <-).
      { intros [H _]. change (item_invalid bad' = false) in H. congruence. }
      exists s1. split; [reflexivity | exact Htr].
    + exfalso.
      destruct C as (done' & bad' & rest' & E & Hdone' & Hval & -> & Hnone & _).
      rewrite Hsplit in E.
      destruct (first_failure_unique (reconcilable (view s))
                  done done' bad bad' rest rest' E Hdone Hdone' Hnr)
        as (_ & <- & _).
      { intros [_ H]. now apply H. }
      congruence.
    + exfalso. now apply Hno in C.
  - now apply Hno in Hm.
  - exfalso. apply Hnr. rewrite Hsplit in Hall'.
    apply Forall_app in Hall'. destruct Hall' as [_ Hall'].
    now inversion Hall'.
Qed.

(** The run of a request whose first failing line item names a product
    that the table does not have, when no store call fails. *)
Lemma first_missing_product_run faults req s done bad rest :
  (forall k, faults k = None) ->
  header_error req = None ->
  items_of req = done ++ bad :: rest ->
  Forall (reconcilable (view s)) done ->
  item_invalid bad = false ->
  select_price (view s) (num (Item.product_id bad)) = [] ->
  exists s1,
    create_order faults req s =
      (Ok tt,
       then_released
         (then_sent 500
            (Message (Msg.failed (Msg.not_found (num (Item.product_id bad)))))
            (rollback_tx (advance [ok Rollback] s1))))
    /\ Aborted faults req (enter s)
         (ProductNotFound (num (Item.product_id bad))) s1
    /\ trace s1 = trace s
         ++ map ok ([GetConnection; BeginTransaction]
                    ++ select_ops (done ++ [bad])).
Proof.
  intros Hnf Hh Hsplit Hdone Hval Hnone.
  assert (Hno : forall m, ~ faulty faults m).
  { intros m [k Hk]. rewrite Hnf in Hk. discriminate Hk. }
  assert (Hnr : ~ reconcilable (view s) bad).
  { intros [_ H]. now apply H. }
  destruct (create_order faults req s) as [r s'] eqn:Erun.
  apply handled_run in Erun.
  destruct Erun as [m Hh' | m Hh' Hm | e s1 Hh' A | e s1 m Hh' Hm A | Hh' Hall'].
  - congruence.
  - now apply Hno in Hm.
  - pose proof (aborted_cause _ _ _ _ _ A) as C.
    destruct e as [|id|m].
    + exfalso.
      destruct C as (done' & bad' & rest' & E & Hdone' & Hinv & _).
      rewrite Hsplit in E.
      destruct (first_failure_unique (reconcilable (view s))
                  done done' bad bad' rest rest' E Hdone Hdone' Hnr)
        as (_ & <- & _).
      { intros [H _]. change (item_invalid bad' = false) in H. congruence. }
      congruence.
    + destruct C as (done' & bad' & rest' & E & Hdone' & Hval' & -> & Hnone' & Htr).
      rewrite Hsplit in E.
      destruct (first_failure_unique (reconcilable (view s))
                  done done' bad bad' rest rest' E Hdone Hdone' Hnr)
        as (<- & <- & <-).
      { intros [_ H]. now apply H. }
      exists s1. split; [reflexivity|]. split; [exact A | exact Htr].
    + exfalso. now apply Hno in C.
  - now apply Hno in Hm.
  - exfalso. apply Hnr. rewrite Hsplit in Hall'.
    apply Forall_app in Hall'. destruct Hall' as [_ Hall'].
    now inversion Hall'.
Qed.

(** What the handler does with the outcome of the [try] block. *)
Lemma create_order_outcome faults req s :
  header_error req = None ->
  (exists m,
     try_block faults req (enter s)
       = (Throw (StoreError m), advance [ko GetConnection] (enter s))
     /\ create_order faults req s
        = (Ok tt,
           then_sent 500 (failure_body (StoreError m))
             (advance [ko GetConnection] (enter s))))
  \/ (exists e s1,
        Aborted faults req (enter s) e s1
        /\ try_block faults req (enter s) = (Throw e, s1)
        /\ (create_order faults req s
              = (Ok tt,
                 then_released
                   (then_sent 500 (failure_body e)
                      (rollback_tx (advance [ok Rollback] s1))))
            \/ exists m,
                 create_order faults req s
                   = (Throw (StoreError m),
                      then_released (advance [ko Rollback] s1))))
  \/ create_order faults req s
       = (Ok tt, then_released (committed req (enter s))).
Proof.
  intros Hh. rewrite (create_order_tried faults req s Hh).
  destruct (try_block_cases faults req (enter s))
    as [(m & Hm & E) | [(e & s1 & A & E) | (Hall & E)]].
  - left. exists m. split; [exact E|].
    rewrite (try_catch_finally_caught _ _ _ _ _ _ _ E
               (catch_block_unconnected faults (StoreError m)
                  (advance [ko GetConnection] (enter s)) eq_refl)).
    now rewrite finally_block_unconnected by reflexivity.
  - right. left. exists e, s1. split; [exact A|]. split; [exact E|].
    destruct (catch_block_connected faults e s1 _ (aborted_connection faults A))
      as [Ec | (m & Hm & Ec)].
    + left. rewrite (try_catch_finally_caught _ _ _ _ _ _ _ E Ec).
      now rewrite (finally_block_connected _ PoolConnection)
        by exact (aborted_connection faults A).
    + right. exists m.
      exact (try_catch_finally_escaped _ _ finally_block _ _ _ _ _ _ E Ec
               (finally_block_connected (advance [ko Rollback] s1)
                  PoolConnection (aborted_connection faults A))).
  - right. right. rewrite (try_catch_finally_ok _ _ _ _ _ E).
    now rewrite (finally_block_connected _ PoolConnection)
      by apply committed_connection.
Qed.

(** A call of the [try] block that throws is answered 500 with the
    message of the store, when the rollback does not throw. *)
Lemma store_error_run faults req s ops op closing m :
  trace (snd (create_order faults req s))
    = trace s ++ map ok ops ++ ko op :: closing ->
  op <> Rollback ->
  ~ In (ko Rollback) closing ->
  faults (clock s + List.length ops)%nat = Some m ->
  response (snd (create_order faults req s))
    = Some (mkResponse 500 (Message (Msg.failed m))).
Proof.
  intros Htr Hop Hroll Hf.
  destruct (header_error req) as [m0|] eqn:Hh.
  { exfalso. rewrite (create_order_rejected faults req s m0 Hh) in Htr.
    cbn [snd] in Htr. rewrite trace_rejected in Htr.
    apply app_inv_head in Htr. destruct ops; discriminate Htr. }
  destruct (create_order_outcome faults req s Hh)
    as [(m' & E & Erun) | [(e & s1 & A & E & Erun) | Erun]].
  - rewrite Erun in Htr |- *. cbn [snd] in Htr |- *.
    rewrite trace_no_connection in Htr. apply app_inv_head in Htr.
    destruct ops as [|y ops]; [|discriminate Htr].
    destruct (try_block_reports faults req _ _ _ E) as (k & Hk & Hm').
    cbn in Hk. rewrite Nat.add_0_r in Hf.
    assert (k = clock s) by lia. subst k.
    rewrite Hf in Hm'. now injection Hm' as <-.
  - destruct (aborted_log faults req _ _ _ A)
      as (ops' & failed & Hlog & Hclock & Hfailed).
    change (trace (enter s)) with (trace s) in Hlog.
    change (clock (enter s)) with (clock s) in Hclock.
    destruct Erun as [Erun | (m' & Erun)]; rewrite Erun in Htr |- *;
      cbn [snd] in Htr |- *.
    + rewrite trace_rolled_back, Hlog in Htr.
      rewrite <- !app_assoc in Htr. apply app_inv_head in Htr.
      destruct (first_thrown _ _ _ _ _ Htr) as (a2 & -> & Hrest).
      destruct Hfailed as [[-> _] | (op' & m' & -> & _ & ->)].
      * exfalso. destruct a2 as [|y [|y2 a2]]; discriminate Hrest.
      * destruct a2 as [|y a2]; [|discriminate Hrest].
        destruct (try_block_reports faults req _ _ _ E) as (k & Hk & Hm').
        rewrite app_nil_r in Hf. cbn [List.length] in Hclock.
        assert (k = (clock s + List.length ops')%nat) by lia. subst k.
        rewrite Hf in Hm'. injection Hm' as <-. reflexivity.
    + exfalso. rewrite trace_rollback_failed, Hlog in Htr.
      rewrite <- !app_assoc in Htr. apply app_inv_head in Htr.
      destruct (first_thrown _ _ _ _ _ Htr) as (a2 & -> & Hrest).
      destruct Hfailed as [[-> _] | (op' & m'' & -> & _ & ->)].
      * destruct a2 as [|y a2]; [|discriminate Hrest].
        injection Hrest as <- _. now apply Hop.
      * destruct a2 as [|y a2]; [|discriminate Hrest].
        injection Hrest as _ <-. apply Hroll. now left.
  - exfalso. rewrite Erun in Htr. cbn [snd] in Htr.
    rewrite trace_created in Htr. apply app_inv_head in Htr.
    destruct (first_thrown _ _ _ _ _ Htr) as (a2 & _ & Hrest).
    destruct a2 as [|y [|y2 a2]]; discriminate Hrest.
Qed.

(** C4, as stated, fails: a line item naming a product that does not
    exist makes a request that passes every check, and it is answered 500,
    not 400. *)
Lemma product_not_found_is_answered_500 :
  header_error (Sample.order [Sample.ghost]) = None
  /\ item_invalid Sample.ghost = false
  /\ ~ product_exists Sample.tables 99
  /\ exists resp,
       response (snd (create_order Sample.no_faults
                        (Sample.order [Sample.ghost]) Sample.start))
         = Some resp
       /\ status resp = 500
       /\ status resp <> 400
       /\ body resp
            = Message
                "Gagal membuat pesanan: Produk dengan ID 99 tidak ditemukan."%string.
Proof.
  split; [reflexivity|]. split; [reflexivity|]. split.
  - vm_compute. intros [H | [H | []]]; discriminate H.
  - eexists. split; [vm_compute; reflexivity|].
    split; [reflexivity|]. split; [discriminate | reflexivity].
Qed.

(** C4, amended.  For a request whose fields have the types of the
    interface.  The answer is 400, with the message of the guard, exactly
    when one of the three guards before the [try] rejects the request.  A
    request that passes them and stops at a line item (no store call
    failing) is answered 500: with the message of invalid item details when
    the item fails the check of the loop, with the message naming the
    product id when the item names a product that the table does not have.
    A store call of the [try] block that throws, the rollback not throwing,
    is answered 500 with ["Gagal membuat pesanan: "] followed by the
    message the store threw.  Every response has status 201, 400 or 500
    and ends the handler normally; the one run without a response is the
    one in which [rollback] itself throws: the handler then ends with that
    exception, after releasing the connection. *)
Theorem failure_status faults req s :
  (forall m,
     header_error req = Some m ->
     response (snd (create_order faults req s))
       = Some (mkResponse 400 (Message m)))
  /\ (forall b,
        response (snd (create_order faults req s)) = Some (mkResponse 400 b) ->
        exists m, header_error req = Some m /\ b = Message m)
  /\ (forall done bad rest,
        idle s ->
        (forall k, faults k = None) ->
        header_error req = None ->
        items_of req = done ++ bad :: rest ->
        Forall (fun item =>
                  item_invalid item = false /\
                  product_exists (durable s) (num (Item.product_id item)))
               done ->
        (item_invalid bad = true ->
         response (snd (create_order faults req s))
           = Some (mkResponse 500 (Message (Msg.failed Msg.invalid_item))))
        /\ (item_invalid bad = false ->
            ~ product_exists (durable s) (num (Item.product_id bad)) ->
            response (snd (create_order faults req s))
              = Some (mkResponse 500
                        (Message
                           (Msg.failed
                              (Msg.not_found (num (Item.product_id bad))))))))
  /\ (forall ops op closing m,
        trace (snd (create_order faults req s))
          = trace s ++ map ok ops ++ ko op :: closing ->
        op <> Rollback ->
        ~ In (ko Rollback) closing ->
        faults (clock s + List.length ops)%nat = Some m ->
        response (snd (create_order faults req s))
          = Some (mkResponse 500 (Message (Msg.failed m))))
  /\ (forall resp,
        response (snd (create_order faults req s)) = Some resp ->
        fst (create_order faults req s) = Ok tt
        /\ (status resp = 201 \/ status resp = 400 \/ status resp = 500))
  /\ (response (snd (create_order faults req s)) = None ->
      exists m pre,
        fst (create_order faults req s) = Throw (StoreError m)
        /\ trace (snd (create_order faults req s))
           = pre ++ [ko Rollback; ok Release]).
Proof.
  split; [|split; [|split; [|split; [|split]]]].
  - intros m Hh. now rewrite (create_order_rejected faults req s m Hh).
  - intros b Hb.
    destruct (create_order faults req s) as [r s'] eqn:Erun.
    apply handled_run in Erun. cbn [snd] in Hb.
    destruct Erun as [m Hh | m Hh Hm | e s1 Hh A | e s1 m Hh Hm A | Hh Hall'].
    + exists m. split; [exact Hh|]. run_state_in Hb. now injection Hb as <-.
    + run_state_in Hb. discriminate Hb.
    + run_state_in Hb. discriminate Hb.
    + run_state_in Hb. rewrite (aborted_response _ _ _ _ _ A) in Hb.
      discriminate Hb.
    + rewrite response_created in Hb. discriminate Hb.
  - intros done bad rest Hidle Hnf Hh Hsplit Hdone.
    assert (Hv : view s = durable s) by (unfold view; now rewrite Hidle).
    assert (Hrec : Forall (reconcilable (view s)) done).
    { rewrite Hv. eapply Forall_impl; [|exact Hdone].
      intros item H. now apply reconcilable_spec. }
    split.
    + intros Hbad.
      destruct (first_invalid_item_run faults req s done bad rest
                  Hnf Hh Hsplit Hrec Hbad) as (s1 & -> & _).
      reflexivity.
    + intros Hval Hmiss.
      assert (Hnone : select_price (view s) (num (Item.product_id bad)) = []).
      { rewrite Hv.
        destruct (select_price (durable s) (num (Item.product_id bad)))
          as [|p l] eqn:E; [reflexivity|].
        exfalso. apply Hmiss. apply product_exists_select.
        rewrite E. discriminate. }
      destruct (first_missing_product_run faults req s done bad rest
                  Hnf Hh Hsplit Hrec Hval Hnone) as (s1 & -> & _).
      reflexivity.
  - apply store_error_run.
  - intros resp Hresp.
    destruct (create_order faults req s) as [r s'] eqn:Erun.
    apply handled_run in Erun. cbn [fst snd] in *.
    destruct Erun as [m Hh | m Hh Hm | e s1 Hh A | e s1 m Hh Hm A | Hh Hall'].
    + run_state_in Hresp. injection Hresp as <-. split; [reflexivity|]. now right; left.
    + run_state_in Hresp. injection Hresp as <-. split; [reflexivity|]. now right; right.
    + run_state_in Hresp. injection Hresp as <-. split; [reflexivity|]. now right; right.
    + run_state_in Hresp. rewrite (aborted_response _ _ _ _ _ A) in Hresp.
      discriminate Hresp.
    + rewrite response_created in Hresp. injection Hresp as <-.
      split; [reflexivity|]. now left.
  - intros Hnone.
    destruct (create_order faults req s) as [r s'] eqn:Erun.
    apply handled_run in Erun. cbn [fst snd] in *.
    destruct Erun as [m Hh | m Hh Hm | e s1 Hh A | e s1 m Hh Hm A | Hh Hall'].
    + run_state_in Hnone. discriminate Hnone.
    + run_state_in Hnone. discriminate Hnone.
    + run_state_in Hnone. discriminate Hnone.
    + exists m, (trace s1). split; [reflexivity|]. apply trace_rollback_failed.
    + rewrite response_created in Hnone. discriminate Hnone.
Qed.

Lemma failure_status_witness :
  response (snd (create_order Sample.no_faults Sample.anonymous Sample.start))
    = Some (mkResponse 400 (Message Msg.no_identifier))
  /\ response (snd (create_order Sample.no_faults
                      (Sample.order [Sample.widget; Sample.nameless])
                      Sample.start))
     = Some (mkResponse 500 (Message (Msg.failed Msg.invalid_item)))
  /\ response (snd (create_order Sample.no_faults
                      (Sample.order [Sample.widget; Sample.ghost])
                      Sample.start))
     = Some (mkResponse 500 (Message (Msg.failed (Msg.not_found 99))))
  /\ response (snd (create_order (Sample.fault_at 3)
                      (Sample.order [Sample.widget; Sample.gadget])
                      Sample.start))
     = Some (mkResponse 500 (Message (Msg.failed "ECONNRESET")))
  /\ exists m pre,
       fst (create_order (Sample.faults_at [4%nat; 5%nat])
              (Sample.order [Sample.widget]) Sample.start)
         = Throw (StoreError m)
       /\ trace (snd (create_order (Sample.faults_at [4%nat; 5%nat])
                        (Sample.order [Sample.widget]) Sample.start))
          = pre ++ [ko Rollback; ok Release].
Proof.
  split; [|split; [|split; [|split]]].
  - apply (proj1 (failure_status Sample.no_faults Sample.anonymous Sample.start)).
    reflexivity.
  - apply (proj1 (proj2 (proj2 (failure_status Sample.no_faults
                                  (Sample.order [Sample.widget; Sample.nameless])
                                  Sample.start)))
             [Sample.widget] Sample.nameless []).
    + reflexivity.
    + reflexivity.
    + reflexivity.
    + reflexivity.
    + constructor; [split; [reflexivity | vm_compute; auto] | constructor].
    + reflexivity.
  - apply (proj1 (proj2 (proj2 (failure_status Sample.no_faults
                                  (Sample.order [Sample.widget; Sample.ghost])
                                  Sample.start)))
             [Sample.widget] Sample.ghost []).
    + reflexivity.
    + reflexivity.
    + reflexivity.
    + reflexivity.
    + constructor; [split; [reflexivity | vm_compute; auto] | constructor].
    + reflexivity.
    + vm_compute. intros [H | [H | []]]; discriminate H.
  - apply (proj1 (proj2 (proj2 (proj2
                    (failure_status (Sample.fault_at 3)
                       (Sample.order [Sample.widget; Sample.gadget])
                       Sample.start))))
             [GetConnection; BeginTransaction; SelectPrice 7] (SelectPrice 1)
             [ok Rollback;
              Responded
                (mkResponse 500 (Message (Msg.failed "ECONNRESET")));
              ok Release]).
    + reflexivity.
    + discriminate.
    + intros [H | [H | [H | []]]]; discriminate H.
    + reflexivity.
  - apply (proj2 (proj2 (proj2 (proj2 (proj2
                    (failure_status (Sample.faults_at [4%nat; 5%nat])
                       (Sample.order [Sample.widget]) Sample.start)))))).
    reflexivity.
Defined.

(** C5, as stated, fails: the second line item has no name, which the
    validator is to report before any store access; by the time the handler
    reports it, a connection has been taken, a transaction begun and the
    price of the first item queried. *)
Lemma item_check_comes_after_store_access :
  Item.name Sample.nameless = None
  /\ trace (snd (create_order Sample.no_faults
                   (Sample.order [Sample.widget; Sample.nameless]) Sample.start))
     = [ok GetConnection; ok BeginTransaction; ok (SelectPrice 7); ok Rollback;
        Responded (mkResponse 500 (Message (Msg.failed Msg.invalid_item)));
        ok Release].
Proof. split; reflexivity. Qed.

(** C5, amended.  The three guards on [items], [customerIdentifier] and
    [customerName] are evaluated before any store access: a request they
    reject is answered with no store call issued.  The checks on a line
    item are evaluated inside the transaction, in the loop that looks up
    the prices, just before the lookup of that item: when a line item fails
    them and the items before it are reconcilable, then (no store call
    failing) the connection was taken, the transaction begun and the price
    of each earlier item looked up before the failure is reported; nothing
    is inserted and the transaction is rolled back. *)
Theorem item_checks_run_inside_the_transaction faults req s :
  (forall m,
     header_error req = Some m ->
     trace (snd (create_order faults req s))
       = trace s ++ [Responded (mkResponse 400 (Message m))]
     /\ clock (snd (create_order faults req s)) = clock s)
  /\ (forall done bad rest,
        (forall k, faults k = None) ->
        header_error req = None ->
        items_of req = done ++ bad :: rest ->
        Forall (reconcilable (view s)) done ->
        item_invalid bad = true ->
        trace (snd (create_order faults req s))
          = trace s
            ++ map ok ([GetConnection; BeginTransaction] ++ select_ops done)
            ++ [ok Rollback;
                Responded (mkResponse 500 (Message (Msg.failed Msg.invalid_item)));
                ok Release]).
Proof.
  split.
  - intros m Hh. now rewrite (create_order_rejected faults req s m Hh).
  - intros done bad rest Hnf Hh Hsplit Hdone Hbad.
    destruct (first_invalid_item_run faults req s done bad rest
                Hnf Hh Hsplit Hdone Hbad) as (s1 & -> & Htr).
    cbn [snd]. rewrite trace_rolled_back, Htr.
    now rewrite <- app_assoc.
Qed.

Lemma item_checks_run_inside_the_transaction_witness :
  trace (snd (create_order Sample.no_faults Sample.anonymous Sample.start))
    = trace Sample.start
      ++ [Responded (mkResponse 400 (Message Msg.no_identifier))]
  /\ trace (snd (create_order Sample.no_faults
                   (Sample.order [Sample.widget; Sample.nameless; Sample.gadget])
                   Sample.start))
     = trace Sample.start
       ++ map ok ([GetConnection; BeginTransaction] ++ select_ops [Sample.widget])
       ++ [ok Rollback;
           Responded (mkResponse 500 (Message (Msg.failed Msg.invalid_item)));
           ok Release].
Proof.
  split.
  - apply (proj1 (item_checks_run_inside_the_transaction Sample.no_faults
                    Sample.anonymous Sample.start)).
    reflexivity.
  - apply (proj2 (item_checks_run_inside_the_transaction Sample.no_faults
                    (Sample.order [Sample.widget; Sample.nameless; Sample.gadget])
                    Sample.start)
             [Sample.widget] Sample.nameless [Sample.gadget]).
    + reflexivity.
    + reflexivity.
    + reflexivity.
    + constructor; [split; [reflexivity | vm_compute; discriminate] | constructor].
    + reflexivity.
Defined.

(** A field that is [0] fails the check of the loop just as a field that
    is missing does. *)
Lemma zero_is_missing item :
  Item.product_id item = Some 0
  \/ Item.quantity item = Some 0
  \/ Item.price_at_order item = Some 0 ->
  item_invalid item = true.
Proof.
  unfold item_invalid.
  intros [H | [H | H]]; rewrite H; cbn.
  - reflexivity.
  - now rewrite orb_true_r.
  - now rewrite !orb_true_r.
Qed.

(** C9, as stated, fails: the request holds a line item of quantity 0, yet
    it is rejected for the product that the item before it names, not for
    invalid item details. *)
Lemma zero_quantity_behind_missing_product :
  Item.quantity Sample.zero_quantity = Some 0
  /\ In Sample.zero_quantity
        (items_of (Sample.order [Sample.ghost; Sample.zero_quantity]))
  /\ response (snd (create_order Sample.no_faults
                      (Sample.order [Sample.ghost; Sample.zero_quantity])
                      Sample.start))
     = Some (mkResponse 500
               (Message
                  "Gagal membuat pesanan: Produk dengan ID 99 tidak ditemukan."%string))
  /\ response (snd (create_order Sample.no_faults
                      (Sample.order [Sample.ghost; Sample.zero_quantity])
                      Sample.start))
     <> Some (mkResponse 500 (Message (Msg.failed Msg.invalid_item))).
Proof.
  split; [reflexivity|]. split; [right; left; reflexivity|].
  split; [reflexivity|]. vm_compute. discriminate.
Qed.

(** A list with an item that does not get through the loop has a first
    such item. *)
Lemma first_stop t items :
  ~ Forall (reconcilable t) items ->
  exists done bad rest,
    items = done ++ bad :: rest
    /\ Forall (reconcilable t) done
    /\ ~ reconcilable t bad.
Proof.
  induction items as [|item items IH]; intros Hnot.
  - exfalso. apply Hnot. constructor.
  - assert (Hdec : reconcilable t item \/ ~ reconcilable t item).
    { unfold reconcilable.
      destruct (item_invalid item);
        [right; intros [H _]; discriminate H|].
      destruct (select_price t (num (Item.product_id item))) as [|p l].
      - right. intros [_ H]. now apply H.
      - left. split; [reflexivity | discriminate]. }
    destruct Hdec as [Hit | Hit].
    + destruct IH as (done & bad & rest & -> & Hdone & Hbad).
      { intros H. apply Hnot. now constructor. }
      exists (item :: done), bad, rest.
      split; [reflexivity|]. split; [now constructor | exact Hbad].
    + exists [], item, items.
      split; [reflexivity|]. split; [constructor | exact Hit].
Qed.

(** C9, amended.  A request with a line item whose [product_id],
    [quantity] or [price_at_order] is [0] is never answered 201 and nothing
    of it is persisted, whatever the fault plan: the item fails the check
    of the loop as if the field were missing.  What the answer says is
    decided by the first point of failure.  A request that a guard rejects
    is answered 400 with the message of the guard.  Otherwise, no store
    call failing, the line items have a first one that fails the check or
    names a product the table does not have; it is the item with the zero
    or one before it, and the answer is 500: with the message of invalid
    item details when that item fails the check (so whenever every item
    before the one with the zero passes the check and names a product of
    the table), with the message naming its product id when it names a
    product the table does not have. *)
Theorem zero_field_rejects_the_order faults req s zero :
  idle s ->
  In zero (items_of req) ->
  Item.product_id zero = Some 0
  \/ Item.quantity zero = Some 0
  \/ Item.price_at_order zero = Some 0 ->
  item_invalid zero = true
  /\ durable (snd (create_order faults req s)) = durable s
  /\ (forall b,
        response (snd (create_order faults req s)) <> Some (mkResponse 201 b))
  /\ (forall m,
        header_error req = Some m ->
        response (snd (create_order faults req s))
          = Some (mkResponse 400 (Message m)))
  /\ (header_error req = None ->
      (forall k, faults k = None) ->
      exists done bad rest,
        items_of req = done ++ bad :: rest
        /\ Forall (fun item =>
                     item_invalid item = false /\
                     product_exists (durable s) (num (Item.product_id item)))
                  done
        /\ In zero (bad :: rest)
        /\ ((item_invalid bad = true
             /\ response (snd (create_order faults req s))
                = Some (mkResponse 500 (Message (Msg.failed Msg.invalid_item))))
            \/ (item_invalid bad = false
                /\ ~ product_exists (durable s) (num (Item.product_id bad))
                /\ bad <> zero
                /\ response (snd (create_order faults req s))
                   = Some (mkResponse 500
                             (Message
                                (Msg.failed
                                   (Msg.not_found
                                      (num (Item.product_id bad)))))))))
  /\ (forall before after,
        header_error req = None ->
        (forall k, faults k = None) ->
        items_of req = before ++ zero :: after ->
        Forall (fun item =>
                  item_invalid item = false /\
                  product_exists (durable s) (num (Item.product_id item)))
               before ->
        response (snd (create_order faults req s))
          = Some (mkResponse 500 (Message (Msg.failed Msg.invalid_item)))).
Proof.
  intros Hidle Hin Hzero.
  assert (Hv : view s = durable s) by (unfold view; now rewrite Hidle).
  pose proof (zero_is_missing zero Hzero) as Hbad.
  assert (Hnz : ~ reconcilable (view s) zero).
  { intros [H _]. congruence. }
  assert (Hnot : ~ Forall (reconcilable (view s)) (items_of req)).
  { intros Hall. rewrite Forall_forall in Hall. exact (Hnz (Hall zero Hin)). }
  split; [exact Hbad|]. split; [|split; [|split; [|split]]].
  - destruct (create_order faults req s) as [r s'] eqn:Erun.
    apply handled_run in Erun. cbn [snd].
    destruct (handled_durable _ _ _ _ _ Erun Hidle) as [H | [_ H]];
      [exact H | contradiction].
  - intros b Hb.
    destruct (create_order faults req s) as [r s'] eqn:Erun.
    apply handled_run in Erun. cbn [snd] in Hb.
    destruct (success_is_created _ _ _ _ _ Erun (ex_intro _ b Hb)) as [_ H].
    contradiction.
  - intros m Hh. now rewrite (create_order_rejected faults req s m Hh).
  - intros Hh Hnf.
    destruct (first_stop (view s) (items_of req) Hnot)
      as (done & bad & rest & Hsplit & Hdone & Hstop).
    exists done, bad, rest. split; [exact Hsplit|].
    split.
    { rewrite <- Hv. eapply Forall_impl; [|exact Hdone].
      intros item H. now apply reconcilable_spec. }
    split.
    { rewrite Hsplit in Hin. apply in_app_or in Hin.
      destruct Hin as [Hin | Hin]; [|exact Hin].
      exfalso. rewrite Forall_forall in Hdone. exact (Hnz (Hdone zero Hin)). }
    destruct (item_invalid bad) eqn:Ebad.
    + left. split; [reflexivity|].
      destruct (first_invalid_item_run faults req s done bad rest
                  Hnf Hh Hsplit Hdone Ebad) as (s1 & -> & _).
      reflexivity.
    + right. split; [reflexivity|].
      assert (Hnone : select_price (view s) (num (Item.product_id bad)) = []).
      { destruct (select_price (view s) (num (Item.product_id bad)))
          as [|p l] eqn:E; [reflexivity|].
        exfalso. apply Hstop. split; [exact Ebad | rewrite E; discriminate]. }
      split.
      { rewrite <- Hv. rewrite product_exists_select. intros H. now apply H. }
      split; [intros ->; congruence|].
      destruct (first_missing_product_run faults req s done bad rest
                  Hnf Hh Hsplit Hdone Ebad Hnone) as (s1 & -> & _).
      reflexivity.
  - intros before after Hh Hnf Hsplit Hbefore.
    assert (Hrec : Forall (reconcilable (view s)) before).
    { rewrite Hv. eapply Forall_impl; [|exact Hbefore].
      intros item H. now apply reconcilable_spec. }
    destruct (first_invalid_item_run faults req s before zero after
                Hnf Hh Hsplit Hrec Hbad) as (s1 & -> & _).
    reflexivity.
Qed.

Lemma zero_field_rejects_the_order_witness :
  item_invalid Sample.zero_quantity = true
  /\ durable (snd (create_order Sample.no_faults
                     (Sample.order [Sample.nameless; Sample.zero_quantity])
                     Sample.start))
     = durable Sample.start
  /\ (forall b,
        response (snd (create_order Sample.no_faults
                         (Sample.order [Sample.nameless; Sample.zero_quantity])
                         Sample.start))
        <> Some (mkResponse 201 b))
  /\ (exists done bad rest,
        [Sample.nameless; Sample.zero_quantity] = done ++ bad :: rest
        /\ Forall (fun item =>
                     item_invalid item = false /\
                     product_exists (durable Sample.start)
                       (num (Item.product_id item)))
                  done
        /\ In Sample.zero_quantity (bad :: rest)
        /\ ((item_invalid bad = true
             /\ response (snd (create_order Sample.no_faults
                                 (Sample.order
                                    [Sample.nameless; Sample.zero_quantity])
                                 Sample.start))
                = Some (mkResponse 500 (Message (Msg.failed Msg.invalid_item))))
            \/ (item_invalid bad = false
                /\ ~ product_exists (durable Sample.start)
                       (num (Item.product_id bad))
                /\ bad <> Sample.zero_quantity
                /\ response (snd (create_order Sample.no_faults
                                    (Sample.order
                                       [Sample.nameless; Sample.zero_quantity])
                                    Sample.start))
                   = Some (mkResponse 500
                             (Message
                                (Msg.failed
                                   (Msg.not_found
                                      (num (Item.product_id bad)))))))))
  /\ response (snd (create_order Sample.no_faults
                      (Sample.order [Sample.widget; Sample.zero_quantity])
                      Sample.start))
     = Some (mkResponse 500 (Message (Msg.failed Msg.invalid_item))).
Proof.
  destruct (zero_field_rejects_the_order Sample.no_faults
              (Sample.order [Sample.nameless; Sample.zero_quantity])
              Sample.start Sample.zero_quantity)
    as (H1 & H2 & H3 & _ & H5 & _).
  - reflexivity.
  - right; left; reflexivity.
  - right; left; reflexivity.
  - split; [exact H1|]. split; [exact H2|]. split; [exact H3|].
    split; [apply H5; reflexivity|].
    apply (proj2 (proj2 (proj2 (proj2 (proj2
             (zero_field_rejects_the_order Sample.no_faults
                (Sample.order [Sample.widget; Sample.zero_quantity])
                Sample.start Sample.zero_quantity
                eq_refl (or_intror (or_introl eq_refl))
                (or_intror (or_introl eq_refl)))))))
             [Sample.widget] []).
    + reflexivity.
    + reflexivity.
    + reflexivity.
    + constructor; [split; [reflexivity | vm_compute; auto] | constructor].
Defined.

(** ** More about the order-creation handler *)

Lemma select_price_same_products t t' id :
  products t' = products t -> select_price t' id = select_price t id.
Proof. unfold select_price. now intros ->. Qed.

Lemma reconciliation_same_products t t' items :
  products t' = products t ->
  map (reconciled_in t') items = map (reconciled_in t) items
  /\ total_in t' items = total_in t items
  /\ (Forall (reconcilable t) items -> Forall (reconcilable t') items).
Proof.
  intros E.
  assert (Ha : forall item, actual_price t' item = actual_price t item).
  { intros item. unfold actual_price. now rewrite (select_price_same_products t t'). }
  split; [|split].
  - apply map_ext. intros item. unfold reconciled_in. now rewrite Ha.
  - unfold total_in, total_from. apply fold_left_ext_in.
    intros item _ total. unfold item_total. now rewrite Ha.
  - apply Forall_impl. intros item [H1 H2]. split; [exact H1|].
    now rewrite (select_price_same_products t t').
Qed.

Lemma created_state_facts req s :
  tx (then_released (committed req (enter s))) = None
  /\ auto_increment (then_released (committed req (enter s)))
     = auto_increment s + 1.
Proof. split; reflexivity. Qed.

Lemma success_passed_the_guards faults req s r s' :
  Handled faults req s r s' ->
  (exists b, response s' = Some (mkResponse 201 b)) ->
  header_error req = None.
Proof.
  intros H [b Hb].
  destruct H as [m Hh | m Hh Hm | e s1 Hh A | e s1 m Hh Hm A | Hh Hall];
    try assumption.
  run_state_in Hb. discriminate Hb.
Qed.

Lemma header_error_items req :
  header_error req = None -> items_of req <> [].
Proof.
  intros H. apply header_error_none in H. destruct H as [H _].
  unfold items_empty, items_of in *.
  destruct (Request.items req) as [[|i l]|]; congruence.
Qed.

(** X1.  Nothing is deduplicated: the same valid request submitted twice
    in a row (no store call failing) is answered 201 twice and leaves two
    order rows with consecutive ids and the same total, each with its own
    rows of items. *)
Theorem resubmission_creates_a_second_order faults req s :
  idle s ->
  (forall k, faults k = None) ->
  header_error req = None ->
  Forall (fun item =>
            item_invalid item = false /\
            product_exists (durable s) (num (Item.product_id item)))
         (items_of req) ->
  exists o1 o2 rows1 rows2,
    orders (durable (snd (create_order faults req
                            (snd (create_order faults req s)))))
      = orders (durable s) ++ [o1; o2]
    /\ order_items (durable (snd (create_order faults req
                                    (snd (create_order faults req s)))))
       = order_items (durable s) ++ rows1 ++ rows2
    /\ Order.id o1 = auto_increment s
    /\ Order.id o2 = auto_increment s + 1
    /\ Order.total_price o2 = Order.total_price o1
    /\ List.length rows1 = List.length (items_of req)
    /\ List.length rows2 = List.length (items_of req)
    /\ Forall (fun row => OrderItem.order_id row = Order.id o1) rows1
    /\ Forall (fun row => OrderItem.order_id row = Order.id o2) rows2
    /\ (exists b1,
          response (snd (create_order faults req s))
            = Some (mkResponse 201 b1))
    /\ (exists b2,
          response (snd (create_order faults req
                           (snd (create_order faults req s))))
            = Some (mkResponse 201 b2)).
Proof.
  intros Hidle Hnf Hh Hall.
  assert (Hv : view s = durable s) by (unfold view; now rewrite Hidle).
  assert (Hrec : Forall (reconcilable (view s)) (items_of req)).
  { rewrite Hv. eapply Forall_impl; [|exact Hall].
    intros item H. now apply reconcilable_spec. }
  rewrite (created_when_sound faults req s Hnf Hh Hrec). cbn [snd].
  set (s1 := then_released (committed req (enter s))).
  destruct (created_state_facts req s) as [Htx Hai]. fold s1 in Htx, Hai.
  assert (Hd1 : durable s1
                = add_order_items
                    (persisted_rows (durable s) (auto_increment s) (items_of req))
                    (add_order (header_row (durable s) (auto_increment s) req)
                       (durable s))).
  { exact (durable_created req s Hidle). }
  assert (Hp1 : products (durable s1) = products (durable s)).
  { now rewrite Hd1. }
  assert (Hv1 : view s1 = durable s1) by (unfold view; now rewrite Htx).
  destruct (reconciliation_same_products (durable s) (durable s1)
              (items_of req) Hp1) as (Hmap & Htot & Hkeep).
  assert (Hrec1 : Forall (reconcilable (view s1)) (items_of req)).
  { rewrite Hv1. apply Hkeep. now rewrite <- Hv. }
  rewrite (created_when_sound faults req s1 Hnf Hh Hrec1). cbn [snd].
  exists (header_row (durable s) (auto_increment s) req),
         (header_row (durable s1) (auto_increment s1) req),
         (persisted_rows (durable s) (auto_increment s) (items_of req)),
         (persisted_rows (durable s1) (auto_increment s1) (items_of req)).
  rewrite (durable_created req s1 Htx).
  split; [rewrite Hd1; cbn; now rewrite <- app_assoc|].
  split; [rewrite Hd1; cbn; now rewrite <- app_assoc|].
  split; [reflexivity|]. split; [exact Hai|].
  split; [cbn [header_row Order.total_price]; exact Htot|].
  split; [unfold persisted_rows; now rewrite !length_map|].
  split; [unfold persisted_rows; now rewrite !length_map|].
  split; [|split; [|split]].
  - unfold persisted_rows. rewrite map_map. apply Forall_forall.
    intros row Hin. apply in_map_iff in Hin.
    destruct Hin as (item & <- & _). reflexivity.
  - unfold persisted_rows. rewrite map_map. apply Forall_forall.
    intros row Hin. apply in_map_iff in Hin.
    destruct Hin as (item & <- & _). reflexivity.
  - eexists. unfold s1. apply response_created.
  - eexists. apply response_created.
Qed.

Lemma resubmission_creates_a_second_order_witness :
  exists o1 o2 rows1 rows2,
    orders (durable (snd (create_order Sample.no_faults
              (Sample.order [Sample.widget; Sample.gadget])
              (snd (create_order Sample.no_faults
                      (Sample.order [Sample.widget; Sample.gadget])
                      Sample.start)))))
      = orders (durable Sample.start) ++ [o1; o2]
    /\ order_items (durable (snd (create_order Sample.no_faults
              (Sample.order [Sample.widget; Sample.gadget])
              (snd (create_order Sample.no_faults
                      (Sample.order [Sample.widget; Sample.gadget])
                      Sample.start)))))
       = order_items (durable Sample.start) ++ rows1 ++ rows2
    /\ Order.id o1 = 1
    /\ Order.id o2 = 1 + 1
    /\ Order.total_price o2 = Order.total_price o1
    /\ List.length rows1 = 2%nat
    /\ List.length rows2 = 2%nat
    /\ Forall (fun row => OrderItem.order_id row = Order.id o1) rows1
    /\ Forall (fun row => OrderItem.order_id row = Order.id o2) rows2
    /\ (exists b1,
          response (snd (create_order Sample.no_faults
                           (Sample.order [Sample.widget; Sample.gadget])
                           Sample.start))
            = Some (mkResponse 201 b1))
    /\ (exists b2,
          response (snd (create_order Sample.no_faults
                           (Sample.order [Sample.widget; Sample.gadget])
                           (snd (create_order Sample.no_faults
                                   (Sample.order [Sample.widget; Sample.gadget])
                                   Sample.start))))
            = Some (mkResponse 201 b2)).
Proof.
  apply (resubmission_creates_a_second_order Sample.no_faults
           (Sample.order [Sample.widget; Sample.gadget]) Sample.start).
  - reflexivity.
  - reflexivity.
  - reflexivity.
  - repeat (constructor; [split; [reflexivity | vm_compute; auto]|]).
    constructor.
Defined.

(** X2.  Whatever the request and the fault plan, the handler leaves the
    product table as it was and changes the two order tables only by
    appending: at most one order row, and rows of items; no existing row is
    altered or removed. *)
Theorem create_order_only_appends faults req s r s' :
  idle s ->
  create_order faults req s = (r, s') ->
  products (durable s') = products (durable s)
  /\ exists new_orders new_items,
       orders (durable s') = orders (durable s) ++ new_orders
       /\ order_items (durable s') = order_items (durable s) ++ new_items
       /\ (List.length new_orders <= 1)%nat
       /\ (new_orders = [] -> new_items = []).
Proof.
  intros Hidle Erun. apply handled_run in Erun.
  destruct (handled_durable _ _ _ _ _ Erun Hidle) as [-> | [-> _]].
  - split; [reflexivity|]. exists [], [].
    rewrite !app_nil_r. repeat split; cbn; lia.
  - rewrite (durable_created req s Hidle).
    split; [reflexivity|].
    exists [header_row (durable s) (auto_increment s) req],
           (persisted_rows (durable s) (auto_increment s) (items_of req)).
    repeat split; [cbn; lia | discriminate].
Qed.

Lemma create_order_only_appends_witness :
  products (durable (snd (create_order (Sample.fault_at 5)
                            (Sample.order [Sample.widget; Sample.gadget])
                            Sample.start)))
    = products (durable Sample.start)
  /\ exists new_orders new_items,
       orders (durable (snd (create_order (Sample.fault_at 5)
                               (Sample.order [Sample.widget; Sample.gadget])
                               Sample.start)))
         = orders (durable Sample.start) ++ new_orders
       /\ order_items (durable (snd (create_order (Sample.fault_at 5)
                               (Sample.order [Sample.widget; Sample.gadget])
                               Sample.start)))
          = order_items (durable Sample.start) ++ new_items
       /\ (List.length new_orders <= 1)%nat
       /\ (new_orders = [] -> new_items = []).
Proof.
  apply (create_order_only_appends (Sample.fault_at 5)
           (Sample.order [Sample.widget; Sample.gadget]) Sample.start
           (fst (create_order (Sample.fault_at 5)
                   (Sample.order [Sample.widget; Sample.gadget]) Sample.start))).
  - reflexivity.
  - apply surjective_pairing.
Defined.

Lemma decimal_safe z :
  Z.abs z < 2 ^ 53 -> decimal z = NilZero.string_of_int (Z.to_int z).
Proof.
  intros H. unfold decimal.
  destruct (Z.ltb_spec (Z.abs z) (2 ^ 53)); [reflexivity | lia].
Qed.

(** X3.  When the first line item that fails is one that passes the check
    of the loop but names a product the table does not have (no store call
    failing), the answer is 500 and its message names that product id, for
    an id below 2^53 by all its decimal digits; the lookups of the items
    before it and of the item itself were made, in order, then the
    rollback; nothing is persisted. *)
Theorem missing_product_is_named faults req s done bad rest :
  idle s ->
  (forall k, faults k = None) ->
  header_error req = None ->
  items_of req = done ++ bad :: rest ->
  Forall (fun item =>
            item_invalid item = false /\
            product_exists (durable s) (num (Item.product_id item)))
         done ->
  item_invalid bad = false ->
  ~ product_exists (durable s) (num (Item.product_id bad)) ->
  response (snd (create_order faults req s))
    = Some (mkResponse 500
              (Message (Msg.failed
                          (Msg.not_found (num (Item.product_id bad))))))
  /\ (Z.abs (num (Item.product_id bad)) < 2 ^ 53 ->
      response (snd (create_order faults req s))
        = Some (mkResponse 500
                  (Message
                     (String.append "Gagal membuat pesanan: "
                        (String.append "Produk dengan ID "
                           (String.append
                              (NilZero.string_of_int
                                 (Z.to_int (num (Item.product_id bad))))
                              " tidak ditemukan."))))))
  /\ trace (snd (create_order faults req s))
     = trace s
       ++ map ok ([GetConnection; BeginTransaction]
                  ++ select_ops (done ++ [bad]))
       ++ [ok Rollback;
           Responded
             (mkResponse 500
                (Message (Msg.failed
                            (Msg.not_found (num (Item.product_id bad))))));
           ok Release]
  /\ durable (snd (create_order faults req s)) = durable s.
Proof.
  intros Hidle Hnf Hh Hsplit Hdone Hval Hmiss.
  assert (Hv : view s = durable s) by (unfold view; now rewrite Hidle).
  assert (Hrec : Forall (reconcilable (view s)) done).
  { rewrite Hv. eapply Forall_impl; [|exact Hdone].
    intros item H. now apply reconcilable_spec. }
  assert (Hnone : select_price (view s) (num (Item.product_id bad)) = []).
  { rewrite Hv. destruct (select_price (durable s) (num (Item.product_id bad)))
      as [|p l] eqn:E; [reflexivity|].
    exfalso. apply Hmiss. apply product_exists_select. rewrite E. discriminate. }
  destruct (first_missing_product_run faults req s done bad rest
              Hnf Hh Hsplit Hrec Hval Hnone) as (s1 & -> & A & Htr).
  cbn [snd]. split; [reflexivity|]. split; [|split].
  - intros Hsafe.
    rewrite <- (decimal_safe _ Hsafe). reflexivity.
  - rewrite trace_rolled_back, Htr. now rewrite <- app_assoc.
  - run_state. exact (aborted_durable _ _ _ _ _ A Hidle).
Qed.

Lemma missing_product_is_named_witness :
  response (snd (create_order Sample.no_faults
                   (Sample.order [Sample.widget; Sample.ghost; Sample.gadget])
                   Sample.start))
    = Some (mkResponse 500
              (Message (Msg.failed (Msg.not_found 99))))
  /\ response (snd (create_order Sample.no_faults
                      (Sample.order [Sample.widget; Sample.ghost; Sample.gadget])
                      Sample.start))
     = Some (mkResponse 500
               (Message
                  "Gagal membuat pesanan: Produk dengan ID 99 tidak ditemukan."))
  /\ trace (snd (create_order Sample.no_faults
                   (Sample.order [Sample.widget; Sample.ghost; Sample.gadget])
                   Sample.start))
     = trace Sample.start
       ++ map ok ([GetConnection; BeginTransaction]
                  ++ select_ops ([Sample.widget] ++ [Sample.ghost]))
       ++ [ok Rollback;
           Responded
             (mkResponse 500 (Message (Msg.failed (Msg.not_found 99))));
           ok Release]
  /\ durable (snd (create_order Sample.no_faults
                     (Sample.order [Sample.widget; Sample.ghost; Sample.gadget])
                     Sample.start))
     = durable Sample.start.
Proof.
  destruct (missing_product_is_named Sample.no_faults
              (Sample.order [Sample.widget; Sample.ghost; Sample.gadget])
              Sample.start [Sample.widget] Sample.ghost [Sample.gadget])
    as (H1 & H2 & H3 & H4).
  - reflexivity.
  - reflexivity.
  - reflexivity.
  - reflexivity.
  - constructor; [split; [reflexivity | vm_compute; auto] | constructor].
  - reflexivity.
  - vm_compute. intros [H | [H | []]]; discriminate H.
  - split; [exact H1|]. split; [|split; [exact H3 | exact H4]].
    apply H2. reflexivity.
Defined.

Lemma select_price_positive t id :
  Forall (fun p => 0 < Product.price p) (products t) ->
  Forall (fun p => 0 < p) (select_price t id).
Proof.
  unfold select_price. intros H.
  induction H as [|p l Hp _ IH]; cbn; [constructor|].
  destruct (Product.id p =? id); cbn; [constructor|]; assumption.
Qed.

Lemma reconcilable_positive t item :
  Forall (fun p => 0 < Product.price p) (products t) ->
  reconcilable t item ->
  0 < actual_price t item /\ 0 < num (Item.quantity item).
Proof.
  intros Hpos [Hval Hex]. split.
  - unfold actual_price.
    pose proof (select_price_positive t (num (Item.product_id item)) Hpos) as H.
    destruct (select_price t (num (Item.product_id item))) as [|p l];
      [congruence|].
    cbn. now inversion H.
  - unfold item_invalid in Hval.
    repeat (apply orb_false_iff in Hval; destruct Hval as [Hval ?]).
    lia.
Qed.

(** X4.  If every price in the product table is positive, an order that
    is answered 201 has a positive total, in the answer as in the order
    row, and every row persisted for it has a positive price and a positive
    quantity, whatever the fault plan. *)
Theorem order_total_is_positive faults req s r s' b :
  idle s ->
  Forall (fun p => 0 < Product.price p) (products (durable s)) ->
  create_order faults req s = (r, s') ->
  response s' = Some (mkResponse 201 b) ->
  exists o rows,
    orders (durable s') = orders (durable s) ++ [o]
    /\ order_items (durable s') = order_items (durable s) ++ rows
    /\ 0 < Order.total_price o
    /\ b = Created (Order.id o) (Order.customer_identifier o)
             (Order.customer_name o) (Order.total_price o) completed
             Msg.created
    /\ Forall (fun row =>
                 0 < OrderItem.price_at_order row /\ 0 < OrderItem.quantity row)
              rows.
Proof.
  intros Hidle Hpos Erun Hb.
  assert (Hv : view s = durable s) by (unfold view; now rewrite Hidle).
  apply handled_run in Erun.
  pose proof (success_passed_the_guards _ _ _ _ _ Erun (ex_intro _ b Hb)) as Hh.
  destruct (success_is_created _ _ _ _ _ Erun (ex_intro _ b Hb)) as [-> Hall].
  rewrite Hv in Hall.
  rewrite response_created in Hb. injection Hb as <-.
  exists (header_row (durable s) (auto_increment s) req),
         (persisted_rows (durable s) (auto_increment s) (items_of req)).
  rewrite (durable_created req s Hidle).
  split; [reflexivity|]. split; [reflexivity|]. split; [|split].
  - cbn [header_row Order.total_price]. unfold total_in, total_from.
    assert (Hitems : Forall (fun item => 0 < item_total (durable s) item)
                            (items_of req)).
    { eapply Forall_impl; [|exact Hall]. intros item Hit.
      destruct (reconcilable_positive _ _ Hpos Hit).
      unfold item_total, js_mul. apply double_positive. lia. }
    pose proof (header_error_items req Hh) as Hne.
    destruct (items_of req) as [|item l]; [congruence|].
    inversion Hitems as [|? ? Hi Hl]; subst. cbn [fold_left].
    apply fold_positive; [|exact Hl].
    apply double_positive. lia.
  - unfold created_body. now rewrite Hv.
  - unfold persisted_rows. rewrite map_map. apply Forall_forall.
    intros row Hin. apply in_map_iff in Hin.
    destruct Hin as (item & <- & Hin).
    rewrite Forall_forall in Hall.
    exact (reconcilable_positive _ _ Hpos (Hall _ Hin)).
Qed.

Lemma order_total_is_positive_witness :
  exists o rows,
    orders (durable (snd (create_order Sample.no_faults
                            (Sample.order [Sample.widget; Sample.gadget])
                            Sample.start)))
      = orders (durable Sample.start) ++ [o]
    /\ order_items (durable (snd (create_order Sample.no_faults
                            (Sample.order [Sample.widget; Sample.gadget])
                            Sample.start)))
       = order_items (durable Sample.start) ++ rows
    /\ 0 < Order.total_price o
    /\ Created 1 "c1" "Alice" 4000 completed Msg.created
       = Created (Order.id o) (Order.customer_identifier o)
           (Order.customer_name o) (Order.total_price o) completed
           Msg.created
    /\ Forall (fun row =>
                 0 < OrderItem.price_at_order row /\ 0 < OrderItem.quantity row)
              rows.
Proof.
  apply (order_total_is_positive Sample.no_faults
           (Sample.order [Sample.widget; Sample.gadget]) Sample.start
           (fst (create_order Sample.no_faults
                   (Sample.order [Sample.widget; Sample.gadget]) Sample.start))
           (snd (create_order Sample.no_faults
                   (Sample.order [Sample.widget; Sample.gadget]) Sample.start))).
  - reflexivity.
  - repeat constructor.
  - apply surjective_pairing.
  - reflexivity.
Defined.

(** ** Completing an order *)

Lemma filter_none {A} (f : A -> bool) l :
  List.length (filter f l) = 0%nat <-> Forall (fun x => f x = false) l.
Proof.
  induction l as [|x l IH]; cbn; [split; [constructor | reflexivity]|].
  destruct (f x) eqn:E; cbn.
  - split; [discriminate|]. intros H. inversion H; congruence.
  - rewrite IH. split; [now constructor | now inversion 1].
Qed.

Lemma map_unmatched {A} (f : A -> bool) (g : A -> A) l :
  Forall (fun x => f x = false) l ->
  map (fun x => if f x then g x else x) l = l.
Proof.
  intros H. induction H as [|x l Hx _ IH]; cbn; [reflexivity|].
  now rewrite Hx, IH.
Qed.

Lemma update_status_unmatched id t :
  Forall (fun o => (Order.id o =? id) && is_pending o = false) (orders t) ->
  update_status id t = (0%nat, t).
Proof.
  intros H. unfold update_status.
  rewrite (map_unmatched _ _ _ H).
  apply filter_none in H. rewrite H. now destruct t.
Qed.

Lemma set_completed_completed o :
  is_pending o = false -> set_completed o = o.
Proof.
  unfold is_pending, set_completed. destruct o as [i ci cn tp st]; cbn.
  now destruct st.
Qed.

(** After the update no order with that id is pending. *)
Lemma update_status_settles id t :
  Forall (fun o => (Order.id o =? id) && is_pending o = false)
         (orders (snd (update_status id t))).
Proof.
  unfold update_status; cbn. apply Forall_forall. intros o' Hin.
  apply in_map_iff in Hin. destruct Hin as (o & <- & _).
  destruct ((Order.id o =? id) && is_pending o) eqn:E; [|exact E].
  cbn. apply andb_false_r.
Qed.

Lemma complete_order_run faults as_number id s :
  complete_order faults as_number id s =
    match faults (clock s) with
    | Some _ => (Refused 500 Txt.complete_failed, tick s)
    | None =>
        (if (fst (update_status (as_number id) (durable s)) =? 0)%nat
         then Refused 404 Txt.not_pending
         else Sent 200 (Txt.order_completed id),
         tick (set_durable (snd (update_status (as_number id) (durable s))) s))
    end.
Proof.
  unfold complete_order, answer, bind, pool_query, ret.
  destruct (faults (clock s)); [reflexivity|].
  now destruct (fst (update_status (as_number id) (durable s)) =? 0)%nat.
Qed.

(** X5.  When the call to the store does not fail and an order with the
    id of the URL is pending, the answer is 200 with the message naming the
    id as it stood in the URL.  The table of orders has the same rows in
    the same places, each with the id, customer and total it had; the
    status of every order with that id is completed, and the status of
    every other order is what it was.  The products and the rows of items
    are untouched. *)
Theorem complete_order_marks_the_order faults as_number id s :
  faults (clock s) = None ->
  Exists (fun o => Order.id o = as_number id /\ Order.status o = pending)
         (orders (durable s)) ->
  fst (complete_order faults as_number id s)
    = Sent 200 (Txt.order_completed id)
  /\ Forall2 (fun o o' =>
                Order.id o' = Order.id o
                /\ Order.customer_identifier o' = Order.customer_identifier o
                /\ Order.customer_name o' = Order.customer_name o
                /\ Order.total_price o' = Order.total_price o
                /\ Order.status o'
                   = if Order.id o =? as_number id then completed
                     else Order.status o)
             (orders (durable s))
             (orders (durable (snd (complete_order faults as_number id s))))
  /\ products (durable (snd (complete_order faults as_number id s)))
     = products (durable s)
  /\ order_items (durable (snd (complete_order faults as_number id s)))
     = order_items (durable s).
Proof.
  intros Hnf Hex. rewrite complete_order_run, Hnf. cbn [fst snd].
  split; [|split; [|split; reflexivity]].
  - destruct (fst (update_status (as_number id) (durable s)) =? 0)%nat eqn:E;
      [|reflexivity].
    exfalso. apply Nat.eqb_eq in E. unfold update_status in E; cbn in E.
    apply filter_none in E. rewrite Forall_forall in E.
    apply Exists_exists in Hex. destruct Hex as (o & Hin & Hid & Hst).
    specialize (E o Hin). unfold is_pending in E. rewrite Hst, Hid in E.
    rewrite Z.eqb_refl in E. discriminate E.
  - cbn. apply Forall2_map_right with (P := fun _ => True);
      [|apply Forall_forall; trivial].
    intros o _. unfold is_pending.
    destruct (Order.id o =? as_number id); cbn [andb];
      [|repeat split].
    destruct o as [i ci cn tp st]; destruct st; cbn; repeat split.
Qed.

Lemma complete_order_marks_the_order_witness :
  fst (complete_order Sample.no_faults Demo.as_number "1" Demo.waiting)
    = Sent 200 (Txt.order_completed "1")
  /\ orders (durable (snd (complete_order Sample.no_faults Demo.as_number "1"
                             Demo.waiting)))
     = [Order.mk 1 "c1" "Alice" 2000 completed;
        Order.mk 2 "c2" "Bob" 500 completed]
  /\ Forall2 (fun o o' =>
                Order.id o' = Order.id o
                /\ Order.customer_identifier o' = Order.customer_identifier o
                /\ Order.customer_name o' = Order.customer_name o
                /\ Order.total_price o' = Order.total_price o
                /\ Order.status o'
                   = if Order.id o =? Demo.as_number "1" then completed
                     else Order.status o)
             (orders (durable Demo.waiting))
             (orders (durable (snd (complete_order Sample.no_faults
                                      Demo.as_number "1" Demo.waiting))))
  /\ products (durable (snd (complete_order Sample.no_faults Demo.as_number "1"
                               Demo.waiting)))
     = products (durable Demo.waiting)
  /\ order_items (durable (snd (complete_order Sample.no_faults Demo.as_number
                                  "1" Demo.waiting)))
     = order_items (durable Demo.waiting).
Proof.
  destruct (complete_order_marks_the_order Sample.no_faults Demo.as_number "1"
              Demo.waiting) as (H1 & H2 & H3 & H4).
  - reflexivity.
  - constructor. split; reflexivity.
  - split; [exact H1|]. split; [reflexivity|].
    split; [exact H2|]. split; [exact H3 | exact H4].
Defined.

(** X6.  Whatever the fault plan, the answer is 200 only if the call did
    not fail and an order with that id was pending; otherwise it is 404
    (the call returned and no order with that id was pending: none, or
    already completed) or 500 (the call failed), and in both cases every
    table is as it was. *)
Theorem complete_order_refusals faults as_number id s :
  match fst (complete_order faults as_number id s) with
  | Sent code _ =>
      code = 200
      /\ faults (clock s) = None
      /\ Exists (fun o => Order.id o = as_number id /\ Order.status o = pending)
                (orders (durable s))
  | Refused code message =>
      durable (snd (complete_order faults as_number id s)) = durable s
      /\ ((code = 404 /\ message = Txt.not_pending
           /\ faults (clock s) = None
           /\ Forall (fun o => Order.id o = as_number id ->
                               Order.status o = completed)
                     (orders (durable s)))
          \/ (code = 500 /\ message = Txt.complete_failed
              /\ faults (clock s) <> None))
  end.
Proof.
  rewrite complete_order_run.
  destruct (faults (clock s)) as [m|] eqn:Hf; cbn [fst snd].
  { split; [reflexivity|]. right. repeat split. discriminate. }
  destruct (fst (update_status (as_number id) (durable s)) =? 0)%nat eqn:E.
  - apply Nat.eqb_eq in E. unfold update_status in E; cbn [fst] in E.
    apply filter_none in E.
    rewrite (update_status_unmatched _ _ E). split; [reflexivity|].
    left. repeat split.
    eapply Forall_impl; [|exact E]. intros o Ho Hid. cbn beta in Ho.
    rewrite Hid, Z.eqb_refl in Ho. unfold is_pending in Ho.
    now destruct (Order.status o).
  - split; [reflexivity|]. split; [reflexivity|].
    apply Nat.eqb_neq in E. unfold update_status in E; cbn [fst] in E.
    destruct (filter (fun o => (Order.id o =? as_number id) && is_pending o)
                     (orders (durable s))) as [|o l] eqn:F; [now cbn in E|].
    assert (Hin : In o (filter (fun o => (Order.id o =? as_number id)
                                         && is_pending o)
                               (orders (durable s)))).
    { rewrite F. now left. }
    apply filter_In in Hin. destruct Hin as [Hin Ho].
    apply andb_true_iff in Ho. destruct Ho as [Hid Hp].
    apply Exists_exists. exists o. split; [exact Hin|].
    split; [now apply Z.eqb_eq|].
    unfold is_pending in Hp. now destruct (Order.status o).
Qed.

(** X7.  Completing is not repeatable for the caller: when neither call
    fails, the second request for the same id is answered 404 and changes
    nothing, whatever the first one found. *)
Theorem complete_order_twice faults as_number id s :
  faults (clock s) = None ->
  faults (S (clock s)) = None ->
  fst (complete_order faults as_number id
         (snd (complete_order faults as_number id s)))
    = Refused 404 Txt.not_pending
  /\ durable (snd (complete_order faults as_number id
                     (snd (complete_order faults as_number id s))))
     = durable (snd (complete_order faults as_number id s)).
Proof.
  intros H1 H2.
  rewrite (complete_order_run faults as_number id s), H1. cbn [snd].
  rewrite complete_order_run.
  change (clock (tick (set_durable
                         (snd (update_status (as_number id) (durable s))) s)))
    with (S (clock s)).
  rewrite H2.
  change (durable (tick (set_durable
                           (snd (update_status (as_number id) (durable s))) s)))
    with (snd (update_status (as_number id) (durable s))).
  rewrite (update_status_unmatched _ _
             (update_status_settles (as_number id) (durable s))).
  split; reflexivity.
Qed.

Lemma complete_order_twice_witness :
  fst (complete_order Sample.no_faults Demo.as_number "1"
         (snd (complete_order Sample.no_faults Demo.as_number "1" Demo.waiting)))
    = Refused 404 Txt.not_pending
  /\ durable (snd (complete_order Sample.no_faults Demo.as_number "1"
                     (snd (complete_order Sample.no_faults Demo.as_number "1"
                             Demo.waiting))))
     = durable (snd (complete_order Sample.no_faults Demo.as_number "1"
                       Demo.waiting)).
Proof.
  apply (complete_order_twice Sample.no_faults Demo.as_number "1" Demo.waiting);
    reflexivity.
Defined.

Lemma complete_order_unmatched faults as_number id s :
  Forall (fun o => (Order.id o =? as_number id) && is_pending o = false)
         (orders (durable s)) ->
  (exists code message,
     fst (complete_order faults as_number id s) = Refused code message
     /\ (faults (clock s) = None -> code = 404))
  /\ durable (snd (complete_order faults as_number id s)) = durable s.
Proof.
  intros Hnone. rewrite complete_order_run.
  rewrite (update_status_unmatched _ _ Hnone).
  destruct (faults (clock s)) as [m|]; cbn [fst snd Nat.eqb].
  - split; [|reflexivity].
    exists 500, Txt.complete_failed. split; [reflexivity | discriminate].
  - split; [|reflexivity].
    exists 404, Txt.not_pending. split; reflexivity.
Qed.

(** X8.  An order that the order-creation handler has just created cannot
    be completed through [PUT /api/orders/:id/complete]: it is stored as
    completed, so the request for its id is refused (404 when the call to
    the store returns) and changes nothing. *)
Theorem created_order_is_not_pending faults faults2 as_number req s r s' b id :
  idle s ->
  fresh_order_id s ->
  create_order faults req s = (r, s') ->
  response s' = Some (mkResponse 201 b) ->
  as_number id = auto_increment s ->
  (exists code message,
     fst (complete_order faults2 as_number id s') = Refused code message
     /\ (faults2 (clock s') = None -> code = 404))
  /\ durable (snd (complete_order faults2 as_number id s')) = durable s'.
Proof.
  intros Hidle [Hfresh _] Erun Hb Hid.
  apply handled_run in Erun.
  destruct (success_is_created _ _ _ _ _ Erun (ex_intro _ b Hb)) as [Es _].
  assert (Hd : durable s'
               = add_order_items
                   (persisted_rows (durable s) (auto_increment s) (items_of req))
                   (add_order (header_row (durable s) (auto_increment s) req)
                      (durable s))).
  { rewrite Es. exact (durable_created req s Hidle). }
  apply complete_order_unmatched.
  rewrite Hd, Hid. cbn [orders add_order_items add_order].
  apply Forall_app. split.
  - eapply Forall_impl; [|exact Hfresh]. intros o Ho. cbn beta in *.
    replace (Order.id o =? auto_increment s) with false; [reflexivity|].
    symmetry. apply Z.eqb_neq. lia.
  - constructor; [|constructor]. apply andb_false_r.
Qed.

Lemma created_order_is_not_pending_witness :
  (exists code message,
     fst (complete_order Sample.no_faults Demo.as_number "1"
            (snd (create_order Sample.no_faults (Sample.order [Sample.widget])
                    Sample.start)))
       = Refused code message
     /\ (Sample.no_faults
           (clock (snd (create_order Sample.no_faults
                          (Sample.order [Sample.widget]) Sample.start)))
         = None -> code = 404))
  /\ durable (snd (complete_order Sample.no_faults Demo.as_number "1"
                     (snd (create_order Sample.no_faults
                             (Sample.order [Sample.widget]) Sample.start))))
     = durable (snd (create_order Sample.no_faults
                       (Sample.order [Sample.widget]) Sample.start)).
Proof.
  apply (created_order_is_not_pending Sample.no_faults Sample.no_faults
           Demo.as_number (Sample.order [Sample.widget]) Sample.start
           (fst (create_order Sample.no_faults (Sample.order [Sample.widget])
                   Sample.start))
           (snd (create_order Sample.no_faults (Sample.order [Sample.widget])
                   Sample.start))
           (Created 1 "c1" "Alice" 3000 completed Msg.created) "1").
  - reflexivity.
  - split; constructor.
  - apply surjective_pairing.
  - reflexivity.
  - reflexivity.
Defined.

(** ** Listing orders *)

(** The loop that attaches the items reads and never writes; it ends
    with every order paired with its rows, or with the first failure. *)
Lemma attach_items_run {R} faults (id : R -> Z) rows : forall s,
  durable (snd (attach_items faults id rows s)) = durable s
  /\ match fst (attach_items faults id rows s) with
     | Ok l => l = map (fun o => (o, select_items (durable s) (id o))) rows
     | Throw _ => exists k, (clock s <= k)%nat /\ faults k <> None
     end.
Proof.
  induction rows as [|o rows IH]; intros s; [now split|].
  cbn [attach_items]. unfold bind, pool_query, reading, ret.
  destruct (faults (clock s)) as [m|] eqn:Hf; cbn [fst snd].
  - split; [reflexivity|]. exists (clock s). split; [lia | congruence].
  - specialize (IH (tick (set_durable (durable s) s))).
    destruct (attach_items faults id rows (tick (set_durable (durable s) s)))
      as [[l|e] s2]; cbn [fst snd] in *; destruct IH as [Hd IH].
    + split; [exact Hd|]. cbn [map]. now rewrite IH.
    + split; [exact Hd|]. destruct IH as (k & Hk & Hfk).
      exists k. split; [cbn in Hk; lia | exact Hfk].
Qed.

Lemma list_orders_run faults newest_first s :
  durable (snd (list_orders faults newest_first s)) = durable s
  /\ (fst (list_orders faults newest_first s)
        = Sent 200 (map (fun o => (o, select_items (durable s) (Order.id o)))
                        (newest_first (orders (durable s))))
      \/ (fst (list_orders faults newest_first s) = Refused 500 Txt.list_failed
          /\ exists k, (clock s <= k)%nat /\ faults k <> None)).
Proof.
  unfold list_orders, answer, bind, pool_query, reading, ret.
  destruct (faults (clock s)) as [m|] eqn:Hf; cbn [fst snd].
  - split; [reflexivity|]. right. split; [reflexivity|].
    exists (clock s). split; [lia | congruence].
  - pose proof (attach_items_run faults Order.id
                  (newest_first (orders (durable s)))
                  (tick (set_durable (durable s) s))) as [Hd H].
    destruct (attach_items faults Order.id (newest_first (orders (durable s)))
                (tick (set_durable (durable s) s)))
      as [[l|e] s2]; cbn [fst snd] in *.
    + split; [exact Hd|]. left. now rewrite H.
    + split; [exact Hd|]. right. split; [reflexivity|].
      destruct H as (k & Hk & Hfk). exists k.
      split; [cbn in Hk; lia | exact Hfk].
Qed.

(** What the item query gives for an order id: one entry per row of
    [order_items] that bears the id, in table order, with the five columns
    of the row. *)
Lemma select_items_columns t order_id :
  Forall2 (fun row entry =>
             Reconciled.product_id entry = OrderItem.product_id row
             /\ Reconciled.quantity entry = OrderItem.quantity row
             /\ Reconciled.price_at_order entry = OrderItem.price_at_order row
             /\ Reconciled.product_name entry = OrderItem.product_name row
             /\ Reconciled.image_url entry = OrderItem.image_url row)
          (filter (fun r => OrderItem.order_id r =? order_id) (order_items t))
          (select_items t order_id).
Proof.
  unfold select_items.
  apply Forall2_map_right with (P := fun _ => True);
    [|apply Forall_forall; trivial].
  intros row _. repeat split.
Qed.

(** The columns determine the entries. *)
Lemma columns_determine_entries rows : forall entries entries',
  Forall2 (fun row entry =>
             Reconciled.product_id entry = OrderItem.product_id row
             /\ Reconciled.quantity entry = OrderItem.quantity row
             /\ Reconciled.price_at_order entry = OrderItem.price_at_order row
             /\ Reconciled.product_name entry = OrderItem.product_name row
             /\ Reconciled.image_url entry = OrderItem.image_url row)
          rows entries ->
  Forall2 (fun row entry =>
             Reconciled.product_id entry = OrderItem.product_id row
             /\ Reconciled.quantity entry = OrderItem.quantity row
             /\ Reconciled.price_at_order entry = OrderItem.price_at_order row
             /\ Reconciled.product_name entry = OrderItem.product_name row
             /\ Reconciled.image_url entry = OrderItem.image_url row)
          rows entries' ->
  entries = entries'.
Proof.
  induction rows as [|row rows IH]; intros entries entries' H H';
    inversion H as [|? e ? l (A1 & A2 & A3 & A4 & A5) Hl]; subst;
    inversion H' as [|? e' ? l' (B1 & B2 & B3 & B4 & B5) Hl']; subst;
    [reflexivity|].
  f_equal; [|now apply IH].
  destruct e, e'; cbn in *. congruence.
Qed.

(** X9.  [GET /api/orders] never writes and never answers with a part of
    the list: whatever the fault plan, the tables are as they were, and the
    answer is either 500 with the fixed message, or 200 with every order of
    the table exactly once, each carrying one entry for each row of
    [order_items] that bears its id and for no other row, in table order,
    with the product id, quantity, price, name and image of the row.  With
    no call failing it is the latter. *)
Theorem list_orders_all_or_nothing faults newest_first s :
  (forall l, Permutation (newest_first l) l) ->
  durable (snd (list_orders faults newest_first s)) = durable s
  /\ ((exists rows,
         fst (list_orders faults newest_first s) = Sent 200 rows
         /\ Permutation (map fst rows) (orders (durable s))
         /\ Forall (fun row =>
                      Forall2 (fun r entry =>
                                 Reconciled.product_id entry
                                   = OrderItem.product_id r
                                 /\ Reconciled.quantity entry
                                    = OrderItem.quantity r
                                 /\ Reconciled.price_at_order entry
                                    = OrderItem.price_at_order r
                                 /\ Reconciled.product_name entry
                                    = OrderItem.product_name r
                                 /\ Reconciled.image_url entry
                                    = OrderItem.image_url r)
                              (filter (fun r => OrderItem.order_id r
                                                =? Order.id (fst row))
                                      (order_items (durable s)))
                              (snd row))
                   rows)
      \/ (fst (list_orders faults newest_first s) = Refused 500 Txt.list_failed
          /\ exists k, faults k <> None))
  /\ ((forall k, faults k = None) ->
      exists rows, fst (list_orders faults newest_first s) = Sent 200 rows).
Proof.
  intros Hperm.
  destruct (list_orders_run faults newest_first s) as [Hd [H | [H (k & _ & Hk)]]].
  - split; [exact Hd|]. split.
    + left. eexists. split; [exact H|]. split.
      * rewrite map_map. cbn [fst]. rewrite map_id. apply Hperm.
      * apply Forall_forall. intros row Hin. apply in_map_iff in Hin.
        destruct Hin as (o & <- & _). cbn [fst snd].
        apply select_items_columns.
    + intros _. eexists. exact H.
  - split; [exact Hd|]. split.
    + right. split; [exact H | now exists k].
    + intros Hnf. now rewrite Hnf in Hk.
Qed.

Lemma list_orders_all_or_nothing_witness :
  durable (snd (list_orders Sample.no_faults Demo.newest_first Demo.waiting))
    = durable Demo.waiting
  /\ fst (list_orders Sample.no_faults Demo.newest_first Demo.waiting)
     = Sent 200
         [(Order.mk 2 "c2" "Bob" 500 completed,
           [Reconciled.mk 1 1 500 "Gadget" None]);
          (Order.mk 1 "c1" "Alice" 2000 pending,
           [Reconciled.mk 7 2 1000 "Widget" None])]
  /\ exists rows,
       fst (list_orders Sample.no_faults Demo.newest_first Demo.waiting)
         = Sent 200 rows.
Proof.
  destruct (list_orders_all_or_nothing Sample.no_faults Demo.newest_first
              Demo.waiting) as (H1 & _ & H3).
  - intros l. apply Permutation_sym. apply Permutation_rev.
  - split; [exact H1|]. split; [reflexivity|]. apply H3. reflexivity.
Defined.

Lemma order_history_run faults newest_first same_text cid s :
  blank cid = false ->
  durable (snd (order_history faults newest_first same_text cid s)) = durable s
  /\ (fst (order_history faults newest_first same_text cid s)
        = Sent 200
            (map (fun p => (p, select_items (durable s) (Past.id p)))
                 (select_history newest_first same_text (str cid) (durable s)))
      \/ (fst (order_history faults newest_first same_text cid s)
            = Refused 500 Txt.history_failed
          /\ exists k, (clock s <= k)%nat /\ faults k <> None)).
Proof.
  intros Hb. unfold order_history. rewrite Hb.
  unfold answer, bind, pool_query, reading, ret.
  destruct (faults (clock s)) as [m|] eqn:Hf; cbn [fst snd].
  - split; [reflexivity|]. right. split; [reflexivity|].
    exists (clock s). split; [lia | congruence].
  - pose proof (attach_items_run faults Past.id
                  (select_history newest_first same_text (str cid) (durable s))
                  (tick (set_durable (durable s) s))) as [Hd H].
    destruct (attach_items faults Past.id
                (select_history newest_first same_text (str cid) (durable s))
                (tick (set_durable (durable s) s)))
      as [[l|e] s2]; cbn [fst snd] in *.
    + split; [exact Hd|]. left. now rewrite H.
    + split; [exact Hd|]. right. split; [reflexivity|].
      destruct H as (k & Hk & Hfk). exists k.
      split; [cbn in Hk; lia | exact Hfk].
Qed.

Lemma select_history_spec newest_first same_text c t p :
  (forall l, Permutation (newest_first l) l) ->
  In p (select_history newest_first same_text c t) <->
  exists o,
    In o (orders t)
    /\ same_text (Order.customer_identifier o) c = true
    /\ Order.status o = completed
    /\ p = past_columns o.
Proof.
  intros Hperm. unfold select_history. rewrite in_map_iff. split.
  - intros (o & <- & Hin).
    apply (Permutation_in _ (Hperm _)) in Hin.
    apply filter_In in Hin. destruct Hin as [Hin Hc].
    apply andb_true_iff in Hc. destruct Hc as [Hc Hs].
    exists o. repeat split; try assumption.
    unfold is_completed in Hs. now destruct (Order.status o).
  - intros (o & Hin & Hc & Hs & ->). exists o. split; [reflexivity|].
    apply (Permutation_in _ (Permutation_sym (Hperm _))).
    apply filter_In. split; [exact Hin|].
    unfold is_completed. now rewrite Hc, Hs.
Qed.

(** X10.  [GET /api/orders/history/:customerIdentifier].  The parameter
    of the route is a string (an empty one does not match the route).  Made
    of white space only, it is refused with 400 and no store access.
    Otherwise the tables are left as they were, whatever the fault plan,
    and the answer is 500 with the fixed message or 200 with exactly the
    completed orders whose customer identifier the store takes for the one
    asked: a pending order, or an order of another customer, is never
    listed; an order listed shows its id, customer name, total and status,
    and carries one entry for each row of [order_items] that bears its id
    and for no other row, with the five columns of the row. *)
Theorem order_history_lists_completed_orders faults newest_first same_text cid s :
  (forall l, Permutation (newest_first l) l) ->
  (all_white_space cid = true ->
   order_history faults newest_first same_text (Some cid) s
     = (Refused 400 Txt.history_needs_identifier, s))
  /\ (all_white_space cid = false ->
      durable (snd (order_history faults newest_first same_text (Some cid) s))
        = durable s
      /\ ((exists rows,
             fst (order_history faults newest_first same_text (Some cid) s)
               = Sent 200 rows
             /\ forall p entries,
                  In (p, entries) rows <->
                  exists o,
                    In o (orders (durable s))
                    /\ same_text (Order.customer_identifier o) cid = true
                    /\ Order.status o = completed
                    /\ p = Past.mk (Order.id o) (Order.customer_name o)
                             (Order.total_price o) (Order.status o)
                    /\ Forall2 (fun r entry =>
                                  Reconciled.product_id entry
                                    = OrderItem.product_id r
                                  /\ Reconciled.quantity entry
                                     = OrderItem.quantity r
                                  /\ Reconciled.price_at_order entry
                                     = OrderItem.price_at_order r
                                  /\ Reconciled.product_name entry
                                     = OrderItem.product_name r
                                  /\ Reconciled.image_url entry
                                     = OrderItem.image_url r)
                               (filter (fun r => OrderItem.order_id r
                                                 =? Order.id o)
                                       (order_items (durable s)))
                               entries)
          \/ (fst (order_history faults newest_first same_text (Some cid) s)
                = Refused 500 Txt.history_failed
              /\ exists k, faults k <> None))
      /\ ((forall k, faults k = None) ->
          exists rows,
            fst (order_history faults newest_first same_text (Some cid) s)
              = Sent 200 rows)).
Proof.
  intros Hperm.
  change (all_white_space cid) with (empty_or_white (Some cid)).
  rewrite <- blank_spec. split.
  - intros Hb. unfold order_history. now rewrite Hb.
  - intros Hb.
    destruct (order_history_run faults newest_first same_text (Some cid) s Hb)
      as [Hd [H | [H (k & _ & Hk)]]].
    + split; [exact Hd|]. split; [|intros _; eexists; exact H].
      left. eexists. split; [exact H|].
      intros p entries. rewrite in_map_iff. split.
      * intros (p' & [= -> <-] & Hin).
        apply (select_history_spec _ _ _ _ _ Hperm) in Hin.
        destruct Hin as (o & Hin & Hc & Hs & ->).
        exists o. repeat split; try assumption.
        apply select_items_columns.
      * intros (o & Hin & Hc & Hs & -> & Hcols).
        exists (past_columns o). split.
        { f_equal. symmetry.
          exact (columns_determine_entries _ _ _ Hcols
                   (select_items_columns (durable s) (Order.id o))). }
        apply (select_history_spec _ _ _ _ _ Hperm). now exists o.
    + split; [exact Hd|]. split.
      * right. split; [exact H | now exists k].
      * intros Hnf. now rewrite Hnf in Hk.
Qed.

Lemma order_history_lists_completed_orders_witness :
  order_history Sample.no_faults Demo.newest_first Demo.same_text
    (Some "  "%string) Demo.waiting
    = (Refused 400 Txt.history_needs_identifier, Demo.waiting)
  /\ durable (snd (order_history Sample.no_faults Demo.newest_first
                     Demo.same_text (Some "c2"%string) Demo.waiting))
     = durable Demo.waiting
  /\ fst (order_history Sample.no_faults Demo.newest_first Demo.same_text
            (Some "c2"%string) Demo.waiting)
     = Sent 200 [(Past.mk 2 "Bob" 500 completed,
                  [Reconciled.mk 1 1 500 "Gadget" None])]
  /\ fst (order_history Sample.no_faults Demo.newest_first Demo.same_text
            (Some "c1"%string) Demo.waiting)
     = Sent 200 [].
Proof.
  assert (Hperm : forall l, Permutation (Demo.newest_first l) l).
  { intros l. apply Permutation_sym. apply Permutation_rev. }
  split.
  - apply (proj1 (order_history_lists_completed_orders Sample.no_faults
                    Demo.newest_first Demo.same_text "  "%string
                    Demo.waiting Hperm)).
    reflexivity.
  - destruct (proj2 (order_history_lists_completed_orders Sample.no_faults
                       Demo.newest_first Demo.same_text "c2"%string
                       Demo.waiting Hperm) eq_refl) as (H1 & _ & _).
    split; [exact H1|]. split; reflexivity.
Defined.

Lemma item_columns_of_row order_id item :
  item_columns (order_item_row order_id item) = item.
Proof. now destruct item. Qed.

(** The rows of a new order are the only ones with its id. *)
Lemma select_items_fresh t old order_id l :
  order_items t = old ++ map (order_item_row order_id) l ->
  Forall (fun r => OrderItem.order_id r < order_id) old ->
  select_items t order_id = l.
Proof.
  intros E Hold. unfold select_items. rewrite E, filter_app, map_app.
  assert (H1 : filter (fun r => OrderItem.order_id r =? order_id) old = []).
  { clear E. induction Hold as [|r old Hr _ IH]; cbn; [reflexivity|].
    replace (OrderItem.order_id r =? order_id) with false; [exact IH|].
    symmetry. apply Z.eqb_neq. lia. }
  rewrite H1. cbn [map app]. clear E H1.
  induction l as [|d l IH]; [reflexivity|].
  cbn [map filter].
  change (OrderItem.order_id (order_item_row order_id d)) with order_id.
  rewrite Z.eqb_refl. cbn [map]. now rewrite item_columns_of_row, IH.
Qed.

(** X11.  An order that has been created shows in the history of its
    customer: after a 201, the history asked (no call failing) under the
    identifier that was submitted lists the new order with the id and the
    total of the answer, as completed, with one entry per line item, in
    submission order, holding the product id, quantity and name sent, the
    image sent or [null], and the price the table held for the product
    when the order was created. *)
Theorem created_order_shows_in_history
    faults faults2 newest_first same_text req s r s'
    order_id ci cn total st message :
  idle s ->
  fresh_order_id s ->
  (forall l, Permutation (newest_first l) l) ->
  same_text ci ci = true ->
  (forall k, faults2 k = None) ->
  create_order faults req s = (r, s') ->
  response s' = Some (mkResponse 201 (Created order_id ci cn total st message)) ->
  exists rows entries,
    fst (order_history faults2 newest_first same_text
           (Request.customerIdentifier req) s')
      = Sent 200 rows
    /\ In (Past.mk order_id cn total completed, entries) rows
    /\ Forall2 (fun item entry =>
                  Reconciled.product_id entry = num (Item.product_id item)
                  /\ Reconciled.quantity entry = num (Item.quantity item)
                  /\ Reconciled.product_name entry = str (Item.name item)
                  /\ authoritative_price (durable s)
                       (num (Item.product_id item))
                     = Some (Reconciled.price_at_order entry)
                  /\ match Item.image_url item with
                     | Some (String c u) =>
                         Reconciled.image_url entry = Some (String c u)
                     | Some EmptyString | None =>
                         Reconciled.image_url entry = None
                     end)
               (items_of req) entries.
Proof.
  intros Hidle [_ Hfresh] Hperm Hsame Hnf Erun Hb.
  assert (Hv : view s = durable s) by (unfold view; now rewrite Hidle).
  apply handled_run in Erun.
  pose proof (success_passed_the_guards _ _ _ _ _ Erun
                (ex_intro _ _ Hb)) as Hh.
  destruct (success_is_created _ _ _ _ _ Erun (ex_intro _ _ Hb)) as [Es Hall].
  rewrite Hv in Hall.
  assert (Hd : durable s'
               = add_order_items
                   (persisted_rows (durable s) (auto_increment s) (items_of req))
                   (add_order (header_row (durable s) (auto_increment s) req)
                      (durable s))).
  { rewrite Es. exact (durable_created req s Hidle). }
  assert (Hbody : Created order_id ci cn total st message = created_body req s).
  { rewrite Es, response_created in Hb. congruence. }
  clear Es Erun Hb.
  unfold created_body in Hbody. rewrite Hv in Hbody.
  injection Hbody as -> -> -> -> -> ->.
  assert (Hblank : blank (Request.customerIdentifier req) = false).
  { unfold header_error in Hh.
    destruct (no_items req); [discriminate|].
    now destruct (blank (Request.customerIdentifier req)). }
  destruct (order_history_run faults2 newest_first same_text
              (Request.customerIdentifier req) s' Hblank)
    as [_ [H | [_ (k & _ & Hk)]]]; [|now rewrite Hnf in Hk].
  exists (map (fun p => (p, select_items (durable s') (Past.id p)))
              (select_history newest_first same_text
                 (str (Request.customerIdentifier req)) (durable s'))),
         (map (reconciled_in (durable s)) (items_of req)).
  split; [exact H|]. split.
  - apply in_map_iff.
    exists (past_columns (header_row (durable s) (auto_increment s) req)).
    split.
    + f_equal. cbn [past_columns header_row Past.id Order.id].
      apply (select_items_fresh _ (order_items (durable s))).
      * rewrite Hd. reflexivity.
      * exact Hfresh.
    + apply (select_history_spec _ _ _ _ _ Hperm).
      exists (header_row (durable s) (auto_increment s) req).
      split; [|split; [exact Hsame | split; reflexivity]].
      rewrite Hd. cbn [orders add_order_items add_order].
      apply in_or_app. right. now left.
  - apply Forall2_map_right
      with (P := fun item => product_exists (durable s)
                               (num (Item.product_id item))).
    + intros item Hex.
      split; [reflexivity|]. split; [reflexivity|]. split; [reflexivity|].
      split; [exact (proj1 (actual_price_of (durable s) item Hex))|].
      cbn. unfold or_null.
      destruct (Item.image_url item) as [[|c u]|]; reflexivity.
    + eapply Forall_impl; [|exact Hall].
      intros item Hit. now apply reconcilable_spec in Hit.
Qed.

Lemma created_order_shows_in_history_witness :
  exists rows entries,
    fst (order_history Sample.no_faults Demo.newest_first Demo.same_text
           (Request.customerIdentifier
              (Sample.order [Sample.widget; Sample.gadget]))
           (snd (create_order Sample.no_faults
                   (Sample.order [Sample.widget; Sample.gadget]) Sample.start)))
      = Sent 200 rows
    /\ In (Past.mk 1 "Alice" 4000 completed, entries) rows
    /\ Forall2 (fun item entry =>
                  Reconciled.product_id entry = num (Item.product_id item)
                  /\ Reconciled.quantity entry = num (Item.quantity item)
                  /\ Reconciled.product_name entry = str (Item.name item)
                  /\ authoritative_price (durable Sample.start)
                       (num (Item.product_id item))
                     = Some (Reconciled.price_at_order entry)
                  /\ match Item.image_url item with
                     | Some (String c u) =>
                         Reconciled.image_url entry = Some (String c u)
                     | Some EmptyString | None =>
                         Reconciled.image_url entry = None
                     end)
               (items_of (Sample.order [Sample.widget; Sample.gadget]))
               entries.
Proof.
  apply (created_order_shows_in_history Sample.no_faults Sample.no_faults
           Demo.newest_first Demo.same_text
           (Sample.order [Sample.widget; Sample.gadget]) Sample.start
           (fst (create_order Sample.no_faults
                   (Sample.order [Sample.widget; Sample.gadget]) Sample.start))
           (snd (create_order Sample.no_faults
                   (Sample.order [Sample.widget; Sample.gadget]) Sample.start))
           1 "c1" "Alice" 4000 completed Msg.created).
  - reflexivity.
  - split; constructor.
  - intros l. apply Permutation_sym. apply Permutation_rev.
  - reflexivity.
  - reflexivity.
  - apply surjective_pairing.
  - reflexivity.
Defined.

(** ** Products *)

Lemma well_formed_product_passes body :
  well_formed_product body ->
  negb (truthy_str (ProductInput.name body))
  || negb (truthy_num (ProductInput.price body)) = false
  /\ isNaN (ProductInput.price body)
     || (parseFloat (ProductInput.price body) <=? 0) = false.
Proof.
  intros [Hn Hp]. rewrite Hn. unfold parseFloat.
  destruct (ProductInput.price body) as [p|]; cbn in *; [|lia].
  split.
  - replace (p =? 0) with false; [reflexivity|].
    symmetry. apply Z.eqb_neq. lia.
  - apply Z.leb_gt. exact Hp.
Qed.

(** A body that gets past the two guards is well formed. *)
Lemma guards_passed_well_formed body :
  negb (truthy_str (ProductInput.name body))
  || negb (truthy_num (ProductInput.price body)) = false ->
  isNaN (ProductInput.price body)
  || (parseFloat (ProductInput.price body) <=? 0) = false ->
  well_formed_product body.
Proof.
  intros H1 H2.
  apply orb_false_iff in H1. destruct H1 as [Hn _].
  apply orb_false_iff in H2. destruct H2 as [_ Hp].
  split.
  - now apply negb_false_iff in Hn.
  - unfold parseFloat in Hp. now apply Z.leb_gt in Hp.
Qed.

Lemma select_product_none id c :
  List.length (select_product id c) = 0%nat ->
  map (fun r => if Catalog.id r =? id
                then Catalog.mk (Catalog.id r)
                       (Catalog.name r) (Catalog.description r)
                       (Catalog.price r) (Catalog.image_url r)
                       (Catalog.category r)
                else r)
      (Shelf.rows c) = Shelf.rows c
  /\ Forall (fun r => (Catalog.id r =? id) = false) (Shelf.rows c).
Proof.
  unfold select_product. intros H. apply filter_none in H.
  split; [|exact H].
  induction H as [|r l Hr _ IH]; cbn; [reflexivity|]. now rewrite Hr, IH.
Qed.

(** X12.  A refused write changes nothing: whatever the body, the id and
    the fault, when [POST], [PUT] or [DELETE] on products answers anything
    but its success (400 for a body without name or positive price, 404
    for an id no product has, 500 for a store failure), the table of
    products is as it was. *)
Theorem refused_product_write_changes_nothing as_number fault id body c :
  (forall code message,
     fst (create_product fault body c) = Refused code message ->
     snd (create_product fault body c) = c)
  /\ (forall code message,
        fst (update_product as_number fault id body c) = Refused code message ->
        snd (update_product as_number fault id body c) = c)
  /\ (forall code message,
        fst (delete_product as_number fault id c) = Refused code message ->
        snd (delete_product as_number fault id c) = c).
Proof.
  split; [|split]; intros code message.
  - unfold create_product.
    destruct (negb (truthy_str (ProductInput.name body))
              || negb (truthy_num (ProductInput.price body))); [reflexivity|].
    destruct (isNaN (ProductInput.price body)
              || (parseFloat (ProductInput.price body) <=? 0)); [reflexivity|].
    unfold shelf_query. destruct fault; [reflexivity | discriminate].
  - unfold update_product.
    destruct (negb (truthy_str (ProductInput.name body))
              || negb (truthy_num (ProductInput.price body))); [reflexivity|].
    destruct (isNaN (ProductInput.price body)
              || (parseFloat (ProductInput.price body) <=? 0)); [reflexivity|].
    unfold shelf_query. destruct fault; [reflexivity|]. cbn [fst snd].
    destruct (fst (update_product_row (as_number id)
                     (str (ProductInput.name body))
                     (ProductInput.description body)
                     (parseFloat (ProductInput.price body))
                     (ProductInput.image_url body)
                     (ProductInput.category body) c) =? 0)%nat eqn:E;
      [|discriminate].
    intros _. apply Nat.eqb_eq in E. cbn [fst update_product_row] in E.
    apply filter_none in E. cbn [snd update_product_row].
    rewrite (map_unmatched _ _ _ E). now destruct c.
  - unfold delete_product, shelf_query.
    destruct fault; [reflexivity|]. cbn [fst snd].
    destruct (fst (delete_product_row (as_number id) c) =? 0)%nat eqn:E;
      [|discriminate].
    intros _. apply Nat.eqb_eq in E. cbn [fst delete_product_row] in E.
    apply filter_none in E. cbn [snd delete_product_row].
    replace (filter (fun r => negb (Catalog.id r =? as_number id)) (Shelf.rows c))
      with (Shelf.rows c); [now destruct c|].
    clear -E. induction E as [|r l Hr _ IH]; cbn; [reflexivity|].
    now rewrite Hr, <- IH.
Qed.

(** X13.  The three writers keep the table well formed: if every price
    is positive and every id is below the counter, the same holds after
    [POST], [PUT] or [DELETE], whatever the body, the id and the fault.  No
    sequence of these requests can store a price that is zero or
    negative. *)
Theorem product_writes_keep_prices_positive as_number fault id body c :
  prices_positive (Shelf.rows c) ->
  fresh_ids c ->
  (prices_positive (Shelf.rows (snd (create_product fault body c)))
   /\ fresh_ids (snd (create_product fault body c)))
  /\ (prices_positive
        (Shelf.rows (snd (update_product as_number fault id body c)))
      /\ fresh_ids (snd (update_product as_number fault id body c)))
  /\ (prices_positive (Shelf.rows (snd (delete_product as_number fault id c)))
      /\ fresh_ids (snd (delete_product as_number fault id c))).
Proof.
  unfold prices_positive, fresh_ids. intros Hpos Hfresh.
  split; [|split].
  - unfold create_product.
    destruct (negb (truthy_str (ProductInput.name body))
              || negb (truthy_num (ProductInput.price body))) eqn:G1;
      [now split|].
    destruct (isNaN (ProductInput.price body)
              || (parseFloat (ProductInput.price body) <=? 0)) eqn:G2;
      [now split|].
    destruct (guards_passed_well_formed body G1 G2) as [_ Hp].
    unfold shelf_query. destruct fault; [now split|].
    cbn [fst snd insert_product Shelf.rows Shelf.next_id]. split.
    + apply Forall_app. split; [exact Hpos|].
      constructor; [exact Hp | constructor].
    + apply Forall_app. split.
      * eapply Forall_impl; [|exact Hfresh]. cbn beta. intros r Hr. lia.
      * repeat constructor. cbn. lia.
  - unfold update_product.
    destruct (negb (truthy_str (ProductInput.name body))
              || negb (truthy_num (ProductInput.price body))) eqn:G1;
      [now split|].
    destruct (isNaN (ProductInput.price body)
              || (parseFloat (ProductInput.price body) <=? 0)) eqn:G2;
      [now split|].
    destruct (guards_passed_well_formed body G1 G2) as [_ Hp].
    unfold shelf_query. destruct fault; [now split|]. cbn [fst snd].
    assert (H : prices_positive
                  (Shelf.rows
                     (snd (update_product_row (as_number id)
                             (str (ProductInput.name body))
                             (ProductInput.description body)
                             (parseFloat (ProductInput.price body))
                             (ProductInput.image_url body)
                             (ProductInput.category body) c)))
                /\ fresh_ids
                     (snd (update_product_row (as_number id)
                             (str (ProductInput.name body))
                             (ProductInput.description body)
                             (parseFloat (ProductInput.price body))
                             (ProductInput.image_url body)
                             (ProductInput.category body) c))).
    { unfold prices_positive, fresh_ids.
      cbn [snd update_product_row Shelf.rows Shelf.next_id]. split.
      - apply Forall_forall. intros r' Hin. apply in_map_iff in Hin.
        destruct Hin as (r & <- & Hin).
        rewrite Forall_forall in Hpos.
        destruct (Catalog.id r =? as_number id); [exact Hp | now apply Hpos].
      - apply Forall_forall. intros r' Hin. apply in_map_iff in Hin.
        destruct Hin as (r & <- & Hin).
        rewrite Forall_forall in Hfresh.
        destruct (Catalog.id r =? as_number id); cbn; now apply Hfresh. }
    now destruct (fst (update_product_row _ _ _ _ _ _ c) =? 0)%nat.
  - unfold delete_product, shelf_query. destruct fault; [now split|].
    cbn [fst snd].
    assert (H : prices_positive
                  (Shelf.rows (snd (delete_product_row (as_number id) c)))
                /\ fresh_ids (snd (delete_product_row (as_number id) c))).
    { unfold prices_positive, fresh_ids.
      cbn [snd delete_product_row Shelf.rows Shelf.next_id].
      split; apply Forall_forall; intros r Hin;
        apply filter_In in Hin; destruct Hin as [Hin _].
      - rewrite Forall_forall in Hpos. now apply Hpos.
      - rewrite Forall_forall in Hfresh. now apply Hfresh. }
    now destruct (fst (delete_product_row (as_number id) c) =? 0)%nat.
Qed.

Lemma product_writes_keep_prices_positive_witness :
  (prices_positive
     (Shelf.rows (snd (create_product None Demo.lamp Demo.shelf)))
   /\ fresh_ids (snd (create_product None Demo.lamp Demo.shelf)))
  /\ (prices_positive
        (Shelf.rows (snd (update_product Demo.as_number None "7" Demo.lamp
                            Demo.shelf)))
      /\ fresh_ids (snd (update_product Demo.as_number None "7" Demo.lamp
                           Demo.shelf)))
  /\ (prices_positive
        (Shelf.rows (snd (delete_product Demo.as_number None "7" Demo.shelf)))
      /\ fresh_ids (snd (delete_product Demo.as_number None "7" Demo.shelf))).
Proof.
  apply (product_writes_keep_prices_positive Demo.as_number None "7" Demo.lamp
           Demo.shelf).
  - repeat constructor.
  - repeat constructor.
Defined.

Lemma refused_product_write_changes_nothing_witness :
  snd (create_product None Demo.free_lamp Demo.shelf) = Demo.shelf
  /\ snd (update_product Demo.as_number None "9" Demo.lamp Demo.shelf)
     = Demo.shelf
  /\ snd (delete_product Demo.as_number (Some "ECONNRESET"%string) "7"
            Demo.shelf)
     = Demo.shelf.
Proof.
  destruct (refused_product_write_changes_nothing Demo.as_number None "9"
              Demo.free_lamp Demo.shelf) as (H1 & _ & _).
  destruct (refused_product_write_changes_nothing Demo.as_number None "9"
              Demo.lamp Demo.shelf) as (_ & H2 & _).
  destruct (refused_product_write_changes_nothing Demo.as_number
              (Some "ECONNRESET"%string) "7" Demo.lamp Demo.shelf)
    as (_ & _ & H3).
  split; [|split].
  - apply (H1 400 Txt.name_and_price_required). reflexivity.
  - apply (H2 404 Txt.product_not_found). reflexivity.
  - apply (H3 500 Txt.delete_product_failed). reflexivity.
Defined.

Lemma create_product_run body c :
  well_formed_product body ->
  create_product None body c
    = (Sent 201 (product_row (Shelf.next_id c) body),
       Shelf.mk (Shelf.rows c ++ [product_row (Shelf.next_id c) body])
                (Shelf.next_id c + 1)).
Proof.
  intros H. destruct (well_formed_product_passes body H) as [G1 G2].
  unfold create_product. now rewrite G1, G2.
Qed.

Lemma get_product_run as_number id c :
  fst (get_product as_number None id c)
    = match select_product (as_number id) c with
      | [] => Refused 404 Txt.product_not_found
      | row :: _ => Sent 200 row
      end.
Proof.
  unfold get_product, shelf_query. cbn [fst snd].
  now destruct (select_product (as_number id) c).
Qed.

Lemma filter_fresh id l :
  Forall (fun r => Catalog.id r < id) l ->
  filter (fun r => Catalog.id r =? id) l = [].
Proof.
  intros H. induction H as [|r l Hr _ IH]; cbn; [reflexivity|].
  replace (Catalog.id r =? id) with false; [exact IH|].
  symmetry. apply Z.eqb_neq. lia.
Qed.

(** X14.  A product that [POST /api/products] has stored can be read
    back: with a body that has a name and a positive price (no store
    failure), the answer is 201 with the new id and the fields sent,
    [GET /api/products/:id] for that id then answers 200 with the same row,
    and the answer for every other id is what it was before. *)
Theorem created_product_can_be_read as_number body id c :
  fresh_ids c ->
  well_formed_product body ->
  as_number id = Shelf.next_id c ->
  fst (create_product None body c)
    = Sent 201 (product_row (Shelf.next_id c) body)
  /\ fst (get_product as_number None id (snd (create_product None body c)))
     = Sent 200 (product_row (Shelf.next_id c) body)
  /\ (forall other,
        as_number other <> Shelf.next_id c ->
        fst (get_product as_number None other
               (snd (create_product None body c)))
          = fst (get_product as_number None other c)).
Proof.
  intros Hfresh Hwf Hid. rewrite (create_product_run body c Hwf). cbn [fst snd].
  split; [reflexivity|]. split.
  - rewrite get_product_run, Hid. unfold select_product. cbn [Shelf.rows].
    rewrite filter_app, (filter_fresh _ _ Hfresh). cbn.
    now rewrite Z.eqb_refl.
  - intros other Hother. rewrite !get_product_run.
    unfold select_product. cbn [Shelf.rows]. rewrite filter_app. cbn.
    replace (Shelf.next_id c =? as_number other) with false.
    + now rewrite app_nil_r.
    + symmetry. apply Z.eqb_neq. congruence.
Qed.

Lemma created_product_can_be_read_witness :
  fst (create_product None Demo.lamp Demo.shelf)
    = Sent 201 (product_row 8 Demo.lamp)
  /\ fst (get_product Demo.as_number None "8"
            (snd (create_product None Demo.lamp Demo.shelf)))
     = Sent 200 (product_row 8 Demo.lamp)
  /\ (forall other,
        Demo.as_number other <> 8 ->
        fst (get_product Demo.as_number None other
               (snd (create_product None Demo.lamp Demo.shelf)))
          = fst (get_product Demo.as_number None other Demo.shelf)).
Proof.
  apply (created_product_can_be_read Demo.as_number Demo.lamp "8" Demo.shelf).
  - repeat constructor.
  - split; reflexivity.
  - reflexivity.
Defined.

Lemma filter_filter_out {A} (f : A -> bool) l :
  filter f (filter (fun x => negb (f x)) l) = [].
Proof.
  induction l as [|x l IH]; cbn; [reflexivity|].
  destruct (f x) eqn:E; cbn; [exact IH|]. now rewrite E.
Qed.

Lemma filter_other_id id other l :
  other <> id ->
  filter (fun r => Catalog.id r =? other)
         (filter (fun r => negb (Catalog.id r =? id)) l)
    = filter (fun r => Catalog.id r =? other) l.
Proof.
  intros Hne. induction l as [|r l IH]; cbn; [reflexivity|].
  destruct (Z.eqb_spec (Catalog.id r) id) as [E|E]; cbn.
  - replace (Catalog.id r =? other) with false; [exact IH|].
    symmetry. apply Z.eqb_neq. congruence.
  - now rewrite IH.
Qed.

(** X15.  [DELETE /api/products/:id] (no store failure) answers 200
    exactly when some product had the id, 404 otherwise; after it, [GET]
    for that id answers 404, and the answer for every other id is what it
    was before. *)
Theorem deleted_product_is_gone as_number id c :
  (fst (delete_product as_number None id c) = Sent 200 Txt.product_deleted
   \/ fst (delete_product as_number None id c)
      = Refused 404 Txt.product_not_found)
  /\ (fst (delete_product as_number None id c) = Sent 200 Txt.product_deleted
      <-> exists r, In r (Shelf.rows c) /\ Catalog.id r = as_number id)
  /\ fst (get_product as_number None id
            (snd (delete_product as_number None id c)))
     = Refused 404 Txt.product_not_found
  /\ (forall other,
        as_number other <> as_number id ->
        fst (get_product as_number None other
               (snd (delete_product as_number None id c)))
          = fst (get_product as_number None other c)).
Proof.
  assert (Hs : snd (delete_product as_number None id c)
               = snd (delete_product_row (as_number id) c)).
  { unfold delete_product, shelf_query. cbn [fst snd].
    now destruct (fst (delete_product_row (as_number id) c) =? 0)%nat. }
  assert (Hf : fst (delete_product as_number None id c)
               = if (List.length (select_product (as_number id) c) =? 0)%nat
                 then Refused 404 Txt.product_not_found
                 else Sent 200 Txt.product_deleted).
  { unfold delete_product, shelf_query. cbn [fst snd delete_product_row].
    now destruct (List.length (select_product (as_number id) c) =? 0)%nat. }
  rewrite Hs, Hf. split; [|split; [|split]].
  - destruct (List.length (select_product (as_number id) c) =? 0)%nat; auto.
  - destruct (List.length (select_product (as_number id) c) =? 0)%nat eqn:E.
    + split; [discriminate|]. intros (r & Hin & Hr). exfalso.
      apply Nat.eqb_eq in E. unfold select_product in E.
      apply filter_none in E. rewrite Forall_forall in E.
      specialize (E r Hin). cbn beta in E. rewrite Hr, Z.eqb_refl in E.
      discriminate E.
    + split; [|reflexivity]. intros _. apply Nat.eqb_neq in E.
      unfold select_product in *.
      destruct (filter (fun r => Catalog.id r =? as_number id) (Shelf.rows c))
        as [|r l] eqn:F; [now cbn in E|].
      assert (Hin : In r (filter (fun r => Catalog.id r =? as_number id)
                                 (Shelf.rows c))) by (rewrite F; now left).
      apply filter_In in Hin. destruct Hin as [Hin Hr].
      exists r. split; [exact Hin | now apply Z.eqb_eq].
  - rewrite get_product_run. unfold select_product.
    cbn [snd delete_product_row Shelf.rows].
    now rewrite (filter_filter_out (fun r => Catalog.id r =? as_number id)).
  - intros other Hother. rewrite !get_product_run. unfold select_product.
    cbn [snd delete_product_row Shelf.rows].
    now rewrite (filter_other_id _ _ _ Hother).
Qed.

Lemma update_product_run as_number id body c :
  well_formed_product body ->
  update_product as_number None id body c
    = (if (List.length (select_product (as_number id) c) =? 0)%nat
       then Refused 404 Txt.product_not_found
       else Sent 200
              (Updated.mk id (str (ProductInput.name body))
                 (ProductInput.description body)
                 (num (ProductInput.price body))
                 (ProductInput.image_url body) (ProductInput.category body)
                 Txt.product_updated),
       Shelf.mk
         (map (fun r => if Catalog.id r =? as_number id
                        then product_row (Catalog.id r) body else r)
              (Shelf.rows c))
         (Shelf.next_id c)).
Proof.
  intros H. destruct (well_formed_product_passes body H) as [G1 G2].
  unfold update_product. rewrite G1, G2. unfold shelf_query.
  cbn [fst snd update_product_row].
  now destruct (List.length (select_product (as_number id) c) =? 0)%nat.
Qed.

Lemma filter_updated id other body l :
  filter (fun r => Catalog.id r =? other)
         (map (fun r => if Catalog.id r =? id
                        then product_row (Catalog.id r) body else r) l)
    = map (fun r => if Catalog.id r =? id
                    then product_row (Catalog.id r) body else r)
          (filter (fun r => Catalog.id r =? other) l).
Proof.
  induction l as [|r l IH]; cbn; [reflexivity|].
  assert (E : Catalog.id (if Catalog.id r =? id
                          then product_row (Catalog.id r) body else r)
              = Catalog.id r).
  { now destruct (Catalog.id r =? id). }
  rewrite E. destruct (Catalog.id r =? other); cbn; now rewrite IH.
Qed.

(** X16.  [PUT /api/products/:id] with a body that has a name and a
    positive price, for an id that some product has (no store failure):
    the answer is 200 and repeats the id as it stood in the URL; [GET] for
    that id then answers with the fields sent; the answer for every other
    id is what it was before, and no row is added or removed. *)
Theorem updated_product_can_be_read as_number body id c :
  well_formed_product body ->
  (exists r, In r (Shelf.rows c) /\ Catalog.id r = as_number id) ->
  fst (update_product as_number None id body c)
    = Sent 200
        (Updated.mk id (str (ProductInput.name body))
           (ProductInput.description body) (num (ProductInput.price body))
           (ProductInput.image_url body) (ProductInput.category body)
           Txt.product_updated)
  /\ fst (get_product as_number None id
            (snd (update_product as_number None id body c)))
     = Sent 200 (product_row (as_number id) body)
  /\ (forall other,
        as_number other <> as_number id ->
        fst (get_product as_number None other
               (snd (update_product as_number None id body c)))
          = fst (get_product as_number None other c))
  /\ map Catalog.id (Shelf.rows (snd (update_product as_number None id body c)))
     = map Catalog.id (Shelf.rows c).
Proof.
  intros Hwf (r & Hin & Hr).
  rewrite (update_product_run as_number id body c Hwf). cbn [fst snd].
  assert (Hne : exists r0 l,
             filter (fun r => Catalog.id r =? as_number id) (Shelf.rows c)
               = r0 :: l /\ Catalog.id r0 = as_number id).
  { assert (H : In r (filter (fun r => Catalog.id r =? as_number id)
                             (Shelf.rows c))).
    { apply filter_In. split; [exact Hin | now apply Z.eqb_eq]. }
    destruct (filter (fun r => Catalog.id r =? as_number id) (Shelf.rows c))
      as [|r0 l] eqn:F; [destruct H|].
    exists r0, l. split; [reflexivity|].
    assert (H0 : In r0 (filter (fun r => Catalog.id r =? as_number id)
                               (Shelf.rows c))) by (rewrite F; now left).
    apply filter_In in H0. now apply Z.eqb_eq. }
  destruct Hne as (r0 & l & F & Hr0).
  split; [|split; [|split]].
  - unfold select_product. now rewrite F.
  - rewrite get_product_run. unfold select_product. cbn [Shelf.rows].
    rewrite filter_updated, F. cbn [map].
    now rewrite Hr0, Z.eqb_refl.
  - intros other Hother. rewrite !get_product_run. unfold select_product.
    cbn [Shelf.rows]. rewrite filter_updated.
    replace (map (fun r => if Catalog.id r =? as_number id
                           then product_row (Catalog.id r) body else r)
                 (filter (fun r => Catalog.id r =? as_number other)
                         (Shelf.rows c)))
      with (filter (fun r => Catalog.id r =? as_number other) (Shelf.rows c));
      [reflexivity|].
    symmetry. apply map_unmatched. apply Forall_forall. intros x Hx.
    apply filter_In in Hx. destruct Hx as [_ Hx]. apply Z.eqb_eq in Hx.
    apply Z.eqb_neq. congruence.
  - cbn [Shelf.rows]. rewrite map_map. apply map_ext. intros x.
    now destruct (Catalog.id x =? as_number id).
Qed.

Lemma updated_product_can_be_read_witness :
  fst (update_product Demo.as_number None "7" Demo.lamp Demo.shelf)
    = Sent 200
        (Updated.mk "7" (str (ProductInput.name Demo.lamp))
           (ProductInput.description Demo.lamp)
           (num (ProductInput.price Demo.lamp))
           (ProductInput.image_url Demo.lamp)
           (ProductInput.category Demo.lamp) Txt.product_updated)
  /\ fst (get_product Demo.as_number None "7"
            (snd (update_product Demo.as_number None "7" Demo.lamp Demo.shelf)))
     = Sent 200 (product_row (Demo.as_number "7") Demo.lamp)
  /\ (forall other,
        Demo.as_number other <> Demo.as_number "7" ->
        fst (get_product Demo.as_number None other
               (snd (update_product Demo.as_number None "7" Demo.lamp
                       Demo.shelf)))
          = fst (get_product Demo.as_number None other Demo.shelf))
  /\ map Catalog.id
         (Shelf.rows (snd (update_product Demo.as_number None "7" Demo.lamp
                             Demo.shelf)))
     = map Catalog.id (Shelf.rows Demo.shelf).
Proof.
  apply (updated_product_can_be_read Demo.as_number Demo.lamp "7" Demo.shelf).
  - split; reflexivity.
  - eexists. split; [right; left; reflexivity | reflexivity].
Defined.

(** ** Products and orders together *)

Lemma stocked_select_price c s id :
  stocked c s ->
  select_price (durable s) id
    = map Catalog.price
          (filter (fun r => Catalog.id r =? id) (Shelf.rows c)).
Proof.
  unfold stocked, select_price. intros ->.
  induction (Shelf.rows c) as [|r l IH]; cbn; [reflexivity|].
  destruct (Catalog.id r =? id); cbn; now rewrite IH.
Qed.

(** X17.  Once a product has been deleted, no order that names it goes
    through: whatever else the request holds and whatever the fault plan,
    it is never answered 201 and nothing of it is persisted. *)
Theorem deleted_product_cannot_be_ordered as_number id c faults req s item :
  idle s ->
  stocked (snd (delete_product as_number None id c)) s ->
  In item (items_of req) ->
  num (Item.product_id item) = as_number id ->
  durable (snd (create_order faults req s)) = durable s
  /\ forall b,
       response (snd (create_order faults req s)) <> Some (mkResponse 201 b).
Proof.
  intros Hidle Hstock Hin Hid.
  assert (Hv : view s = durable s) by (unfold view; now rewrite Hidle).
  assert (Hs : snd (delete_product as_number None id c)
               = snd (delete_product_row (as_number id) c)).
  { unfold delete_product, shelf_query. cbn [fst snd].
    now destruct (fst (delete_product_row (as_number id) c) =? 0)%nat. }
  assert (Hnot : ~ Forall (reconcilable (view s)) (items_of req)).
  { intros Hall. rewrite Forall_forall in Hall.
    destruct (Hall item Hin) as [_ Hex]. apply Hex.
    rewrite Hv, (stocked_select_price _ _ _ Hstock), Hs, Hid.
    cbn [snd delete_product_row Shelf.rows].
    now rewrite (filter_filter_out (fun r => Catalog.id r =? as_number id)). }
  destruct (create_order faults req s) as [r s'] eqn:Erun.
  apply handled_run in Erun. cbn [snd]. split.
  - destruct (handled_durable _ _ _ _ _ Erun Hidle) as [H | [_ H]];
      [exact H | contradiction].
  - intros b Hb.
    destruct (success_is_created _ _ _ _ _ Erun (ex_intro _ b Hb)) as [_ H].
    contradiction.
Qed.

Lemma deleted_product_cannot_be_ordered_witness :
  durable (snd (create_order Sample.no_faults
                  (Sample.order [Sample.gadget; Sample.widget])
                  (Demo.restocked
                     (snd (delete_product Demo.as_number None "7" Demo.shelf)))))
    = durable (Demo.restocked
                 (snd (delete_product Demo.as_number None "7" Demo.shelf)))
  /\ forall b,
       response (snd (create_order Sample.no_faults
                        (Sample.order [Sample.gadget; Sample.widget])
                        (Demo.restocked
                           (snd (delete_product Demo.as_number None "7"
                                   Demo.shelf)))))
       <> Some (mkResponse 201 b).
Proof.
  apply (deleted_product_cannot_be_ordered Demo.as_number "7" Demo.shelf
           Sample.no_faults (Sample.order [Sample.gadget; Sample.widget])
           (Demo.restocked
              (snd (delete_product Demo.as_number None "7" Demo.shelf)))
           Sample.widget).
  - reflexivity.
  - reflexivity.
  - right; left; reflexivity.
  - reflexivity.
Defined.

(** X18.  A product that [POST /api/products] has just stored is sold at
    the price it was stored with: in an order that goes through on a store
    holding the shelf after the [POST], every row persisted for a line item
    that names the new id carries the price of the body of the [POST], not
    the price the client of the order sent. *)
Theorem created_product_is_sold_at_its_price body c faults req s :
  fresh_ids c ->
  well_formed_product body ->
  stocked (snd (create_product None body c)) s ->
  idle s ->
  (forall k, faults k = None) ->
  header_error req = None ->
  Forall (fun item =>
            item_invalid item = false /\
            product_exists (durable s) (num (Item.product_id item)))
         (items_of req) ->
  exists b rows,
    response (snd (create_order faults req s)) = Some (mkResponse 201 b)
    /\ order_items (durable (snd (create_order faults req s)))
       = order_items (durable s) ++ rows
    /\ Forall2 (fun item row =>
                  OrderItem.product_id row = num (Item.product_id item)
                  /\ (num (Item.product_id item) = Shelf.next_id c ->
                      OrderItem.price_at_order row
                        = num (ProductInput.price body)))
               (items_of req) rows.
Proof.
  intros Hfresh Hwf Hstock Hidle Hnf Hh Hall.
  assert (Hv : view s = durable s) by (unfold view; now rewrite Hidle).
  assert (Hrec : Forall (reconcilable (view s)) (items_of req)).
  { rewrite Hv. eapply Forall_impl; [|exact Hall].
    intros item H. now apply reconcilable_spec. }
  rewrite (created_when_sound faults req s Hnf Hh Hrec). cbn [snd].
  exists (created_body req s),
         (persisted_rows (durable s) (auto_increment s) (items_of req)).
  rewrite (durable_created req s Hidle).
  split; [apply response_created|]. split; [reflexivity|].
  unfold persisted_rows. rewrite map_map.
  apply Forall2_map_right with (P := fun _ => True);
    [|apply Forall_forall; trivial].
  intros item _. split; [reflexivity|]. intros Hid.
  cbn [OrderItem.price_at_order order_item_row reconciled_in reconciled
       Reconciled.price_at_order].
  unfold actual_price.
  rewrite (stocked_select_price _ _ _ Hstock), Hid.
  rewrite (create_product_run body c Hwf). cbn [snd Shelf.rows].
  rewrite filter_app, (filter_fresh _ _ Hfresh). cbn.
  now rewrite Z.eqb_refl.
Qed.

Lemma created_product_is_sold_at_its_price_witness :
  exists b rows,
    response
      (snd (create_order Sample.no_faults
              (Sample.order
                 [Item.mk (Some 8) (Some 2) (Some "Lamp"%string) (Some 1) None])
              (Demo.restocked (snd (create_product None Demo.lamp Demo.shelf)))))
      = Some (mkResponse 201 b)
    /\ order_items
         (durable
            (snd (create_order Sample.no_faults
                    (Sample.order
                       [Item.mk (Some 8) (Some 2) (Some "Lamp"%string) (Some 1)
                          None])
                    (Demo.restocked
                       (snd (create_product None Demo.lamp Demo.shelf))))))
       = order_items
           (durable
              (Demo.restocked (snd (create_product None Demo.lamp Demo.shelf))))
         ++ rows
    /\ Forall2 (fun item row =>
                  OrderItem.product_id row = num (Item.product_id item)
                  /\ (num (Item.product_id item) = Shelf.next_id Demo.shelf ->
                      OrderItem.price_at_order row
                        = num (ProductInput.price Demo.lamp)))
               (items_of
                  (Sample.order
                     [Item.mk (Some 8) (Some 2) (Some "Lamp"%string) (Some 1)
                        None]))
               rows.
Proof.
  apply (created_product_is_sold_at_its_price Demo.lamp Demo.shelf
           Sample.no_faults
           (Sample.order
              [Item.mk (Some 8) (Some 2) (Some "Lamp"%string) (Some 1) None])
           (Demo.restocked (snd (create_product None Demo.lamp Demo.shelf)))).
  - repeat constructor.
  - split; reflexivity.
  - reflexivity.
  - reflexivity.
  - reflexivity.
  - reflexivity.
  - constructor; [split; [reflexivity | vm_compute; auto] | constructor].
Defined.
